(** * FaceGeneratorBot: the batched fetch-and-deliver loop of [main.py]

    A shallow embedding of the Telegram bot of [main.py].  Every function of
    the module is translated to a computation in a small monad that threads
    the state of the process (the files on disk and the number of external
    calls made so far), may raise a Python exception, and writes the external
    calls it issues, in order, to a log.  What the outside world answers (the
    payload of an HTTP response or the class of the exception of a failed
    one, whether a Bot API call raises, the identifier Telegram gives a new
    message, the value of [uuid.uuid4()]) is read from an oracle that the
    theorems quantify over. *)

From Stdlib Require Import String Ascii List ZArith NArith Bool DecimalString Lia.
Import ListNotations.

Local Open Scope string_scope.
Local Open Scope Z_scope.

(* ================================================================== *)
(** ** Python strings *)

(** A Python [str] is a sequence of code points; it is held here as the
    UTF-8 encoding of that sequence (a lone surrogate, which a [str] may
    hold, as its three-byte form).  The three library functions the bot
    applies to the text of a message, [str.strip], [str.lower] and [int],
    are written out as CPython 3.11 computes them, over the code points of
    the text; the character tables are those of the Unicode Character
    Database 14.0 that this version ships.  A byte that is not part of a
    well-formed UTF-8 sequence stands for no character of a [str]; the
    functions pass it through unchanged. *)
Module PyStr.

Definition code (a : ascii) : N := N_of_ascii a.

Definition between (lo hi n : N) : bool := ((lo <=? n) && (n <=? hi))%N.

(** Membership in a table of inclusive ranges of code points. *)
Definition within (table : list (N * N)) (c : N) : bool :=
  existsb (fun r => between (fst r) (snd r) c) table.

(** *** UTF-8 *)

(** A continuation byte, 80..BF, and its six payload bits. *)
Definition continuation (a : ascii) : bool := between 0x80 0xBF (code a).

Definition payload6 (a : ascii) : N := (code a - 0x80)%N.

(** A byte outside any well-formed sequence, kept apart from the code
    points (which end at U+10FFFF). *)
Definition stray (a : ascii) : N := (0x110000 + code a)%N.

(** The code points of a text.  Only shortest forms are read as a
    character: C2..DF with one continuation byte, E0..EF with two (after E0
    the first is A0..BF), F0..F4 with three (after F0 the first is 90..BF,
    after F4 it is 80..8F). *)
Fixpoint decode (s : string) : list N :=
  match s with
  | EmptyString => []
  | String a r1 =>
      if (code a <? 0x80)%N then code a :: decode r1
      else
        match r1 with
        | String b r2 =>
            if between 0xC2 0xDF (code a) && continuation b then
              ((code a - 0xC0) * 64 + payload6 b)%N :: decode r2
            else
              match r2 with
              | String c r3 =>
                  if between 0xE0 0xEF (code a) && continuation b
                     && continuation c
                     && ((0xE0 <? code a) || (0xA0 <=? code b))%N then
                    ((code a - 0xE0) * 4096 + payload6 b * 64 + payload6 c)%N
                      :: decode r3
                  else
                    match r3 with
                    | String d r4 =>
                        if between 0xF0 0xF4 (code a) && continuation b
                           && continuation c && continuation d
                           && ((0xF0 <? code a) || (0x90 <=? code b))%N
                           && ((code a <? 0xF4) || (code b <=? 0x8F))%N then
                          ((code a - 0xF0) * 262144 + payload6 b * 4096
                           + payload6 c * 64 + payload6 d)%N :: decode r4
                        else stray a :: decode r1
                    | EmptyString => stray a :: decode r1
                    end
              | EmptyString => stray a :: decode r1
              end
        | EmptyString => [stray a]
        end
  end.

Definition chr (n : N) : ascii := ascii_of_N n.

Definition encode_point (c : N) : string :=
  if (c <? 0x80)%N then String (chr c) EmptyString
  else if (c <? 0x800)%N then
    String (chr (0xC0 + c / 64)) (String (chr (0x80 + c mod 64)) EmptyString)
  else if (c <? 0x10000)%N then
    String (chr (0xE0 + c / 4096))
      (String (chr (0x80 + (c / 64) mod 64))
         (String (chr (0x80 + c mod 64)) EmptyString))
  else if (c <? 0x110000)%N then
    String (chr (0xF0 + c / 262144))
      (String (chr (0x80 + (c / 4096) mod 64))
         (String (chr (0x80 + (c / 64) mod 64))
            (String (chr (0x80 + c mod 64)) EmptyString)))
  else String (chr (c - 0x110000)) EmptyString.

Fixpoint encode (l : list N) : string :=
  match l with
  | [] => EmptyString
  | c :: rest => encode_point c ++ encode rest
  end.

(** *** [str.strip] *)

(** The characters [str.isspace] holds of: TAB LF VT FF CR, FS GS RS US,
    SPACE, NEL, NO-BREAK SPACE, OGHAM SPACE MARK, EN QUAD..HAIR SPACE, LINE
    and PARAGRAPH SEPARATOR, NARROW NO-BREAK SPACE, MEDIUM MATHEMATICAL
    SPACE, IDEOGRAPHIC SPACE. *)
Definition spaces : list (N * N) :=
  [
   (0x9, 0xD); (0x1C, 0x20); (0x85, 0x85); (0xA0, 0xA0); (0x1680, 0x1680);
   (0x2000, 0x200A); (0x2028, 0x2029); (0x202F, 0x202F); (0x205F, 0x205F); (0x3000, 0x3000)
  ]%N.

Definition isspace (c : N) : bool := within spaces c.

Fixpoint lstrip (l : list N) : list N :=
  match l with
  | [] => []
  | c :: rest => if isspace c then lstrip rest else l
  end.

Definition rstrip (l : list N) : list N := rev (lstrip (rev l)).

(** [str.strip()] without argument. *)
Definition strip (s : string) : string := encode (rstrip (lstrip (decode s))).

(** *** [str.lower] *)

(** The characters with a one-character lower case other than themselves:
    [(first, last, step, image of first)]; the characters [first],
    [first + step], ... up to [last] go to consecutive images, so that the
    lower case of [c] is [image + (c - first)]. *)
Definition lowercase : list (N * N * N * N) :=
  [
   (0x41, 0x5A, 1, 0x61); (0xC0, 0xD6, 1, 0xE0); (0xD8, 0xDE, 1, 0xF8);
   (0x100, 0x12E, 2, 0x101); (0x132, 0x136, 2, 0x133); (0x139, 0x147, 2, 0x13A);
   (0x14A, 0x176, 2, 0x14B); (0x178, 0x178, 1, 0xFF); (0x179, 0x17D, 2, 0x17A);
   (0x181, 0x181, 1, 0x253); (0x182, 0x184, 2, 0x183); (0x186, 0x186, 1, 0x254);
   (0x187, 0x187, 1, 0x188); (0x189, 0x18A, 1, 0x256); (0x18B, 0x18B, 1, 0x18C);
   (0x18E, 0x18E, 1, 0x1DD); (0x18F, 0x18F, 1, 0x259); (0x190, 0x190, 1, 0x25B);
   (0x191, 0x191, 1, 0x192); (0x193, 0x193, 1, 0x260); (0x194, 0x194, 1, 0x263);
   (0x196, 0x196, 1, 0x269); (0x197, 0x197, 1, 0x268); (0x198, 0x198, 1, 0x199);
   (0x19C, 0x19C, 1, 0x26F); (0x19D, 0x19D, 1, 0x272); (0x19F, 0x19F, 1, 0x275);
   (0x1A0, 0x1A4, 2, 0x1A1); (0x1A6, 0x1A6, 1, 0x280); (0x1A7, 0x1A7, 1, 0x1A8);
   (0x1A9, 0x1A9, 1, 0x283); (0x1AC, 0x1AC, 1, 0x1AD); (0x1AE, 0x1AE, 1, 0x288);
   (0x1AF, 0x1AF, 1, 0x1B0); (0x1B1, 0x1B2, 1, 0x28A); (0x1B3, 0x1B5, 2, 0x1B4);
   (0x1B7, 0x1B7, 1, 0x292); (0x1B8, 0x1B8, 1, 0x1B9); (0x1BC, 0x1BC, 1, 0x1BD);
   (0x1C4, 0x1C4, 1, 0x1C6); (0x1C5, 0x1C5, 1, 0x1C6); (0x1C7, 0x1C7, 1, 0x1C9);
   (0x1C8, 0x1C8, 1, 0x1C9); (0x1CA, 0x1CA, 1, 0x1CC); (0x1CB, 0x1DB, 2, 0x1CC);
   (0x1DE, 0x1EE, 2, 0x1DF); (0x1F1, 0x1F1, 1, 0x1F3); (0x1F2, 0x1F4, 2, 0x1F3);
   (0x1F6, 0x1F6, 1, 0x195); (0x1F7, 0x1F7, 1, 0x1BF); (0x1F8, 0x21E, 2, 0x1F9);
   (0x220, 0x220, 1, 0x19E); (0x222, 0x232, 2, 0x223); (0x23A, 0x23A, 1, 0x2C65);
   (0x23B, 0x23B, 1, 0x23C); (0x23D, 0x23D, 1, 0x19A); (0x23E, 0x23E, 1, 0x2C66);
   (0x241, 0x241, 1, 0x242); (0x243, 0x243, 1, 0x180); (0x244, 0x244, 1, 0x289);
   (0x245, 0x245, 1, 0x28C); (0x246, 0x24E, 2, 0x247); (0x370, 0x372, 2, 0x371);
   (0x376, 0x376, 1, 0x377); (0x37F, 0x37F, 1, 0x3F3); (0x386, 0x386, 1, 0x3AC);
   (0x388, 0x38A, 1, 0x3AD); (0x38C, 0x38C, 1, 0x3CC); (0x38E, 0x38F, 1, 0x3CD);
   (0x391, 0x3A1, 1, 0x3B1); (0x3A4, 0x3AB, 1, 0x3C4); (0x3CF, 0x3CF, 1, 0x3D7);
   (0x3D8, 0x3EE, 2, 0x3D9); (0x3F4, 0x3F4, 1, 0x3B8); (0x3F7, 0x3F7, 1, 0x3F8);
   (0x3F9, 0x3F9, 1, 0x3F2); (0x3FA, 0x3FA, 1, 0x3FB); (0x3FD, 0x3FF, 1, 0x37B);
   (0x400, 0x40F, 1, 0x450); (0x410, 0x42F, 1, 0x430); (0x460, 0x480, 2, 0x461);
   (0x48A, 0x4BE, 2, 0x48B); (0x4C0, 0x4C0, 1, 0x4CF); (0x4C1, 0x4CD, 2, 0x4C2);
   (0x4D0, 0x52E, 2, 0x4D1); (0x531, 0x556, 1, 0x561); (0x10A0, 0x10C5, 1, 0x2D00);
   (0x10C7, 0x10C7, 1, 0x2D27); (0x10CD, 0x10CD, 1, 0x2D2D); (0x13A0, 0x13EF, 1, 0xAB70);
   (0x13F0, 0x13F5, 1, 0x13F8); (0x1C90, 0x1CBA, 1, 0x10D0); (0x1CBD, 0x1CBF, 1, 0x10FD);
   (0x1E00, 0x1E94, 2, 0x1E01); (0x1E9E, 0x1E9E, 1, 0xDF); (0x1EA0, 0x1EFE, 2, 0x1EA1);
   (0x1F08, 0x1F0F, 1, 0x1F00); (0x1F18, 0x1F1D, 1, 0x1F10); (0x1F28, 0x1F2F, 1, 0x1F20);
   (0x1F38, 0x1F3F, 1, 0x1F30); (0x1F48, 0x1F4D, 1, 0x1F40); (0x1F59, 0x1F5F, 2, 0x1F51);
   (0x1F68, 0x1F6F, 1, 0x1F60); (0x1F88, 0x1F8F, 1, 0x1F80); (0x1F98, 0x1F9F, 1, 0x1F90);
   (0x1FA8, 0x1FAF, 1, 0x1FA0); (0x1FB8, 0x1FB9, 1, 0x1FB0); (0x1FBA, 0x1FBB, 1, 0x1F70);
   (0x1FBC, 0x1FBC, 1, 0x1FB3); (0x1FC8, 0x1FCB, 1, 0x1F72); (0x1FCC, 0x1FCC, 1, 0x1FC3);
   (0x1FD8, 0x1FD9, 1, 0x1FD0); (0x1FDA, 0x1FDB, 1, 0x1F76); (0x1FE8, 0x1FE9, 1, 0x1FE0);
   (0x1FEA, 0x1FEB, 1, 0x1F7A); (0x1FEC, 0x1FEC, 1, 0x1FE5); (0x1FF8, 0x1FF9, 1, 0x1F78);
   (0x1FFA, 0x1FFB, 1, 0x1F7C); (0x1FFC, 0x1FFC, 1, 0x1FF3); (0x2126, 0x2126, 1, 0x3C9);
   (0x212A, 0x212A, 1, 0x6B); (0x212B, 0x212B, 1, 0xE5); (0x2132, 0x2132, 1, 0x214E);
   (0x2160, 0x216F, 1, 0x2170); (0x2183, 0x2183, 1, 0x2184); (0x24B6, 0x24CF, 1, 0x24D0);
   (0x2C00, 0x2C2F, 1, 0x2C30); (0x2C60, 0x2C60, 1, 0x2C61); (0x2C62, 0x2C62, 1, 0x26B);
   (0x2C63, 0x2C63, 1, 0x1D7D); (0x2C64, 0x2C64, 1, 0x27D); (0x2C67, 0x2C6B, 2, 0x2C68);
   (0x2C6D, 0x2C6D, 1, 0x251); (0x2C6E, 0x2C6E, 1, 0x271); (0x2C6F, 0x2C6F, 1, 0x250);
   (0x2C70, 0x2C70, 1, 0x252); (0x2C72, 0x2C72, 1, 0x2C73); (0x2C75, 0x2C75, 1, 0x2C76);
   (0x2C7E, 0x2C7F, 1, 0x23F); (0x2C80, 0x2CE2, 2, 0x2C81); (0x2CEB, 0x2CED, 2, 0x2CEC);
   (0x2CF2, 0x2CF2, 1, 0x2CF3); (0xA640, 0xA66C, 2, 0xA641); (0xA680, 0xA69A, 2, 0xA681);
   (0xA722, 0xA72E, 2, 0xA723); (0xA732, 0xA76E, 2, 0xA733); (0xA779, 0xA77B, 2, 0xA77A);
   (0xA77D, 0xA77D, 1, 0x1D79); (0xA77E, 0xA786, 2, 0xA77F); (0xA78B, 0xA78B, 1, 0xA78C);
   (0xA78D, 0xA78D, 1, 0x265); (0xA790, 0xA792, 2, 0xA791); (0xA796, 0xA7A8, 2, 0xA797);
   (0xA7AA, 0xA7AA, 1, 0x266); (0xA7AB, 0xA7AB, 1, 0x25C); (0xA7AC, 0xA7AC, 1, 0x261);
   (0xA7AD, 0xA7AD, 1, 0x26C); (0xA7AE, 0xA7AE, 1, 0x26A); (0xA7B0, 0xA7B0, 1, 0x29E);
   (0xA7B1, 0xA7B1, 1, 0x287); (0xA7B2, 0xA7B2, 1, 0x29D); (0xA7B3, 0xA7B3, 1, 0xAB53);
   (0xA7B4, 0xA7C2, 2, 0xA7B5); (0xA7C4, 0xA7C4, 1, 0xA794); (0xA7C5, 0xA7C5, 1, 0x282);
   (0xA7C6, 0xA7C6, 1, 0x1D8E); (0xA7C7, 0xA7C9, 2, 0xA7C8); (0xA7D0, 0xA7D0, 1, 0xA7D1);
   (0xA7D6, 0xA7D8, 2, 0xA7D7); (0xA7F5, 0xA7F5, 1, 0xA7F6); (0xFF21, 0xFF3A, 1, 0xFF41);
   (0x10400, 0x10427, 1, 0x10428); (0x104B0, 0x104D3, 1, 0x104D8); (0x10570, 0x1057A, 1, 0x10597);
   (0x1057C, 0x1058A, 1, 0x105A3); (0x1058C, 0x10592, 1, 0x105B3); (0x10594, 0x10595, 1, 0x105BB);
   (0x10C80, 0x10CB2, 1, 0x10CC0); (0x118A0, 0x118BF, 1, 0x118C0); (0x16E40, 0x16E5F, 1, 0x16E60);
   (0x1E900, 0x1E921, 1, 0x1E922)
  ]%N.

Fixpoint simple_lower (table : list (N * N * N * N)) (c : N) : N :=
  match table with
  | [] => c
  | (first, last, step, image) :: table' =>
      if between first last c && ((c - first) mod step =? 0)%N
      then (image + (c - first))%N
      else simple_lower table' c
  end.

(** The lower case of one character, U+03A3 apart: LATIN CAPITAL LETTER I
    WITH DOT ABOVE becomes two characters, every other character one. *)
Definition lower_full (c : N) : list N :=
  if (c =? 0x130)%N then [0x69; 0x307]%N else [simple_lower lowercase c].

(** The property Cased. *)
Definition cased_table : list (N * N) :=
  [
   (0x41, 0x5A); (0x61, 0x7A); (0xAA, 0xAA); (0xB5, 0xB5); (0xBA, 0xBA); (0xC0, 0xD6);
   (0xD8, 0xF6); (0xF8, 0x1BA); (0x1BC, 0x1BF); (0x1C4, 0x293); (0x295, 0x2B8); (0x2C0, 0x2C1);
   (0x2E0, 0x2E4); (0x345, 0x345); (0x370, 0x373); (0x376, 0x377); (0x37A, 0x37D); (0x37F, 0x37F);
   (0x386, 0x386); (0x388, 0x38A); (0x38C, 0x38C); (0x38E, 0x3A1); (0x3A3, 0x3F5); (0x3F7, 0x481);
   (0x48A, 0x52F); (0x531, 0x556); (0x560, 0x588); (0x10A0, 0x10C5); (0x10C7, 0x10C7); (0x10CD, 0x10CD);
   (0x10D0, 0x10FA); (0x10FD, 0x10FF); (0x13A0, 0x13F5); (0x13F8, 0x13FD); (0x1C80, 0x1C88); (0x1C90, 0x1CBA);
   (0x1CBD, 0x1CBF); (0x1D00, 0x1DBF); (0x1E00, 0x1F15); (0x1F18, 0x1F1D); (0x1F20, 0x1F45); (0x1F48, 0x1F4D);
   (0x1F50, 0x1F57); (0x1F59, 0x1F59); (0x1F5B, 0x1F5B); (0x1F5D, 0x1F5D); (0x1F5F, 0x1F7D); (0x1F80, 0x1FB4);
   (0x1FB6, 0x1FBC); (0x1FBE, 0x1FBE); (0x1FC2, 0x1FC4); (0x1FC6, 0x1FCC); (0x1FD0, 0x1FD3); (0x1FD6, 0x1FDB);
   (0x1FE0, 0x1FEC); (0x1FF2, 0x1FF4); (0x1FF6, 0x1FFC); (0x2071, 0x2071); (0x207F, 0x207F); (0x2090, 0x209C);
   (0x2102, 0x2102); (0x2107, 0x2107); (0x210A, 0x2113); (0x2115, 0x2115); (0x2119, 0x211D); (0x2124, 0x2124);
   (0x2126, 0x2126); (0x2128, 0x2128); (0x212A, 0x212D); (0x212F, 0x2134); (0x2139, 0x2139); (0x213C, 0x213F);
   (0x2145, 0x2149); (0x214E, 0x214E); (0x2160, 0x217F); (0x2183, 0x2184); (0x24B6, 0x24E9); (0x2C00, 0x2CE4);
   (0x2CEB, 0x2CEE); (0x2CF2, 0x2CF3); (0x2D00, 0x2D25); (0x2D27, 0x2D27); (0x2D2D, 0x2D2D); (0xA640, 0xA66D);
   (0xA680, 0xA69D); (0xA722, 0xA787); (0xA78B, 0xA78E); (0xA790, 0xA7CA); (0xA7D0, 0xA7D1); (0xA7D3, 0xA7D3);
   (0xA7D5, 0xA7D9); (0xA7F5, 0xA7F6); (0xA7F8, 0xA7FA); (0xAB30, 0xAB5A); (0xAB5C, 0xAB68); (0xAB70, 0xABBF);
   (0xFB00, 0xFB06); (0xFB13, 0xFB17); (0xFF21, 0xFF3A); (0xFF41, 0xFF5A); (0x10400, 0x1044F); (0x104B0, 0x104D3);
   (0x104D8, 0x104FB); (0x10570, 0x1057A); (0x1057C, 0x1058A); (0x1058C, 0x10592); (0x10594, 0x10595); (0x10597, 0x105A1);
   (0x105A3, 0x105B1); (0x105B3, 0x105B9); (0x105BB, 0x105BC); (0x10780, 0x10780); (0x10783, 0x10785); (0x10787, 0x107B0);
   (0x107B2, 0x107BA); (0x10C80, 0x10CB2); (0x10CC0, 0x10CF2); (0x118A0, 0x118DF); (0x16E40, 0x16E7F); (0x1D400, 0x1D454);
   (0x1D456, 0x1D49C); (0x1D49E, 0x1D49F); (0x1D4A2, 0x1D4A2); (0x1D4A5, 0x1D4A6); (0x1D4A9, 0x1D4AC); (0x1D4AE, 0x1D4B9);
   (0x1D4BB, 0x1D4BB); (0x1D4BD, 0x1D4C3); (0x1D4C5, 0x1D505); (0x1D507, 0x1D50A); (0x1D50D, 0x1D514); (0x1D516, 0x1D51C);
   (0x1D51E, 0x1D539); (0x1D53B, 0x1D53E); (0x1D540, 0x1D544); (0x1D546, 0x1D546); (0x1D54A, 0x1D550); (0x1D552, 0x1D6A5);
   (0x1D6A8, 0x1D6C0); (0x1D6C2, 0x1D6DA); (0x1D6DC, 0x1D6FA); (0x1D6FC, 0x1D714); (0x1D716, 0x1D734); (0x1D736, 0x1D74E);
   (0x1D750, 0x1D76E); (0x1D770, 0x1D788); (0x1D78A, 0x1D7A8); (0x1D7AA, 0x1D7C2); (0x1D7C4, 0x1D7CB); (0x1DF00, 0x1DF09);
   (0x1DF0B, 0x1DF1E); (0x1E900, 0x1E943); (0x1F130, 0x1F149); (0x1F150, 0x1F169); (0x1F170, 0x1F189)
  ]%N.

(** The property Case_Ignorable. *)
Definition case_ignorable_table : list (N * N) :=
  [
   (0x27, 0x27); (0x2E, 0x2E); (0x3A, 0x3A); (0x5E, 0x5E); (0x60, 0x60); (0xA8, 0xA8);
   (0xAD, 0xAD); (0xAF, 0xAF); (0xB4, 0xB4); (0xB7, 0xB8); (0x2B0, 0x36F); (0x374, 0x375);
   (0x37A, 0x37A); (0x384, 0x385); (0x387, 0x387); (0x483, 0x489); (0x559, 0x559); (0x55F, 0x55F);
   (0x591, 0x5BD); (0x5BF, 0x5BF); (0x5C1, 0x5C2); (0x5C4, 0x5C5); (0x5C7, 0x5C7); (0x5F4, 0x5F4);
   (0x600, 0x605); (0x610, 0x61A); (0x61C, 0x61C); (0x640, 0x640); (0x64B, 0x65F); (0x670, 0x670);
   (0x6D6, 0x6DD); (0x6DF, 0x6E8); (0x6EA, 0x6ED); (0x70F, 0x70F); (0x711, 0x711); (0x730, 0x74A);
   (0x7A6, 0x7B0); (0x7EB, 0x7F5); (0x7FA, 0x7FA); (0x7FD, 0x7FD); (0x816, 0x82D); (0x859, 0x85B);
   (0x888, 0x888); (0x890, 0x891); (0x898, 0x89F); (0x8C9, 0x902); (0x93A, 0x93A); (0x93C, 0x93C);
   (0x941, 0x948); (0x94D, 0x94D); (0x951, 0x957); (0x962, 0x963); (0x971, 0x971); (0x981, 0x981);
   (0x9BC, 0x9BC); (0x9C1, 0x9C4); (0x9CD, 0x9CD); (0x9E2, 0x9E3); (0x9FE, 0x9FE); (0xA01, 0xA02);
   (0xA3C, 0xA3C); (0xA41, 0xA42); (0xA47, 0xA48); (0xA4B, 0xA4D); (0xA51, 0xA51); (0xA70, 0xA71);
   (0xA75, 0xA75); (0xA81, 0xA82); (0xABC, 0xABC); (0xAC1, 0xAC5); (0xAC7, 0xAC8); (0xACD, 0xACD);
   (0xAE2, 0xAE3); (0xAFA, 0xAFF); (0xB01, 0xB01); (0xB3C, 0xB3C); (0xB3F, 0xB3F); (0xB41, 0xB44);
   (0xB4D, 0xB4D); (0xB55, 0xB56); (0xB62, 0xB63); (0xB82, 0xB82); (0xBC0, 0xBC0); (0xBCD, 0xBCD);
   (0xC00, 0xC00); (0xC04, 0xC04); (0xC3C, 0xC3C); (0xC3E, 0xC40); (0xC46, 0xC48); (0xC4A, 0xC4D);
   (0xC55, 0xC56); (0xC62, 0xC63); (0xC81, 0xC81); (0xCBC, 0xCBC); (0xCBF, 0xCBF); (0xCC6, 0xCC6);
   (0xCCC, 0xCCD); (0xCE2, 0xCE3); (0xD00, 0xD01); (0xD3B, 0xD3C); (0xD41, 0xD44); (0xD4D, 0xD4D);
   (0xD62, 0xD63); (0xD81, 0xD81); (0xDCA, 0xDCA); (0xDD2, 0xDD4); (0xDD6, 0xDD6); (0xE31, 0xE31);
   (0xE34, 0xE3A); (0xE46, 0xE4E); (0xEB1, 0xEB1); (0xEB4, 0xEBC); (0xEC6, 0xEC6); (0xEC8, 0xECD);
   (0xF18, 0xF19); (0xF35, 0xF35); (0xF37, 0xF37); (0xF39, 0xF39); (0xF71, 0xF7E); (0xF80, 0xF84);
   (0xF86, 0xF87); (0xF8D, 0xF97); (0xF99, 0xFBC); (0xFC6, 0xFC6); (0x102D, 0x1030); (0x1032, 0x1037);
   (0x1039, 0x103A); (0x103D, 0x103E); (0x1058, 0x1059); (0x105E, 0x1060); (0x1071, 0x1074); (0x1082, 0x1082);
   (0x1085, 0x1086); (0x108D, 0x108D); (0x109D, 0x109D); (0x10FC, 0x10FC); (0x135D, 0x135F); (0x1712, 0x1714);
   (0x1732, 0x1733); (0x1752, 0x1753); (0x1772, 0x1773); (0x17B4, 0x17B5); (0x17B7, 0x17BD); (0x17C6, 0x17C6);
   (0x17C9, 0x17D3); (0x17D7, 0x17D7); (0x17DD, 0x17DD); (0x180B, 0x180F); (0x1843, 0x1843); (0x1885, 0x1886);
   (0x18A9, 0x18A9); (0x1920, 0x1922); (0x1927, 0x1928); (0x1932, 0x1932); (0x1939, 0x193B); (0x1A17, 0x1A18);
   (0x1A1B, 0x1A1B); (0x1A56, 0x1A56); (0x1A58, 0x1A5E); (0x1A60, 0x1A60); (0x1A62, 0x1A62); (0x1A65, 0x1A6C);
   (0x1A73, 0x1A7C); (0x1A7F, 0x1A7F); (0x1AA7, 0x1AA7); (0x1AB0, 0x1ACE); (0x1B00, 0x1B03); (0x1B34, 0x1B34);
   (0x1B36, 0x1B3A); (0x1B3C, 0x1B3C); (0x1B42, 0x1B42); (0x1B6B, 0x1B73); (0x1B80, 0x1B81); (0x1BA2, 0x1BA5);
   (0x1BA8, 0x1BA9); (0x1BAB, 0x1BAD); (0x1BE6, 0x1BE6); (0x1BE8, 0x1BE9); (0x1BED, 0x1BED); (0x1BEF, 0x1BF1);
   (0x1C2C, 0x1C33); (0x1C36, 0x1C37); (0x1C78, 0x1C7D); (0x1CD0, 0x1CD2); (0x1CD4, 0x1CE0); (0x1CE2, 0x1CE8);
   (0x1CED, 0x1CED); (0x1CF4, 0x1CF4); (0x1CF8, 0x1CF9); (0x1D2C, 0x1D6A); (0x1D78, 0x1D78); (0x1D9B, 0x1DFF);
   (0x1FBD, 0x1FBD); (0x1FBF, 0x1FC1); (0x1FCD, 0x1FCF); (0x1FDD, 0x1FDF); (0x1FED, 0x1FEF); (0x1FFD, 0x1FFE);
   (0x200B, 0x200F); (0x2018, 0x2019); (0x2024, 0x2024); (0x2027, 0x2027); (0x202A, 0x202E); (0x2060, 0x2064);
   (0x2066, 0x206F); (0x2071, 0x2071); (0x207F, 0x207F); (0x2090, 0x209C); (0x20D0, 0x20F0); (0x2C7C, 0x2C7D);
   (0x2CEF, 0x2CF1); (0x2D6F, 0x2D6F); (0x2D7F, 0x2D7F); (0x2DE0, 0x2DFF); (0x2E2F, 0x2E2F); (0x3005, 0x3005);
   (0x302A, 0x302D); (0x3031, 0x3035); (0x303B, 0x303B); (0x3099, 0x309E); (0x30FC, 0x30FE); (0xA015, 0xA015);
   (0xA4F8, 0xA4FD); (0xA60C, 0xA60C); (0xA66F, 0xA672); (0xA674, 0xA67D); (0xA67F, 0xA67F); (0xA69C, 0xA69F);
   (0xA6F0, 0xA6F1); (0xA700, 0xA721); (0xA770, 0xA770); (0xA788, 0xA78A); (0xA7F2, 0xA7F4); (0xA7F8, 0xA7F9);
   (0xA802, 0xA802); (0xA806, 0xA806); (0xA80B, 0xA80B); (0xA825, 0xA826); (0xA82C, 0xA82C); (0xA8C4, 0xA8C5);
   (0xA8E0, 0xA8F1); (0xA8FF, 0xA8FF); (0xA926, 0xA92D); (0xA947, 0xA951); (0xA980, 0xA982); (0xA9B3, 0xA9B3);
   (0xA9B6, 0xA9B9); (0xA9BC, 0xA9BD); (0xA9CF, 0xA9CF); (0xA9E5, 0xA9E6); (0xAA29, 0xAA2E); (0xAA31, 0xAA32);
   (0xAA35, 0xAA36); (0xAA43, 0xAA43); (0xAA4C, 0xAA4C); (0xAA70, 0xAA70); (0xAA7C, 0xAA7C); (0xAAB0, 0xAAB0);
   (0xAAB2, 0xAAB4); (0xAAB7, 0xAAB8); (0xAABE, 0xAABF); (0xAAC1, 0xAAC1); (0xAADD, 0xAADD); (0xAAEC, 0xAAED);
   (0xAAF3, 0xAAF4); (0xAAF6, 0xAAF6); (0xAB5B, 0xAB5F); (0xAB69, 0xAB6B); (0xABE5, 0xABE5); (0xABE8, 0xABE8);
   (0xABED, 0xABED); (0xFB1E, 0xFB1E); (0xFBB2, 0xFBC2); (0xFE00, 0xFE0F); (0xFE13, 0xFE13); (0xFE20, 0xFE2F);
   (0xFE52, 0xFE52); (0xFE55, 0xFE55); (0xFEFF, 0xFEFF); (0xFF07, 0xFF07); (0xFF0E, 0xFF0E); (0xFF1A, 0xFF1A);
   (0xFF3E, 0xFF3E); (0xFF40, 0xFF40); (0xFF70, 0xFF70); (0xFF9E, 0xFF9F); (0xFFE3, 0xFFE3); (0xFFF9, 0xFFFB);
   (0x101FD, 0x101FD); (0x102E0, 0x102E0); (0x10376, 0x1037A); (0x10780, 0x10785); (0x10787, 0x107B0); (0x107B2, 0x107BA);
   (0x10A01, 0x10A03); (0x10A05, 0x10A06); (0x10A0C, 0x10A0F); (0x10A38, 0x10A3A); (0x10A3F, 0x10A3F); (0x10AE5, 0x10AE6);
   (0x10D24, 0x10D27); (0x10EAB, 0x10EAC); (0x10F46, 0x10F50); (0x10F82, 0x10F85); (0x11001, 0x11001); (0x11038, 0x11046);
   (0x11070, 0x11070); (0x11073, 0x11074); (0x1107F, 0x11081); (0x110B3, 0x110B6); (0x110B9, 0x110BA); (0x110BD, 0x110BD);
   (0x110C2, 0x110C2); (0x110CD, 0x110CD); (0x11100, 0x11102); (0x11127, 0x1112B); (0x1112D, 0x11134); (0x11173, 0x11173);
   (0x11180, 0x11181); (0x111B6, 0x111BE); (0x111C9, 0x111CC); (0x111CF, 0x111CF); (0x1122F, 0x11231); (0x11234, 0x11234);
   (0x11236, 0x11237); (0x1123E, 0x1123E); (0x112DF, 0x112DF); (0x112E3, 0x112EA); (0x11300, 0x11301); (0x1133B, 0x1133C);
   (0x11340, 0x11340); (0x11366, 0x1136C); (0x11370, 0x11374); (0x11438, 0x1143F); (0x11442, 0x11444); (0x11446, 0x11446);
   (0x1145E, 0x1145E); (0x114B3, 0x114B8); (0x114BA, 0x114BA); (0x114BF, 0x114C0); (0x114C2, 0x114C3); (0x115B2, 0x115B5);
   (0x115BC, 0x115BD); (0x115BF, 0x115C0); (0x115DC, 0x115DD); (0x11633, 0x1163A); (0x1163D, 0x1163D); (0x1163F, 0x11640);
   (0x116AB, 0x116AB); (0x116AD, 0x116AD); (0x116B0, 0x116B5); (0x116B7, 0x116B7); (0x1171D, 0x1171F); (0x11722, 0x11725);
   (0x11727, 0x1172B); (0x1182F, 0x11837); (0x11839, 0x1183A); (0x1193B, 0x1193C); (0x1193E, 0x1193E); (0x11943, 0x11943);
   (0x119D4, 0x119D7); (0x119DA, 0x119DB); (0x119E0, 0x119E0); (0x11A01, 0x11A0A); (0x11A33, 0x11A38); (0x11A3B, 0x11A3E);
   (0x11A47, 0x11A47); (0x11A51, 0x11A56); (0x11A59, 0x11A5B); (0x11A8A, 0x11A96); (0x11A98, 0x11A99); (0x11C30, 0x11C36);
   (0x11C38, 0x11C3D); (0x11C3F, 0x11C3F); (0x11C92, 0x11CA7); (0x11CAA, 0x11CB0); (0x11CB2, 0x11CB3); (0x11CB5, 0x11CB6);
   (0x11D31, 0x11D36); (0x11D3A, 0x11D3A); (0x11D3C, 0x11D3D); (0x11D3F, 0x11D45); (0x11D47, 0x11D47); (0x11D90, 0x11D91);
   (0x11D95, 0x11D95); (0x11D97, 0x11D97); (0x11EF3, 0x11EF4); (0x13430, 0x13438); (0x16AF0, 0x16AF4); (0x16B30, 0x16B36);
   (0x16B40, 0x16B43); (0x16F4F, 0x16F4F); (0x16F8F, 0x16F9F); (0x16FE0, 0x16FE1); (0x16FE3, 0x16FE4); (0x1AFF0, 0x1AFF3);
   (0x1AFF5, 0x1AFFB); (0x1AFFD, 0x1AFFE); (0x1BC9D, 0x1BC9E); (0x1BCA0, 0x1BCA3); (0x1CF00, 0x1CF2D); (0x1CF30, 0x1CF46);
   (0x1D167, 0x1D169); (0x1D173, 0x1D182); (0x1D185, 0x1D18B); (0x1D1AA, 0x1D1AD); (0x1D242, 0x1D244); (0x1DA00, 0x1DA36);
   (0x1DA3B, 0x1DA6C); (0x1DA75, 0x1DA75); (0x1DA84, 0x1DA84); (0x1DA9B, 0x1DA9F); (0x1DAA1, 0x1DAAF); (0x1E000, 0x1E006);
   (0x1E008, 0x1E018); (0x1E01B, 0x1E021); (0x1E023, 0x1E024); (0x1E026, 0x1E02A); (0x1E130, 0x1E13D); (0x1E2AE, 0x1E2AE);
   (0x1E2EC, 0x1E2EF); (0x1E8D0, 0x1E8D6); (0x1E944, 0x1E94B); (0x1F3FB, 0x1F3FF); (0xE0001, 0xE0001); (0xE0020, 0xE007F);
   (0xE0100, 0xE01EF)
  ]%N.

Definition cased (c : N) : bool := within cased_table c.

Definition case_ignorable (c : N) : bool := within case_ignorable_table c.

(** The first character of [l] that is not case-ignorable exists and is
    cased. *)
Fixpoint cased_next (l : list N) : bool :=
  match l with
  | [] => false
  | c :: rest => if case_ignorable c then cased_next rest else cased c
  end.

(** GREEK CAPITAL LETTER SIGMA becomes the final sigma U+03C2 when a cased
    letter precedes it and none follows (case-ignorable characters skipped),
    and U+03C3 otherwise.  [before] holds the preceding characters, nearest
    first. *)
Definition lower_sigma (before following : list N) : N :=
  if cased_next before && negb (cased_next following) then 0x3C2%N else 0x3C3%N.

Fixpoint lower_points (before l : list N) : list N :=
  match l with
  | [] => []
  | c :: rest =>
      ((if (c =? 0x3A3)%N then [lower_sigma before rest] else lower_full c)
         ++ lower_points (c :: before) rest)%list
  end.

Definition lower (s : string) : string := encode (lower_points [] (decode s)).

(** *** [int] *)

(** The decimal digits (category Nd): the code points of the digit zero of
    each script; the nine that follow each are its digits one to nine. *)
Definition zeros : list N :=
  [
   0x30; 0x660; 0x6F0; 0x7C0; 0x966; 0x9E6; 0xA66; 0xAE6;
   0xB66; 0xBE6; 0xC66; 0xCE6; 0xD66; 0xDE6; 0xE50; 0xED0;
   0xF20; 0x1040; 0x1090; 0x17E0; 0x1810; 0x1946; 0x19D0; 0x1A80;
   0x1A90; 0x1B50; 0x1BB0; 0x1C40; 0x1C50; 0xA620; 0xA8D0; 0xA900;
   0xA9D0; 0xA9F0; 0xAA50; 0xABF0; 0xFF10; 0x104A0; 0x10D30; 0x11066;
   0x110F0; 0x11136; 0x111D0; 0x112F0; 0x11450; 0x114D0; 0x11650; 0x116C0;
   0x11730; 0x118E0; 0x11950; 0x11C50; 0x11D50; 0x11DA0; 0x16A60; 0x16AC0;
   0x16B50; 0x1D7CE; 0x1D7D8; 0x1D7E2; 0x1D7EC; 0x1D7F6; 0x1E140; 0x1E2F0;
   0x1E950; 0x1FBF0
  ]%N.

Definition decimal (c : N) : option N :=
  option_map (fun z => (c - z)%N) (find (fun z => between z (z + 9) c) zeros).

(** What [int] first makes of the text: a character below 127 is kept, a
    blank becomes a space, a decimal digit of any script the ASCII digit of
    its value; the text is cut after the first character that is none of
    these, which becomes a question mark. *)
Fixpoint to_ascii (l : list N) : list N :=
  match l with
  | [] => []
  | c :: rest =>
      if (c <? 127)%N then c :: to_ascii rest
      else if isspace c then 32%N :: to_ascii rest
      else
        match decimal c with
        | Some d => (48 + d)%N :: to_ascii rest
        | None => [63%N]
        end
  end.

(** The blanks of the C locale, skipped around a number: TAB LF VT FF CR
    and the space. *)
Definition c_isspace (c : N) : bool := between 9 13 c || (c =? 32)%N.

Fixpoint skip_blanks (l : list N) : list N :=
  match l with
  | [] => []
  | c :: rest => if c_isspace c then skip_blanks rest else l
  end.

Definition digit (c : N) : option Z :=
  if between 48 57 c then Some (Z.of_N (c - 48)) else None.

(** The digits that follow a first digit: a digit, or one underscore and a
    digit.  Returns the value, the number of digits read and what is left
    of the text. *)
Fixpoint digits (acc : Z) (count : N) (l : list N) : option (Z * N * list N) :=
  match l with
  | [] => Some (acc, count, [])
  | c :: rest =>
      match digit c with
      | Some d => digits (10 * acc + d) (count + 1) rest
      | None =>
          if (c =? 95)%N then
            match rest with
            | [] => None
            | b :: rest' =>
                match digit b with
                | Some d => digits (10 * acc + d) (count + 1) rest'
                | None => None
                end
            end
          else Some (acc, count, l)
      end
  end.

(** [sys.get_int_max_str_digits()]: a longer numeral is refused. *)
Definition max_str_digits : N := 4300.

(** A numeral and the blanks after it, up to the end of the text. *)
Definition unsigned (l : list N) : option Z :=
  match l with
  | [] => None
  | c :: rest =>
      match digit c with
      | None => None
      | Some d =>
          match digits d 1 rest with
          | Some (n, count, remaining) =>
              if (count <=? max_str_digits)%N then
                match skip_blanks remaining with
                | [] => Some n
                | _ :: _ => None
                end
              else None
          | None => None
          end
      end
  end.

(** [int(s)] in base ten: blanks, an optional sign, a numeral, blanks.
    [None] stands for [ValueError]. *)
Definition int (s : string) : option Z :=
  match skip_blanks (to_ascii (decode s)) with
  | [] => None
  | c :: rest =>
      if (c =? 43)%N then unsigned rest
      else if (c =? 45)%N then option_map Z.opp (unsigned rest)
      else unsigned (c :: rest)
  end.

(** [str(n)], the way an f-string renders an [int]. *)
Definition str (n : Z) : string := NilZero.string_of_int (Z.to_int n).

End PyStr.

(* ================================================================== *)
(** ** Values exchanged with Telegram and the file system *)

Definition bytes := list Byte.byte.

(** [telebot.types.Message], the three attributes the handlers read:
    [message.chat.id], [message.id] (the same as [message.message_id]) and
    [message.text]. *)
Record Message := {
  chat_id : Z;
  message_id : Z;
  text : string
}.

(** [types.ReplyKeyboardMarkup]: the rows of button captions. *)
Record ReplyKeyboardMarkup := {
  resize_keyboard : bool;
  row_width : nat;
  keyboard : list (list string)
}.

Fixpoint chunks {A} (fuel : nat) (n : nat) (l : list A) : list (list A) :=
  match fuel, l with
  | O, _ | _, [] => []
  | S fuel', _ => firstn n l :: chunks fuel' n (skipn n l)
  end.

(** [markup.add( *buttons )]: the buttons are laid out in rows of
    [row_width]. *)
Definition add (markup : ReplyKeyboardMarkup) (buttons : list string)
  : ReplyKeyboardMarkup :=
  {| resize_keyboard := resize_keyboard markup;
     row_width := row_width markup;
     keyboard := keyboard markup
                 ++ chunks (length buttons) (row_width markup) buttons |}.

Inductive exn :=
| RequestException
| ApiTelegramException
| FileNotFoundError
| ValueError.

Inductive handler := HandleCustomQuantity.

(** The Bot API methods the program calls. *)
Inductive api :=
| send_message_
| edit_message_text_
| send_media_group_
| send_photo_
| delete_message_.

Definition api_eqb (a b : api) : bool :=
  match a, b with
  | send_message_, send_message_
  | edit_message_text_, edit_message_text_
  | send_media_group_, send_media_group_
  | send_photo_, send_photo_
  | delete_message_, delete_message_ => true
  | _, _ => false
  end.

(** One entry of the log per external call, written when the call is issued
    (also when it then raises). *)
Inductive event :=
| HttpGet (url : string)
| FileWrite (name : string) (data : bytes)
| FileRead (name : string)
| FileRemove (name : string)
| SendMessage (chat : Z) (txt : string) (parse_mode : option string)
    (reply_markup : option ReplyKeyboardMarkup)
| EditMessageText (chat mid : Z) (txt : string)
| SendMediaGroup (chat : Z) (media : list bytes)
| SendPhoto (chat : Z) (photo : bytes)
| DeleteMessage (chat mid : Z)
| RegisterNextStepHandler (chat mid : Z) (h : handler)
| Stdout (txt : string) (e : exn).

(* ================================================================== *)
(** ** The outside world *)

(** What the environment answers.  Each oracle is indexed by the ordinal of
    the call among the calls of its kind since the process started. *)
Record env := {
  uuid4 : nat -> string;            (* the value of the n-th [uuid.uuid4()] *)
  response : nat -> option bytes;   (* the n-th [requests.get]: its content,
                                       or [None] when the call raises *)
  value_error : nat -> bool;        (* when the n-th [requests.get] raises:
                                       whether the exception is one of those
                                       of [requests] that are also a
                                       [ValueError] (InvalidURL, InvalidSchema,
                                       MissingSchema, InvalidHeader,
                                       InvalidProxyURL) *)
  raises : api -> nat -> bool;      (* whether the n-th call of a Bot API
                                       method raises *)
  assigned_id : nat -> Z            (* the identifier of the message created
                                       by the n-th [send_message] *)
}.

(** The state of the process: the files in the working directory and the
    number of calls of each kind made so far. *)
Record world := {
  files : list (string * bytes);
  uuids : nat;
  gets : nat;
  calls : api -> nat
}.

Definition set_files (fs : list (string * bytes)) (w : world) : world :=
  {| files := fs; uuids := uuids w; gets := gets w; calls := calls w |}.

Definition tick_uuid (w : world) : world :=
  {| files := files w; uuids := S (uuids w); gets := gets w; calls := calls w |}.

Definition tick_get (w : world) : world :=
  {| files := files w; uuids := uuids w; gets := S (gets w); calls := calls w |}.

Definition tick (a : api) (w : world) : world :=
  {| files := files w; uuids := uuids w; gets := gets w;
     calls := fun b => if api_eqb a b then S (calls w b) else calls w b |}.

(* ================================================================== *)
(** ** The monad: state, exceptions and a log of calls *)

Inductive res (A : Type) :=
| Ok (a : A)
| Raise (e : exn).
Arguments Ok {A} a.
Arguments Raise {A} e.

Record out (A : Type) := Out {
  log : list event;
  after : world;
  value : res A
}.
Arguments Out {A} log after value.
Arguments log {A} o.
Arguments after {A} o.
Arguments value {A} o.

Definition M (A : Type) := env -> world -> out A.

Definition ret {A} (a : A) : M A := fun _ w => Out [] w (Ok a).

Definition raise {A} (e : exn) : M A := fun _ w => Out [] w (Raise e).

(** [prepend t o]: the calls [t] were issued before those of [o]. *)
Definition prepend {A} (t : list event) (o : out A) : out A :=
  Out (t ++ log o) (after o) (value o).

Definition bind {A B} (m : M A) (k : A -> M B) : M B :=
  fun e w =>
    let o := m e w in
    match value o with
    | Ok a => prepend (log o) (k a e (after o))
    | Raise x => Out (log o) (after o) (Raise x)
    end.

(** [try: m  except <catches>: h].  Whether the clause catches the
    exception is a matter of the classes of the object raised, which the
    clause finds out where the exception reaches it. *)
Definition try_except {A} (m : M A) (catches : env -> world -> exn -> bool)
    (h : exn -> M A) : M A :=
  fun e w =>
    let o := m e w in
    match value o with
    | Ok a => o
    | Raise x =>
        if catches e (after o) x then prepend (log o) (h x e (after o)) else o
    end.

Declare Scope py_scope.
Delimit Scope py_scope with py.
Notation "x <- m ;; k" := (bind m (fun x => k))
  (at level 61, m at next level, right associativity) : py_scope.
Notation "' pat <- m ;; k" := (bind m (fun x => match x with pat => k end))
  (at level 61, pat pattern, m at next level, right associativity) : py_scope.
Notation "m ;; k" := (bind m (fun _ => k))
  (at level 61, right associativity) : py_scope.
Local Open Scope py_scope.

(** [for x in l: s = body x s] *)
Fixpoint for_ {A S} (l : list A) (body : A -> S -> M S) (s : S) : M S :=
  match l with
  | [] => ret s
  | x :: l' => s' <- body x s ;; for_ l' body s'
  end.

(** [range(lo, hi)] *)
Definition range (lo hi : Z) : list Z :=
  map (fun k => lo + Z.of_nat k) (seq 0 (Z.to_nat (hi - lo))).

(** [except Exception] and the bare [except]. *)
Definition except_all (_ : env) (_ : world) (_ : exn) : bool := true.

(** [except ValueError].  [RequestException] stands for every exception of
    [requests]; some of them derive from [ValueError] as well.  Such an
    exception on its way up was raised by the latest [requests.get], the one
    of ordinal [gets w - 1], and [value_error] tells its class. *)
Definition except_ValueError (e : env) (w : world) (x : exn) : bool :=
  match x with
  | ValueError => true
  | RequestException =>
      match gets w with
      | O => false
      | S n => value_error e n
      end
  | ApiTelegramException | FileNotFoundError => false
  end.

(* ================================================================== *)
(** ** External calls *)

Definition uuid_uuid4 : M string :=
  fun e w => Out [] (tick_uuid w) (Ok (uuid4 e (uuids w))).

(** [requests.get(url).content] *)
Definition requests_get (url : string) : M bytes :=
  fun e w =>
    Out [HttpGet url] (tick_get w)
      (match response e (gets w) with
       | Some content => Ok content
       | None => Raise RequestException
       end).

Definition unlink (name : string) (fs : list (string * bytes))
  : list (string * bytes) :=
  filter (fun p => negb (String.eqb (fst p) name)) fs.

Definition lookup (name : string) (fs : list (string * bytes)) : option bytes :=
  option_map snd (find (fun p => String.eqb (fst p) name) fs).

(** [with open(name, "wb") as f: f.write(data)] *)
Definition write_file (name : string) (data : bytes) : M unit :=
  fun _ w =>
    Out [FileWrite name data] (set_files ((name, data) :: unlink name (files w)) w)
      (Ok tt).

(** [with open(name, 'rb') as f: f.read()] *)
Definition read_file (name : string) : M bytes :=
  fun _ w =>
    Out [FileRead name] w
      (match lookup name (files w) with
       | Some data => Ok data
       | None => Raise FileNotFoundError
       end).

(** [os.remove(name)] *)
Definition os_remove (name : string) : M unit :=
  fun _ w =>
    match lookup name (files w) with
    | Some _ => Out [FileRemove name] (set_files (unlink name (files w)) w) (Ok tt)
    | None => Out [FileRemove name] w (Raise FileNotFoundError)
    end.

(** A call of Bot API method [a], logged as [ev]; returns its ordinal. *)
Definition bot_call (a : api) (ev : event) : M nat :=
  fun e w =>
    Out [ev] (tick a w)
      (if raises e a (calls w a) then Raise ApiTelegramException
       else Ok (calls w a)).

(** [bot.send_message(chat, text, parse_mode=..., reply_markup=...)]: the
    message Telegram created. *)
Definition send_message (chat : Z) (txt : string) (parse_mode : option string)
    (reply_markup : option ReplyKeyboardMarkup) : M Message :=
  fun e w =>
    (n <- bot_call send_message_ (SendMessage chat txt parse_mode reply_markup) ;;
     ret {| chat_id := chat; message_id := assigned_id e n; text := txt |}) e w.

Definition edit_message_text (chat mid : Z) (txt : string) : M unit :=
  bot_call edit_message_text_ (EditMessageText chat mid txt) ;; ret tt.

Definition send_media_group (chat : Z) (media : list bytes) : M unit :=
  bot_call send_media_group_ (SendMediaGroup chat media) ;; ret tt.

Definition send_photo (chat : Z) (photo : bytes) : M unit :=
  bot_call send_photo_ (SendPhoto chat photo) ;; ret tt.

Definition delete_message (chat mid : Z) : M unit :=
  bot_call delete_message_ (DeleteMessage chat mid) ;; ret tt.

Definition register_next_step_handler (prompt : Message) (h : handler) : M unit :=
  fun _ w =>
    Out [RegisterNextStepHandler (chat_id prompt) (message_id prompt) h] w (Ok tt).

Definition print (txt : string) (e : exn) : M unit :=
  fun _ w => Out [Stdout txt e] w (Ok tt).

(* ================================================================== *)
(** ** The program *)

Definition IMAGE_URL : string := "https://thispersondoesnotexist.com/".
Definition MAX_IMAGES : Z := 100.
Definition GROUP_SIZE : Z := 9.

Definition create_main_markup : ReplyKeyboardMarkup :=
  add {| resize_keyboard := true; row_width := 3; keyboard := [] |}
    ["Получить изображение"; "Получить 9 изображений"; "Своё количество"].

Definition create_quantity_markup : ReplyKeyboardMarkup :=
  add {| resize_keyboard := true; row_width := 3; keyboard := [] |}
    ["Назад"; "30"; "60"; "90"].

Definition download_image : M string :=
  u <- uuid_uuid4 ;;
  let filename := u ++ ".jpg" in
  content <- requests_get IMAGE_URL ;;
  write_file filename content ;;
  ret filename.

Definition handle_start (message : Message) : M unit :=
  send_message (chat_id message)
    "Привет! Нажми на кнопку и получи сгенерированное лицо"
    (Some "html") (Some create_main_markup) ;;
  ret tt.

Definition done_text : string := "Готово! Выберите следующую команду".

Definition send_single_image (message : Message) : M unit :=
  filename <- download_image ;;
  img <- read_file filename ;;
  send_photo (chat_id message) img ;;
  os_remove filename ;;
  try_except (delete_message (chat_id message) (message_id message))
    except_all (fun _ => ret tt) ;;
  send_message (chat_id message) done_text (Some "html") (Some create_main_markup) ;;
  ret tt.

(** The state of the loop of [send_multiple_images]: [images], [filenames]. *)
Definition multiple_body (message progress_msg : Message) (count i : Z)
    (st : list bytes * list string) : M (list bytes * list string) :=
  let '(images, filenames) := st in
  filename <- download_image ;;
  let filenames := (filenames ++ [filename])%list in
  data <- read_file filename ;;
  let images := (images ++ [data])%list in
  edit_message_text (chat_id message) (message_id progress_msg)
    ("Генерация " ++ PyStr.str i ++ "/" ++ PyStr.str count
       ++ ". Пожалуйста, не отправляйте сообщения.") ;;
  if (Z.of_nat (length images) =? GROUP_SIZE) || (i =? count) then
    send_media_group (chat_id message) images ;;
    ret ([], filenames)
  else ret (images, filenames).

Definition send_multiple_images (message : Message) (count : Z) : M unit :=
  progress_msg <- send_message (chat_id message)
    ("Генерация 0/" ++ PyStr.str count
       ++ ". Пожалуйста, не отправляйте сообщения, пока процесс не завершится.")
    (Some "html") None ;;
  ' (_, filenames) <- for_ (range 1 (count + 1))
                        (multiple_body message progress_msg count) ([], []) ;;
  try_except (delete_message (chat_id message) (message_id progress_msg))
    except_all (fun _ => ret tt) ;;
  for_ filenames (fun file _ => os_remove file) tt ;;
  send_message (chat_id message) done_text (Some "html") (Some create_main_markup) ;;
  ret tt.

Definition ask_for_custom_quantity (message : Message) : M unit :=
  prompt <- send_message (chat_id message)
    "Напишите, сколько лиц сгенерировать. Максимум 100"
    (Some "html") (Some create_quantity_markup) ;;
  register_next_step_handler prompt HandleCustomQuantity.

(** The state of the loop of [generate_custom_images]: [images],
    [filenames], [sent]. *)
Definition custom_body (message progress_msg : Message) (total_count i : Z)
    (st : list bytes * list string * Z) : M (list bytes * list string * Z) :=
  let '(images, filenames, sent) := st in
  filename <- download_image ;;
  let filenames := (filenames ++ [filename])%list in
  data <- read_file filename ;;
  let images := (images ++ [data])%list in
  let sent := sent + 1 in
  edit_message_text (chat_id message) (message_id progress_msg)
    ("Генерация " ++ PyStr.str sent ++ "/" ++ PyStr.str total_count
       ++ ". Пожалуйста, не отправляйте сообщения.") ;;
  if (Z.of_nat (length images) =? GROUP_SIZE) || (i =? total_count) then
    send_media_group (chat_id message) images ;;
    ret ([], filenames, sent)
  else ret (images, filenames, sent).

Definition generate_custom_images (message : Message) (total_count : Z) : M unit :=
  progress_msg <- send_message (chat_id message)
    ("Генерация 0/" ++ PyStr.str total_count
       ++ ". Пожалуйста, не отправляйте сообщения.")
    (Some "html") None ;;
  ' (_, filenames, _) <- for_ (range 1 (total_count + 1))
                           (custom_body message progress_msg total_count)
                           ([], [], 0) ;;
  try_except (delete_message (chat_id message) (message_id progress_msg))
    except_all (fun _ => ret tt) ;;
  for_ filenames (fun file _ => os_remove file) tt ;;
  send_message (chat_id message) done_text (Some "html") (Some create_main_markup) ;;
  ret tt.

Definition retry_prompt (message : Message) : M unit :=
  retry_msg <- send_message (chat_id message) "Введите число от 1 до 100"
    (Some "html") (Some create_quantity_markup) ;;
  register_next_step_handler retry_msg HandleCustomQuantity.

Definition handle_custom_quantity (message : Message) : M unit :=
  if String.eqb (PyStr.lower (text message)) "назад" then
    send_message (chat_id message) "Вы вернулись на главную страницу"
      None (Some create_main_markup) ;;
    ret tt
  else
    try_except
      (match PyStr.int (text message) with
       | Some quantity =>
           if (1 <=? quantity) && (quantity <=? MAX_IMAGES) then
             generate_custom_images message quantity
           else raise ValueError
       | None => raise ValueError
       end)
      except_ValueError
      (fun _ => retry_prompt message).

(** The [if]/[elif] chain of [handle_text], on the normalised text. *)
Definition dispatch (message : Message) (txt : string) : M unit :=
  if String.eqb txt "получить изображение" then send_single_image message
  else if String.eqb txt "получить 9 изображений" then
    send_multiple_images message 9
  else if String.eqb txt "своё количество" then ask_for_custom_quantity message
  else
    send_message (chat_id message) "Главная страница" (Some "html")
      (Some create_main_markup) ;;
    ret tt.

Definition handle_text (message : Message) : M unit :=
  let txt := PyStr.lower (PyStr.strip (text message)) in
  try_except (delete_message (chat_id message) (message_id message - 1))
    except_all
    (fun e => print "Ошибка при удалении сообщения: " e) ;;
  dispatch message txt.

(* ================================================================== *)
(** ** Reading a log *)

Definition is_fetch (ev : event) : bool :=
  match ev with HttpGet _ => true | _ => false end.

(** The number of fetch calls issued. *)
Definition fetch_calls (t : list event) : nat := length (filter is_fetch t).

(** The grouped sends, in order. *)
Definition batches (t : list event) : list (list bytes) :=
  flat_map (fun ev => match ev with SendMediaGroup _ media => [media] | _ => [] end) t.

(** The in-place edits: chat, message handle and new text, in order. *)
Definition edits (t : list event) : list (Z * Z * string) :=
  flat_map (fun ev => match ev with
                      | EditMessageText chat mid txt => [(chat, mid, txt)]
                      | _ => []
                      end) t.

(** The texts of the new messages sent, in order. *)
Definition notifications (t : list event) : list string :=
  flat_map (fun ev => match ev with SendMessage _ txt _ _ => [txt] | _ => [] end) t.

(** The names of the files created, and of the files [os.remove] was called
    on, in order. *)
Definition written (t : list event) : list string :=
  flat_map (fun ev => match ev with FileWrite name _ => [name] | _ => [] end) t.

Definition removed (t : list event) : list string :=
  flat_map (fun ev => match ev with FileRemove name => [name] | _ => [] end) t.

(** The single photos sent, in order. *)
Definition photos (t : list event) : list bytes :=
  flat_map (fun ev => match ev with SendPhoto _ photo => [photo] | _ => [] end) t.

Definition exists_file (name : string) (w : world) : bool :=
  match lookup name (files w) with Some _ => true | None => false end.

(** The text of the progress notification showing [i] of [n]. *)
Definition progress_text (i n : Z) : string :=
  "Генерация " ++ PyStr.str i ++ "/" ++ PyStr.str n
    ++ ". Пожалуйста, не отправляйте сообщения.".

(* ================================================================== *)
(** ** Environments *)

(** No Bot API call raises. *)
Definition api_ok (e : env) : Prop := forall a n, raises e a n = false.

(** The [k] fetches that follow the first [g] return a payload. *)
Definition fetches_ok (e : env) (g k : nat) : Prop :=
  forall j, (j < k)%nat -> response e (g + j) <> None.

(** The payload of the [n]-th fetch, empty when the call raises. *)
Definition payload (e : env) (n : nat) : bytes :=
  match response e n with Some b => b | None => [] end.

(** The name of the file of the [n]-th download. *)
Definition file_of (e : env) (n : nat) : string := uuid4 e n ++ ".jpg".

Definition byte_of (n : nat) : Byte.byte :=
  match Byte.of_N (N.of_nat n mod 256) with Some b => b | None => Byte.x00 end.

(** An environment in which every call succeeds: the n-th payload is the
    byte [n], the n-th uuid the numeral [n], and message identifiers count
    from 500. *)
Definition calm : env :=
  {| uuid4 := fun n => PyStr.str (Z.of_nat n);
     response := fun n => Some [byte_of n];
     value_error := fun _ => false;
     raises := fun _ _ => false;
     assigned_id := fun n => 500 + Z.of_nat n |}.

(** As [calm], but the fetch of ordinal [k] (counting from 0) raises. *)
Definition fetch_fails_at (k : nat) : env :=
  {| uuid4 := uuid4 calm;
     response := fun n => if Nat.eqb n k then None else response calm n;
     value_error := value_error calm;
     raises := raises calm;
     assigned_id := assigned_id calm |}.


(** As [calm], but the call of ordinal [k] of Bot API method [a] raises. *)
Definition api_fails_at (a : api) (k : nat) : env :=
  {| uuid4 := uuid4 calm;
     response := response calm;
     value_error := value_error calm;
     raises := fun b n => api_eqb a b && Nat.eqb n k;
     assigned_id := assigned_id calm |}.

(** As [calm], but the upstream answers every fetch with an empty body. *)
Definition empty_body : env :=
  {| uuid4 := uuid4 calm;
     response := fun _ => Some [];
     value_error := value_error calm;
     raises := raises calm;
     assigned_id := assigned_id calm |}.

(** A fresh process in an empty directory. *)
Definition start : world :=
  {| files := []; uuids := 0; gets := 0; calls := fun _ => O |}.

Definition msg (txt : string) : Message :=
  {| chat_id := 7; message_id := 42; text := txt |}.

(** Three blanks of [str.strip] in a text: NO-BREAK SPACE, IDEOGRAPHIC SPACE
    and the control character FS (which [int] does not take for a blank). *)
Definition no_break_space : string := PyStr.encode [0xA0%N].

Definition ideographic_space : string := PyStr.encode [0x3000%N].

Definition file_separator : string := PyStr.encode [0x1C%N].

(* ================================================================== *)
(** ** Auxiliary definitions for the proofs *)

(** The world right after a download whose fetch returned [b]. *)
Definition downloaded (e : env) (w : world) (b : bytes) : world :=
  set_files ((file_of e (uuids w), b) :: unlink (file_of e (uuids w)) (files w))
    (tick_get (tick_uuid w)).

(** The test that ends an iteration: the group is full or the image is the
    last one. *)
Definition flushes (images : list bytes) (i n : Z) : bool :=
  (Z.of_nat (length images) =? GROUP_SIZE) || (i =? n).

(** The calls of one iteration up to and including the progress edit. *)
Definition iteration_log (e : env) (w : world) (chat mid : Z) (b : bytes)
    (txt : string) : list event :=
  [HttpGet IMAGE_URL; FileWrite (file_of e (uuids w)) b;
   FileRead (file_of e (uuids w)); EditMessageText chat mid txt].

(** The edits of the ordinals [c .. c+k-1] do not raise. *)
Definition edits_ok (e : env) (c k : nat) : Prop :=
  forall j, (j < k)%nat -> raises e edit_message_text_ (c + j) = false.

(** No grouped send raises. *)
Definition groups_ok (e : env) : Prop :=
  forall j, raises e send_media_group_ j = false.

(** What holds after the first [k] iterations of the loop of
    [generate_custom_images], started in [w] and run without a failure:
    [t] is the log of these iterations, [w'] the world they leave and
    [images] the group being accumulated. *)
Record loop_inv (e : env) (w : world) (m pm : Message) (n : Z) (k : nat)
    (t : list event) (w' : world) (images : list bytes) : Prop := {
  inv_gets : gets w' = (gets w + k)%nat;
  inv_uuids : uuids w' = (uuids w + k)%nat;
  inv_edit_calls :
    calls w' edit_message_text_ = (calls w edit_message_text_ + k)%nat;
  inv_pending : (length images < 9)%nat;
  inv_content : (concat (batches t) ++ images)%list
                = map (payload e) (seq (gets w) k);
  inv_full : Forall (fun b => length b = 9%nat) (batches t);
  inv_edits :
    edits t = map (fun j => (chat_id m, message_id pm,
                             progress_text (Z.of_nat j) n)) (seq 1 k);
  inv_fetches : fetch_calls t = k;
  inv_written : written t = map (file_of e) (seq (uuids w) k);
  inv_removed : removed t = [];
  inv_notifications : notifications t = [];
  inv_photos : photos t = [];
  inv_files : forall f, In f (written t) -> exists_file f w' = true
}.

(** The end of a run: the progress message is deleted, the files are
    removed, the completion notice is sent. *)
Definition finish (message progress_msg : Message) (filenames : list string)
  : M unit :=
  try_except (delete_message (chat_id message) (message_id progress_msg))
    except_all (fun _ => ret tt) ;;
  for_ filenames (fun file _ => os_remove file) tt ;;
  send_message (chat_id message) done_text (Some "html") (Some create_main_markup) ;;
  ret tt.

(** The text of the first progress notification of each of the two runs. *)
Definition custom_first_text (n : Z) : string :=
  "Генерация 0/" ++ PyStr.str n ++ ". Пожалуйста, не отправляйте сообщения.".

Definition multiple_first_text (n : Z) : string :=
  "Генерация 0/" ++ PyStr.str n
    ++ ". Пожалуйста, не отправляйте сообщения, пока процесс не завершится.".

(** An output of the loop of [generate_custom_images] without its counter
    [sent]. *)
Definition forget_sent (o : out (list bytes * list string * Z))
  : out (list bytes * list string) :=
  Out (log o) (after o)
    (match value o with
     | Ok (images, filenames, _) => Ok (images, filenames)
     | Raise x => Raise x
     end).

(** A computation that never raises [ValueError]. *)
Definition no_ValueError {A} (c : M A) : Prop :=
  forall e w, value (c e w) <> Raise ValueError.


(** What holds after the whole loop of a run of [n] images without a
    failure: the grouped sends are the full groups [full] followed by the
    group [final], sent at the last image. *)
Record loop_done (e : env) (w : world) (m pm : Message) (n : Z)
    (t : list event) (w' : world) (full : list (list bytes)) (final : list bytes)
  : Prop := {
  done_batches : batches t = (full ++ [final])%list;
  done_full : Forall (fun b => length b = 9%nat) full;
  done_final : (1 <= length final <= 9)%nat;
  done_content : (concat full ++ final)%list
                 = map (payload e) (seq (gets w) (Z.to_nat n));
  done_edits :
    edits t = map (fun j => (chat_id m, message_id pm,
                             progress_text (Z.of_nat j) n)) (seq 1 (Z.to_nat n));
  done_fetches : fetch_calls t = Z.to_nat n;
  done_written : written t = map (file_of e) (seq (uuids w) (Z.to_nat n));
  done_removed : removed t = [];
  done_notifications : notifications t = [];
  done_photos : photos t = [];
  done_files : forall f, In f (written t) -> exists_file f w' = true
}.

(** A log without fetch, grouped send, photo, edit or file creation. *)
Definition quiet (t : list event) : Prop :=
  fetch_calls t = O /\ batches t = [] /\ edits t = [] /\ photos t = []
  /\ written t = [].

(** One iteration of either loop, case by case: [txt] is the progress text,
    [images] the group so far, [last] tells whether the image is the last
    one, and [mk] builds the state of the loop from the new group. *)
Definition iteration_out {S} (e : env) (w : world) (chat mid : Z) (txt : string)
    (images : list bytes) (last : bool) (mk : list bytes -> S) : out S :=
  match response e (gets w) with
  | None => Out [HttpGet IMAGE_URL] (tick_get (tick_uuid w)) (Raise RequestException)
  | Some b =>
      let w1 := tick edit_message_text_ (downloaded e w b) in
      let t := iteration_log e w chat mid b txt in
      if raises e edit_message_text_ (calls w edit_message_text_) then
        Out t w1 (Raise ApiTelegramException)
      else if (Z.of_nat (length (images ++ [b])) =? GROUP_SIZE) || last then
        Out (t ++ [SendMediaGroup chat (images ++ [b])]) (tick send_media_group_ w1)
          (if raises e send_media_group_ (calls w send_media_group_)
           then Raise ApiTelegramException else Ok (mk []))
      else Out t w1 (Ok (mk (images ++ [b])%list))
  end.

(** The message [send_message] returns when the call is the one of ordinal
    [calls w send_message_]. *)
Definition created (e : env) (w : world) (chat : Z) (txt : string) : Message :=
  {| chat_id := chat; message_id := assigned_id e (calls w send_message_);
     text := txt |}.

(** A run spelled out: the first notification, the loop, the end. *)
Definition run_out {S} (e : env) (w : world) (m : Message) (first : string)
    (loop : Message -> M S) (names : S -> list string) : out unit :=
  let ev := SendMessage (chat_id m) first (Some "html") None in
  let pm := created e w (chat_id m) first in
  if raises e send_message_ (calls w send_message_) then
    Out [ev] (tick send_message_ w) (Raise ApiTelegramException)
  else
    let o := loop pm e (tick send_message_ w) in
    match value o with
    | Ok s => prepend (ev :: log o) (finish m pm (names s) e (after o))
    | Raise x => Out (ev :: log o) (after o) (Raise x)
    end.

(* ================================================================== *)
(** ** The claims of the specification that the code does not meet *)

(** Every file written during the run is gone when the run ends. *)
Definition all_released (o : out unit) : Prop :=
  forall f, In f (written (log o)) -> exists_file f (after o) = false.

(** The calls issued after the last fetch. *)
Fixpoint after_last_fetch (t : list event) : list event :=
  match t with
  | [] => []
  | ev :: t' =>
      if existsb is_fetch t' then after_last_fetch t'
      else if is_fetch ev then t' else ev :: t'
  end.

(** A failing fetch at image [k], as the specification describes it: no
    fetch after the [k]-th, the files released, a notification sent after
    the failure, no group of fewer than nine images sent. *)
Definition fetch_failure_contained (o : out unit) (k : nat) : Prop :=
  fetch_calls (log o) = k
  /\ all_released o
  /\ notifications (after_last_fetch (log o)) <> []
  /\ Forall (fun b => length b = 9%nat) (batches (log o)).

(** A failing edit, as the specification describes it: the loop goes on, so
    all [n] images are fetched and delivered. *)
Definition edit_failure_swallowed (o : out unit) (n : Z) : Prop :=
  fetch_calls (log o) = Z.to_nat n
  /\ length (concat (batches (log o))) = Z.to_nat n.

(** The fetch, as the specification describes it: it fails exactly when the
    network call fails or the body is empty. *)
Definition fetch_error_iff (e : env) (w : world) : Prop :=
  (exists x, value (download_image e w) = Raise x)
  <-> (response e (gets w) = None \/ response e (gets w) = Some []).

(** The "one image" intent, as the specification describes it: a run of the
    relay for one image, with one fetch, one grouped send of one image, and
    the progress shown as 0/1 then 1/1. *)
Definition one_image_via_relay (o : out unit) : Prop :=
  fetch_calls (log o) = 1%nat
  /\ map (@length bytes) (batches (log o)) = [1%nat]
  /\ hd_error (notifications (log o)) = Some (custom_first_text 1)
  /\ map snd (edits (log o)) = [progress_text 1 1].

(** The two runs, as the specification describes them: the same calls. *)
Definition same_effects (e : env) (w : world) (m : Message) (count : Z) : Prop :=
  log (send_multiple_images m count e w) = log (generate_custom_images m count e w).

(** The first call of a run whose first progress text is [first]. *)
Definition first_call (m : Message) (first : string) : event :=
  SendMessage (chat_id m) first (Some "html") None.

(** [o] is the output of one of the two runs for [n] images, and [first] the
    text of its first progress notification. *)
Definition relay_run (e : env) (w : world) (m : Message) (n : Z)
    (o : out unit) (first : string) : Prop :=
  (o = generate_custom_images m n e w /\ first = custom_first_text n)
  \/ (o = send_multiple_images m n e w /\ first = multiple_first_text n).


(* ================================================================== *)
(** ** Further definitions: properties beyond the specification *)

(** A call is addressed to chat [c]: every Bot API call names that chat
    (calls that are not Bot API calls name no chat). *)
Definition addressed (c : Z) (ev : event) : bool :=
  match ev with
  | SendMessage chat _ _ _ | EditMessageText chat _ _ | SendMediaGroup chat _
  | SendPhoto chat _ | DeleteMessage chat _ | RegisterNextStepHandler chat _ _ =>
      chat =? c
  | _ => true
  end.

(** Two environments that answer alike, except perhaps on whether a
    [delete_message] call raises. *)
Definition agree_but_delete (e e' : env) : Prop :=
  (forall k, uuid4 e k = uuid4 e' k)
  /\ (forall k, response e k = response e' k)
  /\ (forall a k, a <> delete_message_ -> raises e a k = raises e' a k)
  /\ (forall k, assigned_id e k = assigned_id e' k).

(** The grouped sends of the ordinals [c .. c+g-1] do not raise. *)
Definition groups_ok_upto (e : env) (c g : nat) : Prop :=
  forall j, (j < g)%nat -> raises e send_media_group_ (c + j) = false.

(** [send_single_image], case by case. *)
Definition single_out (e : env) (w : world) (m : Message) : out unit :=
  let f := file_of e (uuids w) in
  match response e (gets w) with
  | None => Out [HttpGet IMAGE_URL] (tick_get (tick_uuid w)) (Raise RequestException)
  | Some b =>
      let w0 := tick send_photo_ (downloaded e w b) in
      let sent := [HttpGet IMAGE_URL; FileWrite f b; FileRead f;
                   SendPhoto (chat_id m) b] in
      if raises e send_photo_ (calls w send_photo_) then
        Out sent w0 (Raise ApiTelegramException)
      else
        Out (sent ++ [FileRemove f; DeleteMessage (chat_id m) (message_id m);
                      SendMessage (chat_id m) done_text (Some "html")
                        (Some create_main_markup)])
          (tick send_message_
             (tick delete_message_ (set_files (unlink f (files w0)) w0)))
          (if raises e send_message_ (calls w send_message_)
           then Raise ApiTelegramException else Ok tt)
  end.
(* ================================================================== *)
(** ** Proofs *)

(** *** [PyStr] on some texts *)

Example strip_unicode_blanks :
  PyStr.strip (no_break_space ++ file_separator ++ " Назад  " ++ ideographic_space)
  = "Назад".
Proof. vm_compute. reflexivity. Qed.

Example strip_keeps_inner_blanks :
  PyStr.strip ("  своё" ++ no_break_space ++ "количество ")
  = "своё" ++ no_break_space ++ "количество".
Proof. vm_compute. reflexivity. Qed.

Example lower_scripts :
  PyStr.lower "НАЗАД Ёж Получить ÄÖ ΑΣ ΣΑ 9" = "назад ёж получить äö ας σα 9".
Proof. vm_compute. reflexivity. Qed.

Example int_accepted :
  map PyStr.int
    [" +05 "; "1_0"; "-7"; "٤٢"; no_break_space ++ "5" ++ ideographic_space; "007"]
  = [Some 5; Some 10; Some (-7); Some 42; Some 5; Some 7].
Proof. vm_compute. reflexivity. Qed.

Example int_refused :
  map PyStr.int
    [""; " "; "+"; "+ 5"; "_1"; "1_"; "1__0"; "12a"; "1.0"; "0x10";
     file_separator ++ "5"; "5" ++ file_separator; "назад"]
  = [None; None; None; None; None; None; None; None; None; None;
     None; None; None].
Proof. vm_compute. reflexivity. Qed.

Lemma bind_ok {A B} (m : M A) (k : A -> M B) e w t w1 a :
  m e w = Out t w1 (Ok a) -> bind m k e w = prepend t (k a e w1).
Proof. intros H. unfold bind. now rewrite H. Qed.

Lemma bind_raise {A B} (m : M A) (k : A -> M B) e w t w1 x :
  m e w = Out t w1 (Raise x) -> bind m k e w = Out t w1 (Raise x).
Proof. intros H. unfold bind. now rewrite H. Qed.

Lemma prepend_out {A} t t' w (v : res A) :
  prepend t (Out t' w v) = Out (t ++ t') w v.
Proof. reflexivity. Qed.

Lemma lookup_head name b fs : lookup name ((name, b) :: fs) = Some b.
Proof. unfold lookup; simpl. now rewrite String.eqb_refl. Qed.

Lemma requests_get_ok url e w b :
  response e (gets w) = Some b ->
  requests_get url e w = Out [HttpGet url] (tick_get w) (Ok b).
Proof. intros H. unfold requests_get. now rewrite H. Qed.

Lemma requests_get_raise url e w :
  response e (gets w) = None ->
  requests_get url e w = Out [HttpGet url] (tick_get w) (Raise RequestException).
Proof. intros H. unfold requests_get. now rewrite H. Qed.

Lemma download_image_ok e w b :
  response e (gets w) = Some b ->
  download_image e w =
  Out [HttpGet IMAGE_URL; FileWrite (file_of e (uuids w)) b] (downloaded e w b)
    (Ok (file_of e (uuids w))).
Proof.
  intros H. unfold download_image.
  erewrite bind_ok by reflexivity.
  erewrite bind_ok by (apply requests_get_ok; exact H).
  erewrite bind_ok by reflexivity.
  reflexivity.
Qed.

Lemma download_image_raise e w :
  response e (gets w) = None ->
  download_image e w =
  Out [HttpGet IMAGE_URL] (tick_get (tick_uuid w)) (Raise RequestException).
Proof.
  intros H. unfold download_image.
  erewrite bind_ok by reflexivity.
  erewrite bind_raise by (apply requests_get_raise; exact H).
  reflexivity.
Qed.

Lemma read_downloaded e w b :
  read_file (file_of e (uuids w)) e (downloaded e w b) =
  Out [FileRead (file_of e (uuids w))] (downloaded e w b) (Ok b).
Proof.
  unfold read_file, downloaded. cbn [files set_files]. now rewrite lookup_head.
Qed.

Lemma bot_unit_ok a ev e w :
  raises e a (calls w a) = false ->
  (bot_call a ev ;; ret tt) e w = Out [ev] (tick a w) (Ok tt).
Proof.
  intros H. erewrite bind_ok by (unfold bot_call; rewrite H; reflexivity).
  reflexivity.
Qed.

Lemma bot_unit_raise a ev e w :
  raises e a (calls w a) = true ->
  (bot_call a ev ;; ret tt) e w = Out [ev] (tick a w) (Raise ApiTelegramException).
Proof.
  intros H. erewrite bind_raise by (unfold bot_call; rewrite H; reflexivity).
  reflexivity.
Qed.

Lemma custom_body_out m pm n i images fns sent e w :
  custom_body m pm n i (images, fns, sent) e w =
  iteration_out e w (chat_id m) (message_id pm) (progress_text (sent + 1) n)
    images (i =? n)
    (fun group => (group, (fns ++ [file_of e (uuids w)])%list, sent + 1)).
Proof.
  unfold custom_body, iteration_out.
  destruct (response e (gets w)) as [b |] eqn:Hg.
  - erewrite bind_ok by (apply download_image_ok; exact Hg).
    erewrite bind_ok by apply read_downloaded.
    destruct (raises e edit_message_text_ (calls w edit_message_text_)) eqn:He.
    + erewrite bind_raise by (apply bot_unit_raise; exact He). reflexivity.
    + erewrite bind_ok by (apply bot_unit_ok; exact He).
      cbv zeta. destruct (_ || _); [| reflexivity].
      destruct (raises e send_media_group_ (calls w send_media_group_)) eqn:Hs.
      * erewrite bind_raise by (apply bot_unit_raise; exact Hs). reflexivity.
      * erewrite bind_ok by (apply bot_unit_ok; exact Hs). reflexivity.
  - erewrite bind_raise by (apply download_image_raise; exact Hg). reflexivity.
Qed.

Lemma multiple_body_out m pm n i images fns e w :
  multiple_body m pm n i (images, fns) e w =
  iteration_out e w (chat_id m) (message_id pm) (progress_text i n)
    images (i =? n)
    (fun group => (group, (fns ++ [file_of e (uuids w)])%list)).
Proof.
  unfold multiple_body, iteration_out.
  destruct (response e (gets w)) as [b |] eqn:Hg.
  - erewrite bind_ok by (apply download_image_ok; exact Hg).
    erewrite bind_ok by apply read_downloaded.
    destruct (raises e edit_message_text_ (calls w edit_message_text_)) eqn:He.
    + erewrite bind_raise by (apply bot_unit_raise; exact He). reflexivity.
    + erewrite bind_ok by (apply bot_unit_ok; exact He).
      cbv zeta. destruct (_ || _); [| reflexivity].
      destruct (raises e send_media_group_ (calls w send_media_group_)) eqn:Hs.
      * erewrite bind_raise by (apply bot_unit_raise; exact Hs). reflexivity.
      * erewrite bind_ok by (apply bot_unit_ok; exact Hs). reflexivity.
  - erewrite bind_raise by (apply download_image_raise; exact Hg). reflexivity.
Qed.

Lemma custom_body_ok m pm n i images fns sent e w b :
  response e (gets w) = Some b ->
  raises e edit_message_text_ (calls w edit_message_text_) = false ->
  raises e send_media_group_ (calls w send_media_group_) = false ->
  custom_body m pm n i (images, fns, sent) e w =
  let w1 := tick edit_message_text_ (downloaded e w b) in
  let t := iteration_log e w (chat_id m) (message_id pm) b (progress_text (sent + 1) n) in
  if flushes (images ++ [b]) i n then
    Out (t ++ [SendMediaGroup (chat_id m) (images ++ [b])])
      (tick send_media_group_ w1) (Ok ([], (fns ++ [file_of e (uuids w)])%list, sent + 1))
  else Out t w1 (Ok ((images ++ [b])%list, (fns ++ [file_of e (uuids w)])%list, sent + 1)).
Proof.
  intros Hg He Hs. rewrite custom_body_out. unfold iteration_out, flushes.
  now rewrite Hg, He, Hs.
Qed.
Lemma prepend_nil {A} (o : out A) : prepend [] o = o.
Proof. now destruct o. Qed.

Lemma prepend_prepend {A} t t' (o : out A) :
  prepend t (prepend t' o) = prepend (t ++ t') o.
Proof. unfold prepend. cbn [log after value]. now rewrite app_assoc. Qed.

Lemma bind_ret {A} (m : M A) e w : bind m ret e w = m e w.
Proof.
  unfold bind. destruct (m e w) as [t w1 [a | x]]; cbn [value log after].
  - unfold ret, prepend. cbn [log after value]. now rewrite app_nil_r.
  - reflexivity.
Qed.

Lemma bind_bind {A B C} (m : M A) (f : A -> M B) (g : B -> M C) e w :
  bind (bind m f) g e w = bind m (fun a => bind (f a) g) e w.
Proof.
  unfold bind. destruct (m e w) as [t w1 [a | x]]; cbn [value log after]; auto.
  destruct (f a e w1) as [t2 w2 [b | x]]; cbn [value log after prepend]; auto.
  unfold prepend. cbn [log after value]. now rewrite app_assoc.
Qed.

Lemma for_app {A S} (l1 l2 : list A) (body : A -> S -> M S) s e w :
  for_ (l1 ++ l2) body s e w = bind (for_ l1 body s) (for_ l2 body) e w.
Proof.
  revert s w. induction l1 as [| x l1 IH]; intros s w.
  - cbn [app for_]. unfold bind, ret. cbn [value log after]. now rewrite prepend_nil.
  - cbn [app for_]. rewrite bind_bind.
    destruct (body x s e w) as [t w1 [s1 | x1]] eqn:E.
    + rewrite !(bind_ok _ _ _ _ _ _ _ E). now rewrite IH.
    + now rewrite !(bind_raise _ _ _ _ _ _ _ E).
Qed.

Lemma for_one {A S} (x : A) (body : A -> S -> M S) s e w :
  for_ [x] body s e w = body x s e w.
Proof. cbn [for_]. apply bind_ret. Qed.

Lemma range_nil lo : range lo lo = [].
Proof. unfold range. now rewrite Z.sub_diag. Qed.

Lemma range_snoc lo hi : lo <= hi -> range lo (hi + 1) = (range lo hi ++ [hi])%list.
Proof.
  intros H. unfold range.
  replace (Z.to_nat (hi + 1 - lo)) with (S (Z.to_nat (hi - lo))) by lia.
  rewrite seq_S, map_app. cbn [map plus]. do 2 f_equal. lia.
Qed.

Lemma range_cons lo hi : lo < hi -> range lo hi = lo :: range (lo + 1) hi.
Proof.
  intros H. unfold range.
  replace (Z.to_nat (hi - lo)) with (S (Z.to_nat (hi - (lo + 1)))) by lia.
  cbn [seq map]. f_equal; [lia |].
  rewrite <- seq_shift, map_map. apply map_ext. intros a. lia.
Qed.
Lemma batches_app t1 t2 : batches (t1 ++ t2) = (batches t1 ++ batches t2)%list.
Proof. apply flat_map_app. Qed.
Lemma edits_app t1 t2 : edits (t1 ++ t2) = (edits t1 ++ edits t2)%list.
Proof. apply flat_map_app. Qed.
Lemma notifications_app t1 t2 :
  notifications (t1 ++ t2) = (notifications t1 ++ notifications t2)%list.
Proof. apply flat_map_app. Qed.
Lemma written_app t1 t2 : written (t1 ++ t2) = (written t1 ++ written t2)%list.
Proof. apply flat_map_app. Qed.
Lemma removed_app t1 t2 : removed (t1 ++ t2) = (removed t1 ++ removed t2)%list.
Proof. apply flat_map_app. Qed.
Lemma photos_app t1 t2 : photos (t1 ++ t2) = (photos t1 ++ photos t2)%list.
Proof. apply flat_map_app. Qed.
Lemma fetch_calls_app t1 t2 :
  fetch_calls (t1 ++ t2) = (fetch_calls t1 + fetch_calls t2)%nat.
Proof. unfold fetch_calls. now rewrite filter_app, length_app. Qed.

Create Rewrite HintDb logs.
#[local] Hint Rewrite batches_app edits_app notifications_app written_app
  removed_app photos_app fetch_calls_app : logs.

Lemma lookup_unlink_other f name fs :
  String.eqb f name = false -> lookup f (unlink name fs) = lookup f fs.
Proof.
  intros H. unfold lookup, unlink. f_equal.
  induction fs as [| [g b] fs IH]; cbn [filter find fst]; auto.
  destruct (String.eqb g name) eqn:E1; cbn [negb find fst].
  - apply String.eqb_eq in E1. subst g.
    rewrite String.eqb_sym, H. exact IH.
  - now rewrite IH.
Qed.

Lemma lookup_unlink_same f fs : lookup f (unlink f fs) = None.
Proof.
  unfold lookup, unlink.
  induction fs as [| [g b] fs IH]; cbn [filter find fst]; auto.
  destruct (String.eqb g f) eqn:E1; cbn [negb find fst]; auto.
  now rewrite E1.
Qed.

Lemma exists_file_downloaded e w b f :
  exists_file f w = true \/ f = file_of e (uuids w) ->
  exists_file f (downloaded e w b) = true.
Proof.
  intros H. unfold exists_file, downloaded. cbn [files set_files].
  destruct (String.eqb f (file_of e (uuids w))) eqn:E.
  - apply String.eqb_eq in E. subst f. now rewrite lookup_head.
  - destruct H as [H | H]; [| subst f; now rewrite String.eqb_refl in E].
    unfold lookup at 1. cbn [find fst]. rewrite String.eqb_sym, E.
    fold (lookup f (unlink (file_of e (uuids w)) (files w))).
    now rewrite lookup_unlink_other.
Qed.

Lemma response_payload e g k j :
  fetches_ok e g k -> (j < k)%nat -> response e (g + j) = Some (payload e (g + j)).
Proof.
  intros H Hj. specialize (H j Hj). unfold payload.
  now destruct (response e (g + j)).
Qed.

Lemma custom_loop_prefix m pm n e w (k : nat) :
  Z.of_nat k < n ->
  fetches_ok e (gets w) k ->
  edits_ok e (calls w edit_message_text_) k ->
  groups_ok e ->
  exists t w' images,
    for_ (range 1 (Z.of_nat k + 1)) (custom_body m pm n) ([], [], 0) e w
    = Out t w' (Ok (images, map (file_of e) (seq (uuids w) k), Z.of_nat k))
    /\ loop_inv e w m pm n k t w' images.
Proof.
  induction k as [| k IH]; intros Hn Hf He Hs.
  - exists [], w, []. split; [now rewrite range_nil |].
    constructor; cbn; auto; try lia.
  - destruct IH as (t & w' & images & Hrun & I).
    { lia. }
    { intros j Hj. apply Hf. lia. }
    { intros j Hj. apply He. lia. }
    { exact Hs. }
    replace (Z.of_nat (S k) + 1) with ((Z.of_nat k + 1) + 1) by lia.
    rewrite range_snoc by lia. rewrite for_app.
    rewrite (bind_ok _ _ _ _ _ _ _ Hrun), for_one.
    destruct I.
    assert (Hb : response e (gets w') = Some (payload e (gets w + k))).
    { rewrite inv_gets0. apply (response_payload e (gets w) (S k)); auto. }
    rewrite (custom_body_ok _ _ _ _ _ _ _ _ _ _ Hb).
    2:{ rewrite inv_edit_calls0. apply He. lia. }
    2:{ apply Hs. }
    cbv zeta. set (b := payload e (gets w + k)).
    assert (Hi : (Z.of_nat k + 1 =? n) = false) by (apply Z.eqb_neq; lia).
    unfold flushes. rewrite Hi, orb_false_r.
    replace (Z.of_nat k + 1) with (Z.of_nat (S k)) by lia.
    assert (Hfn : (map (file_of e) (seq (uuids w) k) ++ [file_of e (uuids w')])%list
                  = map (file_of e) (seq (uuids w) (S k))).
    { rewrite seq_S, map_app, inv_uuids0. reflexivity. }
    assert (Hpl : (map (payload e) (seq (gets w) k) ++ [b])%list
                  = map (payload e) (seq (gets w) (S k))).
    { rewrite seq_S, map_app. reflexivity. }
    assert (Hed : (map (fun j => (chat_id m, message_id pm, progress_text (Z.of_nat j) n)) (seq 1 k)
                   ++ [(chat_id m, message_id pm, progress_text (Z.of_nat (S k)) n)])%list
                  = map (fun j => (chat_id m, message_id pm, progress_text (Z.of_nat j) n)) (seq 1 (S k))).
    { rewrite (seq_S k 1), map_app. reflexivity. }
    rewrite Hfn.
    destruct (Z.of_nat (length (images ++ [b])) =? GROUP_SIZE) eqn:Hfull.
    + apply Z.eqb_eq in Hfull. unfold GROUP_SIZE in Hfull.
      rewrite prepend_out.
      eexists _, _, []. split; [reflexivity |].
      unfold iteration_log.
      constructor; autorewrite with logs; cbn [batches edits notifications written removed photos fetch_calls filter is_fetch flat_map app length].
      * cbn. lia.
      * cbn. lia.
      * cbn. lia.
      * cbn. lia.
      * rewrite concat_app. cbn [concat]. rewrite !app_nil_r.
        rewrite <- Hpl, <- inv_content0. now rewrite app_assoc.
      * apply Forall_app. split; auto. constructor; auto. lia.
      * rewrite inv_edits0. exact Hed.
      * lia.
      * rewrite inv_written0, inv_uuids0. rewrite seq_S, map_app. reflexivity.
      * now rewrite inv_removed0.
      * now rewrite inv_notifications0.
      * now rewrite inv_photos0.
      * intros f Hin. change (exists_file f (downloaded e w' b) = true).
        apply exists_file_downloaded. apply in_app_or in Hin.
        destruct Hin as [Hin | [Hin | []]]; auto.
    + apply Z.eqb_neq in Hfull. unfold GROUP_SIZE in Hfull.
      rewrite prepend_out.
      eexists _, _, _. split; [reflexivity |].
      unfold iteration_log. rewrite length_app in Hfull. cbn [length] in Hfull.
      constructor; autorewrite with logs; cbn [batches edits notifications written removed photos fetch_calls filter is_fetch flat_map app length].
      * cbn. lia.
      * cbn. lia.
      * cbn. lia.
      * rewrite length_app. cbn [length]. lia.
      * rewrite app_nil_r, <- Hpl, <- inv_content0. now rewrite app_assoc.
      * now rewrite app_nil_r.
      * rewrite inv_edits0. exact Hed.
      * lia.
      * rewrite inv_written0, inv_uuids0. rewrite seq_S, map_app. reflexivity.
      * now rewrite inv_removed0.
      * now rewrite inv_notifications0.
      * now rewrite inv_photos0.
      * intros f Hin. change (exists_file f (downloaded e w' b) = true).
        apply exists_file_downloaded. apply in_app_or in Hin.
        destruct Hin as [Hin | [Hin | []]]; auto.
Qed.
Lemma custom_loop_complete m pm n e w :
  1 <= n ->
  fetches_ok e (gets w) (Z.to_nat n) ->
  edits_ok e (calls w edit_message_text_) (Z.to_nat n) ->
  groups_ok e ->
  exists t w' full final,
    for_ (range 1 (n + 1)) (custom_body m pm n) ([], [], 0) e w
    = Out t w' (Ok ([], map (file_of e) (seq (uuids w) (Z.to_nat n)), n))
    /\ loop_done e w m pm n t w' full final.
Proof.
  intros Hn Hf He Hs.
  assert (Hk : exists k, Z.to_nat n = S k /\ n = Z.of_nat k + 1).
  { exists (Z.to_nat (n - 1)). lia. }
  destruct Hk as (k & HN & Hnk). rewrite HN in *.
  destruct (custom_loop_prefix m pm n e w k) as (t & w' & images & Hrun & I).
  { lia. }
  { intros j Hj. apply Hf. lia. }
  { intros j Hj. apply He. lia. }
  { exact Hs. }
  rewrite range_snoc by lia.
  rewrite for_app. replace (range 1 n) with (range 1 (Z.of_nat k + 1)) by (f_equal; lia).
  rewrite (bind_ok _ _ _ _ _ _ _ Hrun), for_one.
  destruct I.
  assert (Hb : response e (gets w') = Some (payload e (gets w + k))).
  { rewrite inv_gets0. apply (response_payload e (gets w) (S k)); auto. }
  rewrite (custom_body_ok _ _ _ _ _ _ _ _ _ _ Hb).
  2:{ rewrite inv_edit_calls0. apply He. lia. }
  2:{ apply Hs. }
  cbv zeta. set (b := payload e (gets w + k)).
  unfold flushes. rewrite Z.eqb_refl, orb_true_r, prepend_out.
  replace (Z.of_nat k + 1) with n by lia.
  eexists _, _, (batches t), (images ++ [b])%list. split.
  { rewrite seq_S, map_app, inv_uuids0. reflexivity. }
  unfold iteration_log.
  constructor; autorewrite with logs;
    cbn [batches edits notifications written removed photos fetch_calls filter
         is_fetch flat_map app length]; rewrite ?HN.
  - reflexivity.
  - assumption.
  - rewrite length_app. cbn [length]. lia.
  - rewrite app_assoc, inv_content0, seq_S, map_app. reflexivity.
  - rewrite inv_edits0, (seq_S k 1), map_app. cbn [map plus].
    do 4 f_equal. lia.
  - lia.
  - rewrite inv_written0, inv_uuids0, seq_S, map_app. reflexivity.
  - now rewrite inv_removed0.
  - now rewrite inv_notifications0.
  - now rewrite inv_photos0.
  - intros f Hin. change (exists_file f (downloaded e w' b) = true).
    apply exists_file_downloaded. apply in_app_or in Hin.
    destruct Hin as [Hin | [Hin | []]]; auto.
Qed.
Lemma try_delete c i e w :
  try_except (delete_message c i) except_all (fun _ => ret tt) e w
  = Out [DeleteMessage c i] (tick delete_message_ w) (Ok tt).
Proof.
  unfold try_except, delete_message.
  destruct (raises e delete_message_ (calls w delete_message_)) eqn:E.
  - now rewrite (bot_unit_raise _ _ _ _ E).
  - now rewrite (bot_unit_ok _ _ _ _ E).
Qed.
Lemma send_message_out chat txt pmode mk e w :
  send_message chat txt pmode mk e w =
  Out [SendMessage chat txt pmode mk] (tick send_message_ w)
    (if raises e send_message_ (calls w send_message_)
     then Raise ApiTelegramException else Ok (created e w chat txt)).
Proof.
  unfold send_message.
  destruct (raises e send_message_ (calls w send_message_)) eqn:E.
  - erewrite bind_raise by (unfold bot_call; rewrite E; reflexivity). reflexivity.
  - erewrite bind_ok by (unfold bot_call; rewrite E; reflexivity). reflexivity.
Qed.

Lemma os_remove_out f e w :
  os_remove f e w =
  if exists_file f w
  then Out [FileRemove f] (set_files (unlink f (files w)) w) (Ok tt)
  else Out [FileRemove f] w (Raise FileNotFoundError).
Proof. unfold os_remove, exists_file. now destruct (lookup f (files w)). Qed.

Lemma exists_file_unlinked f g w :
  exists_file f w = false ->
  exists_file f (set_files (unlink g (files w)) w) = false.
Proof.
  unfold exists_file. cbn [files set_files]. intros H.
  destruct (String.eqb f g) eqn:E.
  - apply String.eqb_eq in E. subst g. now rewrite lookup_unlink_same.
  - now rewrite lookup_unlink_other.
Qed.

Lemma exists_file_unlink_same f w :
  exists_file f (set_files (unlink f (files w)) w) = false.
Proof. unfold exists_file. cbn [files set_files]. now rewrite lookup_unlink_same. Qed.

Lemma removal_loop fns e w :
  let o := for_ fns (fun file _ => os_remove file) tt e w in
  quiet (log o) /\ notifications (log o) = []
  /\ (forall f, exists_file f w = false -> exists_file f (after o) = false)
  /\ (value o = Ok tt ->
      removed (log o) = fns /\ forall f, In f fns -> exists_file f (after o) = false)
  /\ (value o = Ok tt \/ value o = Raise FileNotFoundError).
Proof.
  revert w. induction fns as [| f fns IH]; intros w; cbn zeta.
  - cbn. unfold quiet. repeat split; auto; contradiction.
  - cbn [for_].
    destruct (exists_file f w) eqn:Ef.
    + erewrite bind_ok by (rewrite os_remove_out, Ef; reflexivity).
      specialize (IH (set_files (unlink f (files w)) w)). cbn zeta in IH.
      destruct (for_ fns _ tt e _) as [t w' v]. cbn [log after value prepend] in *.
      destruct IH as (Hq & Hn & Hkeep & Hok & Hv).
      unfold quiet in *. autorewrite with logs. cbn.
      destruct Hq as (-> & -> & -> & -> & ->). rewrite Hn.
      repeat split; auto.
      * intros g Hg. apply Hkeep. now apply exists_file_unlinked.
      * destruct (Hok H) as [-> _]. reflexivity.
      * intros g [<- | Hg].
        -- apply Hkeep. apply exists_file_unlink_same.
        -- now apply Hok.
    + erewrite bind_raise by (rewrite os_remove_out, Ef; reflexivity).
      cbn. unfold quiet. cbn. repeat split; auto; discriminate.
Qed.

Lemma finish_facts m pm fns e w :
  let o := finish m pm fns e w in
  quiet (log o)
  /\ (notifications (log o) = [] \/ notifications (log o) = [done_text])
  /\ (forall f, exists_file f w = false -> exists_file f (after o) = false)
  /\ (value o = Ok tt ->
      notifications (log o) = [done_text] /\ removed (log o) = fns
      /\ forall f, In f fns -> exists_file f (after o) = false)
  /\ (value o = Ok tt \/ value o = Raise FileNotFoundError
      \/ value o = Raise ApiTelegramException).
Proof.
  cbn zeta. unfold finish.
  erewrite bind_ok by apply try_delete.
  pose proof (removal_loop fns e (tick delete_message_ w)) as R. cbn zeta in R.
  destruct (for_ fns _ tt e _) as [t w' [[] | x]] eqn:E;
    cbn [log after value] in R; destruct R as (Hq & Hn & Hkeep & Hok & Hv).
  - erewrite bind_ok by exact E.
    destruct (raises e send_message_ (calls w' send_message_)) eqn:Es.
    + erewrite bind_raise by (rewrite send_message_out, Es; reflexivity).
      cbn [prepend log after value]. unfold quiet in *. autorewrite with logs.
      destruct Hq as (-> & -> & -> & -> & ->). rewrite Hn. cbn.
      repeat split; auto; discriminate.
    + erewrite bind_ok by (rewrite send_message_out, Es; reflexivity).
      cbn [prepend log after value ret]. unfold quiet in *. autorewrite with logs.
      destruct Hq as (-> & -> & -> & -> & ->). rewrite Hn. cbn.
      destruct (Hok eq_refl) as [Hr Hgone].
      repeat split; auto. now rewrite app_nil_r.
  - erewrite bind_raise by exact E.
    cbn [prepend log after value]. unfold quiet in *. autorewrite with logs.
    destruct Hq as (-> & -> & -> & -> & ->). rewrite Hn. cbn.
    repeat split; auto; try discriminate.
    destruct Hv as [Hv | Hv]; [discriminate | injection Hv as ->]. auto.
Qed.

Lemma generate_custom_images_out m n e w :
  generate_custom_images m n e w =
  run_out e w m (custom_first_text n)
    (fun pm => for_ (range 1 (n + 1)) (custom_body m pm n) ([], [], 0))
    (fun s => snd (fst s)).
Proof.
  unfold generate_custom_images, run_out. fold (custom_first_text n).
  destruct (raises e send_message_ (calls w send_message_)) eqn:Es.
  - erewrite bind_raise by (rewrite send_message_out, Es; reflexivity). reflexivity.
  - erewrite bind_ok by (rewrite send_message_out, Es; reflexivity).
    set (pm := created e w (chat_id m) (custom_first_text n)).
    destruct (for_ _ _ _ e _) as [t w' [[[images fns] sent] | x]] eqn:E.
    + erewrite bind_ok by exact E. cbn [value log after fst snd prepend app].
      reflexivity.
    + erewrite bind_raise by exact E. reflexivity.
Qed.

Lemma send_multiple_images_out m n e w :
  send_multiple_images m n e w =
  run_out e w m (multiple_first_text n)
    (fun pm => for_ (range 1 (n + 1)) (multiple_body m pm n) ([], []))
    snd.
Proof.
  unfold send_multiple_images, run_out. fold (multiple_first_text n).
  destruct (raises e send_message_ (calls w send_message_)) eqn:Es.
  - erewrite bind_raise by (rewrite send_message_out, Es; reflexivity). reflexivity.
  - erewrite bind_ok by (rewrite send_message_out, Es; reflexivity).
    set (pm := created e w (chat_id m) (multiple_first_text n)).
    destruct (for_ _ _ _ e _) as [t w' [[images fns] | x]] eqn:E.
    + erewrite bind_ok by exact E. cbn [value log after fst snd prepend app].
      reflexivity.
    + erewrite bind_raise by exact E. reflexivity.
Qed.
Lemma custom_run_success m n e w :
  1 <= n ->
  api_ok e ->
  fetches_ok e (gets w) (Z.to_nat n) ->
  exists t tf w' full final,
    log (generate_custom_images m n e w)
    = SendMessage (chat_id m) (custom_first_text n) (Some "html") None :: t ++ tf
    /\ loop_done e (tick send_message_ w) m
         (created e w (chat_id m) (custom_first_text n)) n t w' full final
    /\ quiet tf
    /\ (notifications tf = [] \/ notifications tf = [done_text]).
Proof.
  intros Hn Ha Hf. rewrite generate_custom_images_out. unfold run_out.
  rewrite Ha.
  destruct (custom_loop_complete m (created e w (chat_id m) (custom_first_text n))
              n e (tick send_message_ w))
    as (t & w' & full & final & Hrun & D); auto.
  { intros j _. apply Ha. }
  { intros j. apply Ha. }
  rewrite Hrun. cbn [value log after fst snd].
  pose proof (finish_facts m (created e w (chat_id m) (custom_first_text n))
                (map (file_of e) (seq (uuids (tick send_message_ w)) (Z.to_nat n)))
                e w') as F.
  cbn zeta in F. destruct F as (Hq & Hnote & _).
  eexists t, _, w', full, final. cbn [prepend log].
  split; [reflexivity | split; [exact D | split; [exact Hq | exact Hnote]]].
Qed.

Lemma length_concat_full (l : list (list bytes)) :
  Forall (fun b => length b = 9%nat) l -> length (concat l) = (9 * length l)%nat.
Proof.
  induction 1 as [| b l Hb _ IH]; [reflexivity |].
  cbn [concat length]. rewrite length_app. lia.
Qed.

Lemma lengths_full (l : list (list bytes)) :
  Forall (fun b => length b = 9%nat) l ->
  map (@length bytes) l = repeat 9%nat (length l).
Proof.
  induction 1 as [| b l Hb _ IH]; [reflexivity |].
  cbn [map length repeat]. now rewrite Hb, IH.
Qed.

(** C1. On the success path a run of [generate_custom_images] for a count
    [n] in 1..MAX_IMAGES issues exactly [n] fetch calls and delivers exactly
    ceil(n / GROUP_SIZE) batches; the batches hold, in order, the [n]
    payloads fetched (so their sizes add up to [n]); no batch has more than
    GROUP_SIZE elements; and for [n = 20] the sizes are 9, 9, 2. *)
Theorem relay_fetches_and_batches (e : env) (w : world) (m : Message) (n : Z) :
  1 <= n <= MAX_IMAGES ->
  api_ok e ->
  fetches_ok e (gets w) (Z.to_nat n) ->
  let t := log (generate_custom_images m n e w) in
  fetch_calls t = Z.to_nat n
  /\ Z.of_nat (length (batches t)) = (n + GROUP_SIZE - 1) / GROUP_SIZE
  /\ concat (batches t) = map (payload e) (seq (gets w) (Z.to_nat n))
  /\ Z.of_nat (length (concat (batches t))) = n
  /\ Forall (fun b => Z.of_nat (length b) <= GROUP_SIZE) (batches t)
  /\ (n = 20 -> map (@length bytes) (batches t) = [9; 9; 2]%nat).
Proof.
  intros [Hn _] Ha Hf t.
  destruct (custom_run_success m n e w) as (tl & tf & w' & full & final & Hlog & D & Hq & _);
    auto.
  subst t. rewrite Hlog. destruct D, Hq as (Hq1 & Hq2 & _).
  change (SendMessage (chat_id m) (custom_first_text n) (Some "html") None :: tl ++ tf)
    with ([SendMessage (chat_id m) (custom_first_text n) (Some "html") None] ++ tl ++ tf)%list.
  autorewrite with logs. rewrite Hq1, Hq2, done_batches0, done_fetches0.
  cbn [batches fetch_calls flat_map filter is_fetch length app plus].
  rewrite app_nil_r, Nat.add_0_r.
  cbn [gets tick] in done_content0.
  assert (Hcat : concat (full ++ [final]) = (concat full ++ final)%list).
  { rewrite concat_app. cbn [concat]. now rewrite app_nil_r. }
  assert (Hsum : (9 * length full + length final = Z.to_nat n)%nat).
  { rewrite <- (length_concat_full full), <- length_app, done_content0 by assumption.
    now rewrite length_map, length_seq. }
  repeat split.
  - rewrite length_app. cbn [length]. unfold GROUP_SIZE.
    apply (Z.div_unique _ _ _ (Z.of_nat (length final) - 1)); lia.
  - now rewrite Hcat.
  - rewrite Hcat, length_app, length_concat_full by assumption. lia.
  - apply Forall_app. split.
    + eapply Forall_impl; [| exact done_full0]. cbn. intros b Hb. unfold GROUP_SIZE. lia.
    + constructor; [| constructor]. unfold GROUP_SIZE. lia.
  - intros ->. rewrite map_app, lengths_full by assumption. cbn [map].
    assert (length full = 2%nat /\ length final = 2%nat) as [-> ->] by lia.
    reflexivity.
Qed.

Lemma relay_fetches_and_batches_witness :
  let t := log (generate_custom_images (msg "20") 20 calm start) in
  fetch_calls t = Z.to_nat 20
  /\ Z.of_nat (length (batches t)) = (20 + GROUP_SIZE - 1) / GROUP_SIZE
  /\ concat (batches t) = map (payload calm) (seq (gets start) (Z.to_nat 20))
  /\ Z.of_nat (length (concat (batches t))) = 20
  /\ Forall (fun b => Z.of_nat (length b) <= GROUP_SIZE) (batches t)
  /\ (20 = 20 -> map (@length bytes) (batches t) = [9; 9; 2]%nat).
Proof.
  apply (relay_fetches_and_batches calm start (msg "20") 20).
  - unfold MAX_IMAGES. lia.
  - intros a k. reflexivity.
  - intros j _. discriminate.
Defined.
Lemma forget_sent_prepend t o :
  forget_sent (prepend t o) = prepend t (forget_sent o).
Proof. reflexivity. Qed.

Lemma bodies_agree m pm pm' n i images fns e w :
  message_id pm = message_id pm' ->
  forget_sent (custom_body m pm n i (images, fns, i - 1) e w)
  = multiple_body m pm' n i (images, fns) e w
  /\ forall t w1 group names sent,
       custom_body m pm n i (images, fns, i - 1) e w
       = Out t w1 (Ok (group, names, sent)) -> sent = i.
Proof.
  intros Hid. rewrite custom_body_out, multiple_body_out, Hid.
  replace (i - 1 + 1) with i by lia. unfold iteration_out.
  destruct (response e (gets w)) as [b |]; [| split; [reflexivity | discriminate]].
  cbv zeta.
  destruct (raises e edit_message_text_ _); [split; [reflexivity | discriminate] |].
  destruct (_ || _).
  - destruct (raises e send_media_group_ _); split;
      try reflexivity; try discriminate; congruence.
  - split; [reflexivity | congruence].
Qed.

Lemma loops_agree m pm pm' n (len : nat) :
  message_id pm = message_id pm' ->
  forall lo images fns e w,
    forget_sent (for_ (range lo (lo + Z.of_nat len)) (custom_body m pm n)
                   (images, fns, lo - 1) e w)
    = for_ (range lo (lo + Z.of_nat len)) (multiple_body m pm' n) (images, fns) e w.
Proof.
  intros Hid. induction len as [| len IH]; intros lo images fns e w.
  - rewrite Z.add_0_r, range_nil. reflexivity.
  - rewrite range_cons by lia. cbn [for_].
    destruct (bodies_agree m pm pm' n lo images fns e w Hid) as [Hb Hs].
    destruct (custom_body m pm n lo (images, fns, lo - 1) e w)
      as [t w1 [[[group names] sent] | x]] eqn:Ec.
    + specialize (Hs _ _ _ _ _ eq_refl). subst sent.
      cbn [forget_sent log after value] in Hb. symmetry in Hb.
      rewrite (bind_ok _ _ _ _ _ _ _ Ec), (bind_ok _ _ _ _ _ _ _ Hb).
      rewrite forget_sent_prepend. f_equal.
      replace (lo + Z.of_nat (S len)) with (lo + 1 + Z.of_nat len) by lia.
      specialize (IH (lo + 1) group names e w1).
      replace (lo + 1 - 1) with lo in IH by lia. exact IH.
    + cbn [forget_sent log after value] in Hb. symmetry in Hb.
      rewrite (bind_raise _ _ _ _ _ _ _ Ec), (bind_raise _ _ _ _ _ _ _ Hb).
      reflexivity.
Qed.

Lemma full_loops_agree m pm pm' n e w :
  message_id pm = message_id pm' ->
  forget_sent (for_ (range 1 (n + 1)) (custom_body m pm n) ([], [], 0) e w)
  = for_ (range 1 (n + 1)) (multiple_body m pm' n) ([], []) e w.
Proof.
  intros Hid. destruct (Z_lt_le_dec n 1) as [Hn | Hn].
  - unfold range. replace (Z.to_nat (n + 1 - 1)) with O by lia. reflexivity.
  - replace (n + 1) with (1 + Z.of_nat (Z.to_nat n)) by lia.
    apply (loops_agree m pm pm' n (Z.to_nat n) Hid 1).
Qed.

Lemma runs_agree (e : env) (w : world) (m : Message) (count : Z) :
  let o1 := send_multiple_images m count e w in
  let o2 := generate_custom_images m count e w in
  value o1 = value o2 /\ after o1 = after o2
  /\ exists rest,
       log o1 = SendMessage (chat_id m) (multiple_first_text count) (Some "html") None
                  :: rest
       /\ log o2 = SendMessage (chat_id m) (custom_first_text count) (Some "html") None
                     :: rest.
Proof.
  cbn zeta. rewrite send_multiple_images_out, generate_custom_images_out.
  unfold run_out.
  destruct (raises e send_message_ (calls w send_message_)).
  { repeat split. now exists []. }
  set (pm := created e w (chat_id m) (custom_first_text count)).
  set (pm' := created e w (chat_id m) (multiple_first_text count)).
  pose proof (full_loops_agree m pm pm' count e (tick send_message_ w) eq_refl) as H.
  destruct (for_ _ (custom_body m pm count) _ e _) as [t w1 [[[group names] sent] | x]];
    rewrite <- H; cbn [forget_sent value log after fst snd].
  - change (finish m pm' names) with (finish m pm names).
    destruct (finish m pm names e w1) as [tf wf vf]. cbn [prepend log after value].
    repeat split. now exists (t ++ tf)%list.
  - repeat split. now exists t.
Qed.

(** C9, amended. For every count, every environment and every starting
    state, [send_multiple_images] and [generate_custom_images] end in the
    same way (both return, or both raise the same exception), leave the same
    state, and issue the same calls in the same order, except that the text
    of the first progress notification differs: [send_multiple_images] sends
    the longer text of [multiple_first_text]. *)
Theorem runs_agree_but_first_text (e : env) (w : world) (m : Message) (count : Z) :
  let o1 := send_multiple_images m count e w in
  let o2 := generate_custom_images m count e w in
  value o1 = value o2 /\ after o1 = after o2
  /\ exists rest,
       log o1 = SendMessage (chat_id m) (multiple_first_text count) (Some "html") None
                  :: rest
       /\ log o2 = SendMessage (chat_id m) (custom_first_text count) (Some "html") None
                     :: rest.
Proof. exact (runs_agree e w m count). Qed.
Lemma range_split_nat lo mid (d : nat) :
  lo <= mid ->
  range lo (mid + Z.of_nat d) = (range lo mid ++ range mid (mid + Z.of_nat d))%list.
Proof.
  intros H. induction d as [| d IH].
  - now rewrite Z.add_0_r, range_nil, app_nil_r.
  - replace (mid + Z.of_nat (S d)) with (mid + Z.of_nat d + 1) by lia.
    rewrite !range_snoc by lia. now rewrite IH, app_assoc.
Qed.

Lemma range_split lo mid hi :
  lo <= mid <= hi -> range lo hi = (range lo mid ++ range mid hi)%list.
Proof.
  intros H. replace hi with (mid + Z.of_nat (Z.to_nat (hi - mid))) by lia.
  apply range_split_nat. lia.
Qed.

(** A run whose first [k] iterations pass and whose next iteration raises. *)
Lemma custom_run_aborts m n e w (k : nat) :
  Z.of_nat k < n ->
  raises e send_message_ (calls w send_message_) = false ->
  fetches_ok e (gets w) k ->
  edits_ok e (calls w edit_message_text_) k ->
  groups_ok e ->
  let pm := created e w (chat_id m) (custom_first_text n) in
  exists t w' images,
    loop_inv e (tick send_message_ w) m pm n k t w' images
    /\ forall ti wi x,
         custom_body m pm n (Z.of_nat k + 1)
           (images, map (file_of e) (seq (uuids w) k), Z.of_nat k) e w'
         = Out ti wi (Raise x) ->
         generate_custom_images m n e w
         = Out (SendMessage (chat_id m) (custom_first_text n) (Some "html") None
                  :: t ++ ti) wi (Raise x).
Proof.
  intros Hk Hsend Hf He Hs pm.
  destruct (custom_loop_prefix m pm n e (tick send_message_ w) k)
    as (t & w' & images & Hrun & I); auto.
  exists t, w', images. split; [exact I |].
  intros ti wi x Hbody.
  rewrite generate_custom_images_out. unfold run_out. rewrite Hsend. fold pm.
  rewrite (range_split 1 (Z.of_nat k + 1) (n + 1)) by lia.
  rewrite for_app, (bind_ok _ _ _ _ _ _ _ Hrun).
  rewrite (range_cons (Z.of_nat k + 1)) by lia. cbn [for_].
  cbn [uuids tick] in Hbody |- *.
  rewrite (bind_raise _ _ _ _ _ _ _ Hbody). reflexivity.
Qed.

Lemma length_div_full (l : list (list bytes)) (images : list bytes) (k : nat) :
  Forall (fun b => length b = 9%nat) l ->
  (length images < 9)%nat ->
  length (concat l ++ images) = k ->
  length l = (k / 9)%nat /\ length images = (k mod 9)%nat.
Proof.
  intros Hl Hi Hk. rewrite length_app, length_concat_full in Hk by assumption.
  assert (k = 9 * length l + length images)%nat by lia.
  split.
  - apply (Nat.div_unique k 9 (length l) (length images)); lia.
  - apply (Nat.mod_unique k 9 (length l) (length images)); lia.
Qed.

(** C3, amended. When the fetch of image [k+1] of [n] fails after [k]
    successful iterations, [generate_custom_images] raises the exception of
    the fetch at once: the failing fetch is the last call of the run, so no
    further fetch is attempted, the incomplete group is not sent (only the
    [k / 9] full groups completed before were), no notification other than
    the first progress message is sent, and no file is removed: the [k] files
    written so far are still on disk. *)
Theorem fetch_failure_aborts (e : env) (w : world) (m : Message) (n : Z) (k : nat) :
  Z.of_nat k < n ->
  api_ok e ->
  fetches_ok e (gets w) k ->
  response e (gets w + k) = None ->
  let o := generate_custom_images m n e w in
  value o = Raise RequestException
  /\ (exists before, log o = (before ++ [HttpGet IMAGE_URL])%list)
  /\ fetch_calls (log o) = S k
  /\ Forall (fun b => length b = 9%nat) (batches (log o))
  /\ length (batches (log o)) = (k / 9)%nat
  /\ notifications (log o) = [custom_first_text n]
  /\ removed (log o) = []
  /\ written (log o) = map (file_of e) (seq (uuids w) k)
  /\ forall f, In f (written (log o)) -> exists_file f (after o) = true.
Proof.
  intros Hk Ha Hf Hfail o.
  destruct (custom_run_aborts m n e w k) as (t & w' & images & I & Hrun); auto.
  { intros j _. apply Ha. }
  { intros j. apply Ha. }
  destruct I. cbn [gets uuids tick] in *.
  subst o. erewrite Hrun.
  2:{ rewrite custom_body_out. unfold iteration_out. rewrite inv_gets0, Hfail.
      reflexivity. }
  cbn [value log after].
  change (SendMessage (chat_id m) (custom_first_text n) (Some "html") None
            :: t ++ [HttpGet IMAGE_URL])
    with ([SendMessage (chat_id m) (custom_first_text n) (Some "html") None]
            ++ t ++ [HttpGet IMAGE_URL])%list.
  autorewrite with logs.
  cbn [batches edits notifications written removed photos fetch_calls filter
       is_fetch flat_map app length].
  rewrite !app_nil_r, inv_notifications0, inv_removed0, inv_fetches0.
  repeat split; auto.
  - now exists (SendMessage (chat_id m) (custom_first_text n) (Some "html") None :: t).
  - lia.
  - apply (length_div_full _ images); auto.
    now rewrite inv_content0, length_map, length_seq.
Qed.
Lemma iteration_out_facts {S} e w chat mid txt images last (mk : list bytes -> S) :
  let o := iteration_out e w chat mid txt images last mk in
  removed (log o) = [] /\ notifications (log o) = [] /\ photos (log o) = []
  /\ (forall f, exists_file f w = true -> exists_file f (after o) = true)
  /\ (forall f, In f (written (log o)) -> exists_file f (after o) = true)
  /\ (forall s, value o = Ok s ->
      written (log o) = [file_of e (uuids w)] /\ exists group, s = mk group)
  /\ value o <> Raise ValueError /\ value o <> Raise FileNotFoundError.
Proof.
  cbn zeta. unfold iteration_out.
  destruct (response e (gets w)) as [b |].
  2:{ cbn. repeat split; auto; try discriminate; contradiction. }
  cbv zeta.
  assert (Hkeep : forall f, exists_file f w = true ->
                            exists_file f (downloaded e w b) = true).
  { intros f Hf. apply exists_file_downloaded. now left. }
  assert (Hnew : forall f, file_of e (uuids w) = f \/ False ->
                           exists_file f (downloaded e w b) = true).
  { intros f [<- | []]. apply exists_file_downloaded. now right. }
  destruct (raises e edit_message_text_ _).
  { cbn. repeat split; auto; discriminate. }
  destruct (_ || _).
  - destruct (raises e send_media_group_ _); cbn;
      repeat split; auto; try discriminate.
    injection H as <-. now exists [].
  - cbn. repeat split; auto; try discriminate.
    injection H as <-. now exists (images ++ [b])%list.
Qed.

Lemma custom_loop_facts m pm n l :
  forall images fns sent e w,
    let o := for_ l (custom_body m pm n) (images, fns, sent) e w in
    removed (log o) = [] /\ notifications (log o) = [] /\ photos (log o) = []
    /\ (forall f, exists_file f w = true -> exists_file f (after o) = true)
    /\ (forall f, In f (written (log o)) -> exists_file f (after o) = true)
    /\ (forall s, value o = Ok s -> snd (fst s) = (fns ++ written (log o))%list)
    /\ value o <> Raise ValueError /\ value o <> Raise FileNotFoundError.
Proof.
  induction l as [| i l IH]; intros images fns sent e w; cbn zeta.
  - cbn. repeat split; auto; try discriminate; try contradiction.
    intros s [= <-]. cbn. now rewrite app_nil_r.
  - cbn [for_].
    pose proof (iteration_out_facts e w (chat_id m) (message_id pm)
                  (progress_text (sent + 1) n) images (i =? n)
                  (fun group => (group, (fns ++ [file_of e (uuids w)])%list, sent + 1)))
      as F.
    rewrite <- custom_body_out in F. cbn zeta in F.
    destruct (custom_body m pm n i (images, fns, sent) e w) as [t1 w1 [s1 | x]] eqn:E;
      cbn [log after value] in F;
      destruct F as (Hr & Hn & Hp & Hkeep & Hnew & Hok & Hv1 & Hv2).
    + rewrite (bind_ok _ _ _ _ _ _ _ E).
      destruct (Hok s1 eq_refl) as [Hw [group ->]].
      specialize (IH group (fns ++ [file_of e (uuids w)])%list (sent + 1) e w1).
      cbn zeta in IH.
      destruct (for_ l _ _ e w1) as [t2 w2 v2]. cbn [log after value prepend] in *.
      destruct IH as (Hr2 & Hn2 & Hp2 & Hkeep2 & Hnew2 & Hok2 & Hv3 & Hv4).
      autorewrite with logs. rewrite Hr, Hr2, Hn, Hn2, Hp, Hp2, Hw.
      repeat split; auto.
      * intros f Hf. apply in_app_or in Hf. destruct Hf as [Hf | Hf]; auto.
        apply Hkeep2, Hnew. now rewrite Hw.
      * intros s Hs. rewrite (Hok2 s Hs). now rewrite <- app_assoc.
    + rewrite (bind_raise _ _ _ _ _ _ _ E). cbn [log after value].
      repeat split; auto. discriminate.
Qed.
Lemma custom_release m n e w :
  let o := generate_custom_images m n e w in
  (value o = Ok tt -> all_released o /\ removed (log o) = written (log o))
  /\ (value o = Raise RequestException ->
      removed (log o) = []
      /\ forall f, In f (written (log o)) -> exists_file f (after o) = true).
Proof.
  cbn zeta. rewrite generate_custom_images_out. unfold run_out.
  destruct (raises e send_message_ (calls w send_message_)).
  { cbn [value]. split; discriminate. }
  set (pm := created e w (chat_id m) (custom_first_text n)).
  set (ev := SendMessage (chat_id m) (custom_first_text n) (Some "html") None).
  pose proof (custom_loop_facts m pm n (range 1 (n + 1)) [] [] 0 e
                (tick send_message_ w)) as L. cbn zeta in L.
  destruct (for_ _ _ _ e _) as [t w1 [s | x]]; cbn [log after value] in L |- *;
    destruct L as (Hr & Hn & Hp & Hkeep & Hnew & Hok & Hv1 & Hv2).
  - specialize (Hok s eq_refl). cbn [app] in Hok.
    pose proof (finish_facts m pm (snd (fst s)) e w1) as F. cbn zeta in F.
    destruct (finish m pm (snd (fst s)) e w1) as [tf wf vf].
    cbn [log after value prepend] in *.
    destruct F as (Hq & _ & _ & Hfin & Hvf).
    destruct Hq as (_ & _ & _ & _ & Hwf).
    unfold all_released. cbn [log after value prepend].
    change ((ev :: t) ++ tf)%list with ([ev] ++ t ++ tf)%list.
    autorewrite with logs. rewrite Hr, Hwf, app_nil_r. cbn [written removed flat_map app].
    split.
    + intros Hv. destruct (Hfin Hv) as (_ & Hrem & Hgone).
      rewrite Hrem, <- Hok. split; auto.
    + intros Hv. destruct Hvf as [Hvf | [Hvf | Hvf]]; congruence.
  - unfold all_released. cbn [log after].
    change (ev :: t) with ([ev] ++ t)%list.
    autorewrite with logs. rewrite Hr. cbn [written removed flat_map app].
    split; [discriminate | auto].
Qed.

(** C2, amended. A run of [generate_custom_images] or of
    [send_multiple_images] that returns has removed every file it wrote; a
    run cut short by a failing fetch has removed none: every file written
    before the failure is still on disk when the exception leaves the run. *)
Theorem files_released_only_on_return (e : env) (w : world) (m : Message) (n : Z) :
  forall o,
    o = generate_custom_images m n e w \/ o = send_multiple_images m n e w ->
    (value o = Ok tt -> all_released o /\ removed (log o) = written (log o))
    /\ (value o = Raise RequestException ->
        removed (log o) = []
        /\ forall f, In f (written (log o)) -> exists_file f (after o) = true).
Proof.
  intros o [-> | ->]; [apply custom_release |].
  pose proof (custom_release m n e w) as C. cbn zeta in C.
  destruct (runs_agree e w m n) as (Hv & Ha & rest & Hl1 & Hl2).
  unfold all_released in *. rewrite Hv, Ha, Hl1. rewrite Hl2 in C.
  exact C.
Qed.

Lemma files_released_only_on_return_witness :
  all_released (generate_custom_images (msg "20") 20 calm start)
  /\ removed (log (generate_custom_images (msg "20") 20 calm start))
     = written (log (generate_custom_images (msg "20") 20 calm start)).
Proof.
  apply (files_released_only_on_return calm start (msg "20") 20 _ (or_introl eq_refl)).
  vm_compute. reflexivity.
Defined.

(** C2 as stated fails: when the third fetch of a run of ten raises, the
    two files written before are still on disk at the end of the run. *)
Lemma files_left_after_failed_fetch :
  ~ all_released (generate_custom_images (msg "10") 10 (fetch_fails_at 2) start).
Proof.
  intros H. specialize (H "0.jpg").
  assert (Hin : In "0.jpg"
                  (written (log (generate_custom_images (msg "10") 10
                                   (fetch_fails_at 2) start)))).
  { vm_compute. now left. }
  apply H in Hin. vm_compute in Hin. discriminate.
Qed.
Lemma both_runs (P : res unit -> world -> list event -> Prop) e w m n :
  (exists body,
      log (generate_custom_images m n e w) = first_call m (custom_first_text n) :: body
      /\ P (value (generate_custom_images m n e w))
           (after (generate_custom_images m n e w)) body) ->
  forall o first,
    relay_run e w m n o first ->
    exists body, log o = first_call m first :: body /\ P (value o) (after o) body.
Proof.
  intros (body & Hlog & HP) o first [[-> ->] | [-> ->]].
  - now exists body.
  - destruct (runs_agree e w m n) as (Hv & Ha & rest & Hl1 & Hl2).
    rewrite Hlog in Hl2. injection Hl2 as <-.
    exists body. rewrite Hv, Ha. now split.
Qed.

(** C4. On the success path of a run for [n] images in 1..MAX_IMAGES, by
    [generate_custom_images] or by [send_multiple_images], the run opens with
    one progress notification; the calls that follow edit that same message
    (the handle Telegram returned for it) exactly [n] times, the i-th edit
    showing [i/n] for i = 1, 2, ..., n; and no new message is sent except the
    completion notice at the very end. *)
Theorem progress_edited_in_place (e : env) (w : world) (m : Message) (n : Z)
    (o : out unit) (first : string) :
  relay_run e w m n o first ->
  1 <= n <= MAX_IMAGES ->
  api_ok e ->
  fetches_ok e (gets w) (Z.to_nat n) ->
  exists body,
    log o = first_call m first :: body
    /\ edits body
       = map (fun i => (chat_id m, assigned_id e (calls w send_message_),
                        progress_text (Z.of_nat i) n)) (seq 1 (Z.to_nat n))
    /\ length (edits body) = Z.to_nat n
    /\ (notifications body = [] \/ notifications body = [done_text]).
Proof.
  intros Hrun [Hn _] Ha Hf.
  apply (both_runs
           (fun _ _ body =>
              edits body
              = map (fun i => (chat_id m, assigned_id e (calls w send_message_),
                               progress_text (Z.of_nat i) n)) (seq 1 (Z.to_nat n))
              /\ length (edits body) = Z.to_nat n
              /\ (notifications body = [] \/ notifications body = [done_text]))
           e w m n); [| exact Hrun].
  destruct (custom_run_success m n e w) as (t & tf & w' & full & final & Hlog & D & Hq & Hnote);
    auto.
  exists (t ++ tf)%list. split; [exact Hlog |].
  destruct D, Hq as (_ & _ & Hqe & _).
  autorewrite with logs. rewrite Hqe, done_edits0, done_notifications0, app_nil_r.
  cbn [message_id created app]. repeat split; auto.
  now rewrite length_map, length_seq.
Qed.

Lemma progress_edited_in_place_witness :
  exists body,
    log (generate_custom_images (msg "3") 3 calm start)
    = first_call (msg "3") (custom_first_text 3) :: body
    /\ edits body
       = map (fun i => (chat_id (msg "3"), assigned_id calm (calls start send_message_),
                        progress_text (Z.of_nat i) 3)) (seq 1 (Z.to_nat 3))
    /\ length (edits body) = Z.to_nat 3
    /\ (notifications body = [] \/ notifications body = [done_text]).
Proof.
  apply (progress_edited_in_place calm start (msg "3") 3).
  - left. split; reflexivity.
  - unfold MAX_IMAGES. lia.
  - intros a k. reflexivity.
  - intros j _. discriminate.
Defined.

(** C5, amended. A failure of the progress edit is not swallowed. When the
    edit of image [k+1] raises after [k] iterations without failure, the run
    (of either function) raises the exception of the edit, and that edit is
    its last call: no later fetch, edit or grouped send is made, the group
    being accumulated is not delivered, and no file is removed. *)
Theorem edit_failure_aborts (e : env) (w : world) (m : Message) (n : Z) (k : nat)
    (o : out unit) (first : string) :
  relay_run e w m n o first ->
  Z.of_nat k < n ->
  raises e send_message_ (calls w send_message_) = false ->
  fetches_ok e (gets w) (S k) ->
  edits_ok e (calls w edit_message_text_) k ->
  groups_ok e ->
  raises e edit_message_text_ (calls w edit_message_text_ + k) = true ->
  exists body,
    log o = first_call m first :: body
    /\ value o = Raise ApiTelegramException
    /\ (exists before,
           body = (before ++ [EditMessageText (chat_id m)
                                (assigned_id e (calls w send_message_))
                                (progress_text (Z.of_nat k + 1) n)])%list)
    /\ fetch_calls body = S k
    /\ length (edits body) = S k
    /\ Forall (fun b => length b = 9%nat) (batches body)
    /\ length (batches body) = (k / 9)%nat
    /\ removed body = []
    /\ notifications body = [].
Proof.
  intros Hrun Hk Hsend Hf He Hs Hfail.
  apply (both_runs
           (fun v _ body =>
              v = Raise ApiTelegramException
              /\ (exists before,
                     body = (before ++ [EditMessageText (chat_id m)
                                          (assigned_id e (calls w send_message_))
                                          (progress_text (Z.of_nat k + 1) n)])%list)
              /\ fetch_calls body = S k
              /\ length (edits body) = S k
              /\ Forall (fun b => length b = 9%nat) (batches body)
              /\ length (batches body) = (k / 9)%nat
              /\ removed body = []
              /\ notifications body = [])
           e w m n); [| exact Hrun].
  destruct (custom_run_aborts m n e w k) as (t & w' & images & I & Habort); auto.
  { intros j Hj. apply Hf. lia. }
  destruct I. cbn [gets uuids calls tick api_eqb] in *.
  assert (Hb : response e (gets w') = Some (payload e (gets w + k))).
  { rewrite inv_gets0. apply (response_payload e (gets w) (S k)); auto. }
  erewrite Habort.
  2:{ rewrite custom_body_out. unfold iteration_out.
      rewrite Hb, inv_edit_calls0, Hfail. reflexivity. }
  eexists. split; [reflexivity |]. cbn [value after].
  unfold iteration_log. autorewrite with logs.
  cbn [batches edits notifications written removed photos fetch_calls filter
       is_fetch flat_map app length message_id created].
  rewrite !app_nil_r, inv_notifications0, inv_removed0, inv_fetches0, inv_edits0.
  rewrite length_app, length_map, length_seq. cbn [length].
  repeat split; auto; try lia.
  - eexists (t ++ [_; _; _])%list. rewrite <- app_assoc. reflexivity.
  - apply (length_div_full _ images); auto.
    now rewrite inv_content0, length_map, length_seq.
Qed.
Lemma edit_failure_aborts_witness :
  exists body,
    log (generate_custom_images (msg "2") 2 (api_fails_at edit_message_text_ 0) start)
    = first_call (msg "2") (custom_first_text 2) :: body
    /\ value (generate_custom_images (msg "2") 2 (api_fails_at edit_message_text_ 0) start)
       = Raise ApiTelegramException
    /\ (exists before,
           body = (before ++ [EditMessageText (chat_id (msg "2"))
                                (assigned_id (api_fails_at edit_message_text_ 0)
                                   (calls start send_message_))
                                (progress_text (Z.of_nat 0 + 1) 2)])%list)
    /\ fetch_calls body = 1%nat
    /\ length (edits body) = 1%nat
    /\ Forall (fun b => length b = 9%nat) (batches body)
    /\ length (batches body) = (0 / 9)%nat
    /\ removed body = []
    /\ notifications body = [].
Proof.
  apply (edit_failure_aborts (api_fails_at edit_message_text_ 0) start (msg "2") 2 0).
  - left. split; reflexivity.
  - lia.
  - reflexivity.
  - intros j _. discriminate.
  - intros j Hj. lia.
  - intros j. reflexivity.
  - reflexivity.
Defined.

(** C5 as stated fails: when the first edit of a run of two images raises,
    the loop stops after one fetch and delivers nothing. *)
Lemma edit_failure_stops_the_loop :
  ~ edit_failure_swallowed
      (generate_custom_images (msg "2") 2 (api_fails_at edit_message_text_ 0) start) 2.
Proof. intros [H _]. vm_compute in H. discriminate. Qed.

Lemma fetch_failure_aborts_witness :
  let o := generate_custom_images (msg "10") 10 (fetch_fails_at 2) start in
  value o = Raise RequestException
  /\ (exists before, log o = (before ++ [HttpGet IMAGE_URL])%list)
  /\ fetch_calls (log o) = 3%nat
  /\ Forall (fun b => length b = 9%nat) (batches (log o))
  /\ length (batches (log o)) = (2 / 9)%nat
  /\ notifications (log o) = [custom_first_text 10]
  /\ removed (log o) = []
  /\ written (log o) = map (file_of (fetch_fails_at 2)) (seq (uuids start) 2)
  /\ forall f, In f (written (log o)) -> exists_file f (after o) = true.
Proof.
  apply (fetch_failure_aborts (fetch_fails_at 2) start (msg "10") 10 2).
  - lia.
  - intros a k. reflexivity.
  - intros [| [| j]] Hj; [discriminate | discriminate | lia].
  - reflexivity.
Defined.

(** C3 as stated fails: when the third fetch of a run of ten raises, the
    failing fetch is the last call of the run, so no notification follows
    it (and the two files written before stay on disk). *)
Lemma no_notification_after_failed_fetch :
  ~ fetch_failure_contained
      (generate_custom_images (msg "10") 10 (fetch_fails_at 2) start) 3.
Proof. intros (_ & _ & H & _). apply H. vm_compute. reflexivity. Qed.

(** C9 as stated fails: for nine images the two runs differ in their first
    call, the text of the first progress notification. *)
Lemma first_text_differs :
  ~ same_effects calm start (msg "Получить 9 изображений") 9.
Proof.
  intros H. apply (f_equal (fun t => hd_error (notifications t))) in H.
  vm_compute in H. discriminate.
Qed.
(** C6, amended. [download_image] raises if and only if the network call
    raises, and then with the exception of the call, before any file is
    written.  Whatever body the upstream returns, an empty one included, is
    written to the new file and the name of the file is returned: the body
    is not inspected. *)
Theorem download_fails_only_with_network (e : env) (w : world) :
  let o := download_image e w in
  ((exists x, value o = Raise x) <-> response e (gets w) = None)
  /\ (response e (gets w) = None ->
      value o = Raise RequestException /\ written (log o) = [])
  /\ (forall b, response e (gets w) = Some b ->
      value o = Ok (file_of e (uuids w))
      /\ lookup (file_of e (uuids w)) (files (after o)) = Some b).
Proof.
  cbn zeta. destruct (response e (gets w)) as [b |] eqn:Hg.
  - rewrite (download_image_ok _ _ _ Hg). cbn [value log after].
    split; [| split].
    + split; [intros [x Hx] |]; discriminate.
    + discriminate.
    + intros b' [= <-]. split; [reflexivity |].
      unfold downloaded. cbn [files set_files]. apply lookup_head.
  - rewrite (download_image_raise _ _ Hg). cbn [value log after].
    split; [| split].
    + split; [reflexivity | now exists RequestException].
    + now split.
    + discriminate.
Qed.

Lemma download_fails_only_with_network_witness :
  value (download_image empty_body start) = Ok (file_of empty_body (uuids start))
  /\ lookup (file_of empty_body (uuids start))
       (files (after (download_image empty_body start))) = Some [].
Proof.
  apply (download_fails_only_with_network empty_body start). reflexivity.
Defined.

(** C6 as stated fails: an empty body is stored as a fetched image, no
    error is raised. *)
Lemma empty_body_is_stored : ~ fetch_error_iff empty_body start.
Proof.
  intros [_ H]. destruct H as [x Hx]; [now right |].
  vm_compute in Hx. discriminate.
Qed.

(** C10. For every text message, [handle_text] first tries to delete the
    message whose identifier is one less than that of the incoming message;
    if the deletion raises, the error is printed and nothing else changes:
    the dispatch on the text runs from the same state, and so issues the same
    calls with the same outcome, whether the deletion succeeded or not. *)
Theorem handle_text_deletes_previous_first (e : env) (w : world) (m : Message) :
  handle_text m e w =
  prepend
    (DeleteMessage (chat_id m) (message_id m - 1)
       :: if raises e delete_message_ (calls w delete_message_)
          then [Stdout "Ошибка при удалении сообщения: " ApiTelegramException]
          else [])
    (dispatch m (PyStr.lower (PyStr.strip (text m))) e (tick delete_message_ w)).
Proof.
  unfold handle_text.
  destruct (raises e delete_message_ (calls w delete_message_)) eqn:E.
  - erewrite bind_ok; [reflexivity |].
    unfold try_except, delete_message. rewrite (bot_unit_raise _ _ _ _ E).
    reflexivity.
  - erewrite bind_ok; [reflexivity |].
    unfold try_except, delete_message. rewrite (bot_unit_ok _ _ _ _ E).
    reflexivity.
Qed.
Lemma send_single_image_ok m e w b :
  api_ok e ->
  response e (gets w) = Some b ->
  send_single_image m e w =
  Out [HttpGet IMAGE_URL; FileWrite (file_of e (uuids w)) b;
       FileRead (file_of e (uuids w)); SendPhoto (chat_id m) b;
       FileRemove (file_of e (uuids w));
       DeleteMessage (chat_id m) (message_id m);
       SendMessage (chat_id m) done_text (Some "html") (Some create_main_markup)]
    (tick send_message_
       (tick delete_message_
          (set_files (unlink (file_of e (uuids w)) (files (downloaded e w b)))
             (tick send_photo_ (downloaded e w b)))))
    (Ok tt).
Proof.
  intros Ha Hg. unfold send_single_image.
  erewrite bind_ok by (apply download_image_ok; exact Hg).
  erewrite bind_ok by apply read_downloaded.
  erewrite bind_ok by (apply bot_unit_ok; apply Ha).
  erewrite bind_ok.
  2:{ rewrite os_remove_out.
      change (exists_file (file_of e (uuids w)) (tick send_photo_ (downloaded e w b)))
        with (exists_file (file_of e (uuids w)) (downloaded e w b)).
      rewrite exists_file_downloaded by now right. reflexivity. }
  erewrite bind_ok by apply try_delete.
  erewrite bind_ok by (rewrite send_message_out, Ha; reflexivity).
  reflexivity.
Qed.

(** C8, amended. The "one image" intent is not a run of the relay: the
    dispatch sends it to [send_single_image], which on the success path makes
    one fetch and delivers the image with one [send_photo] call, with no
    grouped send and no progress notification (its only message is the
    completion notice), then removes the file.  Scenario A holds for the
    relay itself: a run of [generate_custom_images] for one image makes one
    fetch, one grouped send of one image, and shows 0/1 then 1/1. *)
Theorem one_image_is_a_single_photo (e : env) (w : world) (m : Message) (b : bytes) :
  api_ok e ->
  response e (gets w) = Some b ->
  dispatch m "получить изображение" = send_single_image m
  /\ (let o := send_single_image m e w in
      value o = Ok tt
      /\ fetch_calls (log o) = 1%nat
      /\ photos (log o) = [b]
      /\ batches (log o) = []
      /\ edits (log o) = []
      /\ notifications (log o) = [done_text]
      /\ removed (log o) = written (log o))
  /\ one_image_via_relay (generate_custom_images m 1 e w)
  /\ batches (log (generate_custom_images m 1 e w)) = [[b]].
Proof.
  intros Ha Hg. split; [reflexivity |]. split.
  { rewrite (send_single_image_ok m e w b Ha Hg). cbn. repeat split. }
  destruct (custom_run_success m 1 e w) as (t & tf & w' & full & final & Hlog & D & Hq & Hnote);
    auto; try lia.
  { intros j Hj. replace j with O by (cbn in Hj; lia). rewrite Nat.add_0_r, Hg. discriminate. }
  unfold one_image_via_relay. rewrite Hlog.
  destruct D, Hq as (Hq1 & Hq2 & Hq3 & _).
  change (SendMessage (chat_id m) (custom_first_text 1) (Some "html") None :: t ++ tf)
    with ([SendMessage (chat_id m) (custom_first_text 1) (Some "html") None] ++ t ++ tf)%list.
  autorewrite with logs.
  rewrite Hq1, Hq2, Hq3, done_batches0, done_fetches0, done_edits0, done_notifications0.
  change (Z.to_nat 1) with 1%nat in *.
  cbn [gets tick seq map] in done_content0.
  unfold payload in done_content0. rewrite Hg in done_content0.
  assert (Hfull : full = []).
  { destruct full as [| g full]; [reflexivity |].
    apply (f_equal (@length _)) in done_content0.
    inversion done_full0 as [| ? ? Hg9 _]; subst.
    cbn [concat] in done_content0. rewrite !length_app, Hg9 in done_content0.
    cbn in done_content0. lia. }
  subst full. cbn [concat app] in done_content0. subst final.
  cbn. repeat split.
Qed.

Lemma one_image_is_a_single_photo_witness :
  dispatch (msg "Получить изображение") "получить изображение"
  = send_single_image (msg "Получить изображение")
  /\ (let o := send_single_image (msg "Получить изображение") calm start in
      value o = Ok tt
      /\ fetch_calls (log o) = 1%nat
      /\ photos (log o) = [[byte_of 0]]
      /\ batches (log o) = []
      /\ edits (log o) = []
      /\ notifications (log o) = [done_text]
      /\ removed (log o) = written (log o))
  /\ one_image_via_relay
       (generate_custom_images (msg "Получить изображение") 1 calm start)
  /\ batches (log (generate_custom_images (msg "Получить изображение") 1 calm start))
     = [[[byte_of 0]]].
Proof.
  apply (one_image_is_a_single_photo calm start (msg "Получить изображение")
           [byte_of 0]).
  - intros a k. reflexivity.
  - reflexivity.
Defined.

(** C8 as stated fails: the handler of the "one image" button makes no
    grouped send and shows no progress. *)
Lemma one_image_skips_the_relay :
  ~ one_image_via_relay (handle_text (msg "Получить изображение") calm start).
Proof. intros (_ & H & _). vm_compute in H. discriminate. Qed.
Lemma generate_custom_images_no_ValueError m n :
  no_ValueError (generate_custom_images m n).
Proof.
  intros e w. rewrite generate_custom_images_out. unfold run_out.
  destruct (raises e send_message_ (calls w send_message_)); [discriminate |].
  set (pm := created e w (chat_id m) (custom_first_text n)).
  pose proof (custom_loop_facts m pm n (range 1 (n + 1)) [] [] 0 e
                (tick send_message_ w)) as L. cbn zeta in L.
  destruct (for_ _ _ _ e _) as [t w1 [s | x]]; cbn [log after value] in L |- *;
    destruct L as (_ & _ & _ & _ & _ & _ & Hv & _);
    [| intros [= ->]; now apply Hv].
  pose proof (finish_facts m pm (snd (fst s)) e w1) as F. cbn zeta in F.
  destruct F as (_ & _ & _ & _ & [Hf | [Hf | Hf]]);
    cbn [prepend value]; rewrite Hf; discriminate.
Qed.




(** [try: c  except ValueError: h] around a computation that raises no
    [ValueError] of its own: the clause is entered only by an exception of
    [requests] that is a [ValueError] as well. *)
Lemma try_except_ValueError_out {A} (c : M A) h e w :
  value (c e w) <> Raise ValueError ->
  try_except c except_ValueError h e w
  = match value (c e w) with
    | Raise RequestException =>
        if match gets (after (c e w)) with O => false | S n => value_error e n end
        then prepend (log (c e w)) (h RequestException e (after (c e w)))
        else c e w
    | _ => c e w
    end.
Proof.
  intros H. unfold try_except.
  destruct (value (c e w)) as [a | []]; try reflexivity. now elim H.
Qed.







(* ================================================================== *)
(** ** Further properties of the code *)

(** The success path of a run, with the end of the run kept apart. *)
Lemma custom_run_success_finish m n e w :
  1 <= n ->
  raises e send_message_ (calls w send_message_) = false ->
  fetches_ok e (gets w) (Z.to_nat n) ->
  edits_ok e (calls w edit_message_text_) (Z.to_nat n) ->
  groups_ok e ->
  let pm := created e w (chat_id m) (custom_first_text n) in
  exists t w' full final,
    generate_custom_images m n e w
    = prepend (first_call m (custom_first_text n) :: t)
        (finish m pm (map (file_of e) (seq (uuids w) (Z.to_nat n))) e w')
    /\ loop_done e (tick send_message_ w) m pm n t w' full final.
Proof.
  intros Hn Hsend Hf He Hs pm. rewrite generate_custom_images_out. unfold run_out.
  rewrite Hsend. fold pm.
  destruct (custom_loop_complete m pm n e (tick send_message_ w))
    as (t & w' & full & final & Hrun & D); auto.
  rewrite Hrun. cbn [value log after fst snd uuids tick].
  now exists t, w', full, final.
Qed.

Lemma relay_groups_success (e : env) (w : world) (m : Message) (n : Z)
    (o : out unit) (first : string) :
  relay_run e w m n o first ->
  1 <= n ->
  api_ok e ->
  fetches_ok e (gets w) (Z.to_nat n) ->
  exists body full final,
    log o = first_call m first :: body
    /\ fetch_calls body = Z.to_nat n
    /\ batches body = (full ++ [final])%list
    /\ Forall (fun b => Z.of_nat (length b) = GROUP_SIZE) full
    /\ 1 <= Z.of_nat (length final) <= GROUP_SIZE
    /\ Z.of_nat (length (batches body)) = (n + GROUP_SIZE - 1) / GROUP_SIZE
    /\ concat (batches body) = map (payload e) (seq (gets w) (Z.to_nat n))
    /\ (n = 9 -> batches body = [map (payload e) (seq (gets w) 9)]).
Proof.
  intros Hrun Hn Ha Hf.
  destruct (both_runs
              (fun _ _ body =>
                 exists full final,
                   fetch_calls body = Z.to_nat n
                   /\ batches body = (full ++ [final])%list
                   /\ Forall (fun b => Z.of_nat (length b) = GROUP_SIZE) full
                   /\ 1 <= Z.of_nat (length final) <= GROUP_SIZE
                   /\ Z.of_nat (length (batches body)) = (n + GROUP_SIZE - 1) / GROUP_SIZE
                   /\ concat (batches body) = map (payload e) (seq (gets w) (Z.to_nat n))
                   /\ (n = 9 -> batches body = [map (payload e) (seq (gets w) 9)]))
              e w m n) with (o := o) (first := first)
    as (body & Hlog & full & final & H); [| exact Hrun | now exists body, full, final].
  destruct (custom_run_success m n e w)
    as (t & tf & w' & full & final & Hlog & D & Hq & _); auto.
  exists (t ++ tf)%list. split; [exact Hlog |]. exists full, final.
  destruct D, Hq as (Hq1 & Hq2 & _).
  autorewrite with logs. rewrite Hq1, Hq2, done_batches0, done_fetches0, app_nil_r.
  cbn [gets tick] in done_content0.
  assert (Hcat : concat (full ++ [final]) = (concat full ++ final)%list).
  { rewrite concat_app. cbn [concat]. now rewrite app_nil_r. }
  assert (Hsum : (9 * length full + length final = Z.to_nat n)%nat).
  { rewrite <- (length_concat_full full), <- length_app, done_content0 by assumption.
    now rewrite length_map, length_seq. }
  unfold GROUP_SIZE. repeat split; try lia.
  - eapply Forall_impl; [| exact done_full0]. cbn. intros b Hb. lia.
  - rewrite length_app. cbn [length].
    apply (Z.div_unique _ _ _ (Z.of_nat (length final) - 1)); lia.
  - now rewrite Hcat.
  - intros ->. change (Z.to_nat 9) with 9%nat in *.
    assert (length full = O) by lia.
    destruct full; [| discriminate]. cbn [app concat] in *. now subst final.
Qed.

(** X1. On the success path a run for any count [n >= 1], by
    [send_multiple_images] as by [generate_custom_images], makes [n] fetches;
    its grouped sends are full groups of nine followed by one last group of
    one to nine images, ceil(n / 9) sends in all, and put end to end they are
    the [n] payloads in the order fetched.  For [n = 9] there is exactly one
    grouped send, of all nine images. *)
Theorem relay_groups_in_order (e : env) (w : world) (m : Message) (n : Z)
    (o : out unit) (first : string) :
  relay_run e w m n o first ->
  1 <= n ->
  api_ok e ->
  fetches_ok e (gets w) (Z.to_nat n) ->
  exists body full final,
    log o = first_call m first :: body
    /\ fetch_calls body = Z.to_nat n
    /\ batches body = (full ++ [final])%list
    /\ Forall (fun b => Z.of_nat (length b) = GROUP_SIZE) full
    /\ 1 <= Z.of_nat (length final) <= GROUP_SIZE
    /\ Z.of_nat (length (batches body)) = (n + GROUP_SIZE - 1) / GROUP_SIZE
    /\ concat (batches body) = map (payload e) (seq (gets w) (Z.to_nat n))
    /\ (n = 9 -> batches body = [map (payload e) (seq (gets w) 9)]).
Proof. exact (relay_groups_success e w m n o first). Qed.

Lemma relay_groups_in_order_witness :
  exists body full final,
    log (send_multiple_images (msg "Получить 9 изображений") 9 calm start)
    = first_call (msg "Получить 9 изображений") (multiple_first_text 9) :: body
    /\ fetch_calls body = Z.to_nat 9
    /\ batches body = (full ++ [final])%list
    /\ Forall (fun b => Z.of_nat (length b) = GROUP_SIZE) full
    /\ 1 <= Z.of_nat (length final) <= GROUP_SIZE
    /\ Z.of_nat (length (batches body)) = (9 + GROUP_SIZE - 1) / GROUP_SIZE
    /\ concat (batches body) = map (payload calm) (seq (gets start) (Z.to_nat 9))
    /\ (9 = 9 -> batches body = [map (payload calm) (seq (gets start) 9)]).
Proof.
  apply (relay_groups_in_order calm start (msg "Получить 9 изображений") 9).
  - right. split; reflexivity.
  - lia.
  - intros a k. reflexivity.
  - intros j _. discriminate.
Defined.

(** X2. A run for a count [n <= 0] (the loop body never runs) fetches
    nothing and sends no group: after the first progress notification it
    only deletes that notification and sends the completion notice. *)
Theorem relay_empty_count (e : env) (w : world) (m : Message) (n : Z)
    (o : out unit) (first : string) :
  relay_run e w m n o first ->
  n <= 0 ->
  raises e send_message_ (calls w send_message_) = false ->
  log o = [first_call m first;
           DeleteMessage (chat_id m) (assigned_id e (calls w send_message_));
           SendMessage (chat_id m) done_text (Some "html") (Some create_main_markup)]
  /\ fetch_calls (log o) = O
  /\ batches (log o) = []
  /\ files (after o) = files w.
Proof.
  intros Hrun Hn Hsend.
  assert (Hr : range 1 (n + 1) = []).
  { unfold range. replace (Z.to_nat (n + 1 - 1)) with O by lia. reflexivity. }
  destruct Hrun as [[-> ->] | [-> ->]].
  - rewrite generate_custom_images_out. unfold run_out. rewrite Hsend, Hr.
    cbn [for_ ret value log after fst snd]. unfold finish.
    erewrite bind_ok by apply try_delete. cbn [for_].
    erewrite bind_ok by reflexivity.
    destruct (raises e send_message_ (calls (tick delete_message_ (tick send_message_ w))
                                        send_message_)) eqn:E.
    + erewrite bind_raise by (rewrite send_message_out, E; reflexivity).
      cbn. repeat split.
    + erewrite bind_ok by (rewrite send_message_out, E; reflexivity).
      cbn. repeat split.
  - rewrite send_multiple_images_out. unfold run_out. rewrite Hsend, Hr.
    cbn [for_ ret value log after fst snd]. unfold finish.
    erewrite bind_ok by apply try_delete. cbn [for_].
    erewrite bind_ok by reflexivity.
    destruct (raises e send_message_ (calls (tick delete_message_ (tick send_message_ w))
                                        send_message_)) eqn:E.
    + erewrite bind_raise by (rewrite send_message_out, E; reflexivity).
      cbn. repeat split.
    + erewrite bind_ok by (rewrite send_message_out, E; reflexivity).
      cbn. repeat split.
Qed.

Lemma relay_empty_count_witness :
  log (generate_custom_images (msg "0") 0 calm start)
  = [first_call (msg "0") (custom_first_text 0);
     DeleteMessage (chat_id (msg "0")) (assigned_id calm (calls start send_message_));
     SendMessage (chat_id (msg "0")) done_text (Some "html") (Some create_main_markup)]
  /\ fetch_calls (log (generate_custom_images (msg "0") 0 calm start)) = O
  /\ batches (log (generate_custom_images (msg "0") 0 calm start)) = []
  /\ files (after (generate_custom_images (msg "0") 0 calm start)) = files start.
Proof.
  apply (relay_empty_count calm start (msg "0") 0).
  - left. split; reflexivity.
  - lia.
  - reflexivity.
Defined.

Lemma exists_file_unlink_other f g w :
  String.eqb g f = false ->
  exists_file g (set_files (unlink f (files w)) w) = exists_file g w.
Proof.
  intros H. unfold exists_file. cbn [files set_files].
  now rewrite lookup_unlink_other.
Qed.

Lemma removal_loop_ok fns e w :
  NoDup fns ->
  (forall f, In f fns -> exists_file f w = true) ->
  value (for_ fns (fun file _ => os_remove file) tt e w) = Ok tt.
Proof.
  revert w. induction fns as [| f fns IH]; intros w Hnd Hex; [reflexivity |].
  inversion Hnd as [| ? ? Hnotin Hnd']; subst. cbn [for_].
  erewrite bind_ok.
  2:{ rewrite os_remove_out, (Hex f) by now left. reflexivity. }
  cbn [prepend value]. apply IH; [exact Hnd' |].
  intros g Hg. rewrite exists_file_unlink_other; [apply Hex; now right |].
  apply String.eqb_neq. intros ->. contradiction.
Qed.

(** X3. When no call fails and the names drawn for the [n] files are
    pairwise distinct, a run (of either function) returns normally: after the
    loop it deletes the progress message, removes exactly the files it wrote,
    in the order written, and ends with the completion notice, its only
    message besides the first progress notification. *)
Theorem relay_returns_and_cleans (e : env) (w : world) (m : Message) (n : Z)
    (o : out unit) (first : string) :
  relay_run e w m n o first ->
  1 <= n ->
  api_ok e ->
  fetches_ok e (gets w) (Z.to_nat n) ->
  NoDup (map (file_of e) (seq (uuids w) (Z.to_nat n))) ->
  exists body,
    log o = first_call m first :: body
    /\ value o = Ok tt
    /\ notifications body = [done_text]
    /\ written body = map (file_of e) (seq (uuids w) (Z.to_nat n))
    /\ removed body = written body
    /\ (forall f, In f (written body) -> exists_file f (after o) = false)
    /\ exists before,
         body = (before ++ [SendMessage (chat_id m) done_text (Some "html")
                              (Some create_main_markup)])%list.
Proof.
  intros Hrun Hn Ha Hf Hnd.
  apply (both_runs
           (fun v a body =>
              v = Ok tt
              /\ notifications body = [done_text]
              /\ written body = map (file_of e) (seq (uuids w) (Z.to_nat n))
              /\ removed body = written body
              /\ (forall f, In f (written body) -> exists_file f a = false)
              /\ exists before,
                   body = (before ++ [SendMessage (chat_id m) done_text (Some "html")
                                        (Some create_main_markup)])%list)
           e w m n); [| exact Hrun].
  destruct (custom_run_success_finish m n e w)
      as (t & w' & full & final & Hgen & D); auto.
    { intros j _. apply Ha. }
    { intros j. apply Ha. }
    rewrite Hgen. clear Hgen. destruct D. cbn [uuids tick] in *.
    set (names := map (file_of e) (seq (uuids w) (Z.to_nat n))) in *.
    set (pm := created e w (chat_id m) (custom_first_text n)).
    assert (Hfin : exists wf,
               finish m pm names e w'
               = Out (DeleteMessage (chat_id m) (message_id pm)
                        :: log (for_ names (fun file _ => os_remove file) tt e
                                  (tick delete_message_ w'))
                        ++ [SendMessage (chat_id m) done_text (Some "html")
                              (Some create_main_markup)])
                   wf (Ok tt)
               /\ forall f, In f names -> exists_file f wf = false).
    { unfold finish. erewrite bind_ok by apply try_delete.
      pose proof (removal_loop_ok names e (tick delete_message_ w') Hnd) as Hok.
      pose proof (removal_loop names e (tick delete_message_ w')) as R.
      cbn zeta in R. destruct R as (_ & _ & _ & Hgone & _).
      destruct (for_ names (fun file _ => os_remove file) tt e
                  (tick delete_message_ w')) as [tr wr vr] eqn:E.
      cbn [log after value] in *.
      rewrite Hok in * by (intros f Hin; apply done_files0; now rewrite done_written0).
      erewrite bind_ok by exact E.
      erewrite bind_ok by (rewrite send_message_out, Ha; reflexivity).
      eexists. split; [reflexivity |].
      intros f Hin. now apply Hgone. }
    destruct Hfin as (wf & -> & Hgone).
    pose proof (removal_loop names e (tick delete_message_ w')) as R.
    cbn zeta in R. destruct R as (Hq & Hn0 & _ & Hrem & _).
    rewrite (removal_loop_ok names e (tick delete_message_ w') Hnd) in Hrem
      by (intros f Hin; apply done_files0; now rewrite done_written0).
    destruct (Hrem eq_refl) as [Hrem' _]. destruct Hq as (_ & _ & _ & _ & Hqw).
    cbn [prepend log after value].
    set (tr := log (for_ names (fun file _ => os_remove file) tt e
                      (tick delete_message_ w'))) in *.
    exists (t ++ [DeleteMessage (chat_id m) (message_id pm)] ++ tr
              ++ [SendMessage (chat_id m) done_text (Some "html")
                    (Some create_main_markup)])%list.
    split; [reflexivity |].
    autorewrite with logs.
    rewrite done_notifications0, done_written0, done_removed0, Hn0, Hqw, Hrem'.
    cbn [notifications written removed flat_map]. rewrite !app_nil_r.
    repeat split; auto.
    exists (t ++ [DeleteMessage (chat_id m) (message_id pm)] ++ tr)%list.
    now rewrite <- !app_assoc.
Qed.

Lemma relay_returns_and_cleans_witness :
  exists body,
    log (generate_custom_images (msg "3") 3 calm start)
    = first_call (msg "3") (custom_first_text 3) :: body
    /\ value (generate_custom_images (msg "3") 3 calm start) = Ok tt
    /\ notifications body = [done_text]
    /\ written body = map (file_of calm) (seq (uuids start) (Z.to_nat 3))
    /\ removed body = written body
    /\ (forall f, In f (written body) ->
                  exists_file f (after (generate_custom_images (msg "3") 3 calm start))
                  = false)
    /\ exists before,
         body = (before ++ [SendMessage (chat_id (msg "3")) done_text (Some "html")
                              (Some create_main_markup)])%list.
Proof.
  apply (relay_returns_and_cleans calm start (msg "3") 3).
  - left. split; reflexivity.
  - lia.
  - intros a k. reflexivity.
  - intros j _. discriminate.
  - vm_compute. repeat constructor; cbn; intuition discriminate.
Defined.

Lemma lookup_downloaded_other e w b g :
  g <> file_of e (uuids w) ->
  lookup g (files (downloaded e w b)) = lookup g (files w).
Proof.
  intros H. unfold downloaded. cbn [files set_files].
  unfold lookup at 1. cbn [find fst].
  assert (E : String.eqb (file_of e (uuids w)) g = false).
  { apply String.eqb_neq. congruence. }
  rewrite E. fold (lookup g (unlink (file_of e (uuids w)) (files w))).
  apply lookup_unlink_other. now rewrite String.eqb_sym.
Qed.

(** One iteration in any environment. *)
Lemma iteration_out_any {St} e w chat mid txt images last (mk : list bytes -> St) :
  (length images < 9)%nat ->
  let o := iteration_out e w chat mid txt images last mk in
  Forall (fun b => (1 <= length b <= 9)%nat) (batches (log o))
  /\ fetch_calls (log o) = 1%nat
  /\ (length (written (log o)) <= 1)%nat
  /\ length (edits (log o)) = length (written (log o))
  /\ Forall (fun ev => addressed chat ev = true) (log o)
  /\ Forall (fun ed => fst ed = (chat, mid)) (edits (log o))
  /\ removed (log o) = []
  /\ (forall g, ~ In g (written (log o)) ->
                lookup g (files (after o)) = lookup g (files w))
  /\ (exists pending,
         (concat (batches (log o)) ++ pending)%list
         = (images ++ map (payload e) (seq (gets w) (length (written (log o)))))%list
         /\ forall s, value o = Ok s ->
                      s = mk pending /\ (length pending < 9)%nat
                      /\ written (log o) = [file_of e (uuids w)]
                      /\ gets (after o) = S (gets w)).
Proof.
  intros Hlen. cbn zeta. unfold iteration_out, iteration_log, payload.
  destruct (response e (gets w)) as [b |] eqn:Hg.
  2:{ cbn. repeat split; auto.
      exists images. rewrite app_nil_r. split; [reflexivity | discriminate]. }
  cbv zeta.
  assert (Hframe : forall g, ~ (file_of e (uuids w) = g \/ False) ->
                             lookup g ((file_of e (uuids w), b)
                                         :: unlink (file_of e (uuids w)) (files w))
                             = lookup g (files w)).
  { intros g Hg'. apply (lookup_downloaded_other e w b g).
    intros ->. apply Hg'. now left. }
  assert (Hlen' : (length (images ++ [b]) = S (length images))%nat).
  { rewrite length_app. cbn. lia. }
  destruct (raises e edit_message_text_ _).
  { cbn -[Z.eqb]. rewrite Hg.
    repeat split; auto; try (repeat constructor; apply Z.eqb_refl).
    exists (images ++ [b])%list. split; [reflexivity | discriminate]. }
  destruct (_ || _) eqn:Hflush.
  - destruct (raises e send_media_group_ _); cbn -[Z.eqb]; rewrite Hg;
      repeat split; auto; try (repeat constructor; apply Z.eqb_refl);
      try (constructor; [lia | constructor]).
    + exists []. rewrite !app_nil_r. split; [reflexivity | discriminate].
    + exists []. rewrite !app_nil_r. split; [reflexivity |].
      intros s [= <-]. repeat split; auto. cbn. lia.
  - cbn -[Z.eqb]. rewrite Hg.
    repeat split; auto; try (repeat constructor; apply Z.eqb_refl).
    exists (images ++ [b])%list. split; [reflexivity |].
    intros s [= <-]. repeat split; auto.
    apply orb_false_iff in Hflush. destruct Hflush as [Hne _].
    apply Z.eqb_neq in Hne. unfold GROUP_SIZE in Hne. lia.
Qed.

(** The loop of [generate_custom_images] in any environment. *)
Lemma custom_loop_any m pm n l :
  forall images fns sent e w,
    (length images < 9)%nat ->
    let o := for_ l (custom_body m pm n) (images, fns, sent) e w in
    Forall (fun b => (1 <= length b <= 9)%nat) (batches (log o))
    /\ (fetch_calls (log o) <= length l)%nat
    /\ (length (written (log o)) <= fetch_calls (log o))%nat
    /\ (length (edits (log o)) <= length (written (log o)))%nat
    /\ Forall (fun ev => addressed (chat_id m) ev = true) (log o)
    /\ Forall (fun ed => fst ed = (chat_id m, message_id pm)) (edits (log o))
    /\ (forall g, ~ In g (written (log o)) ->
                  lookup g (files (after o)) = lookup g (files w))
    /\ (exists pending,
           (concat (batches (log o)) ++ pending)%list
           = (images ++ map (payload e) (seq (gets w) (length (written (log o)))))%list)
    /\ (forall s, value o = Ok s -> fetch_calls (log o) = length l).
Proof.
  induction l as [| i l IH]; intros images fns sent e w Hlen; cbn zeta.
  - cbn. repeat split; auto. exists images. now rewrite app_nil_r.
  - cbn [for_ length].
    pose proof (iteration_out_any e w (chat_id m) (message_id pm)
                  (progress_text (sent + 1) n) images (i =? n)
                  (fun group => (group, (fns ++ [file_of e (uuids w)])%list, sent + 1))
                  Hlen) as F.
    rewrite <- custom_body_out in F. cbn zeta in F.
    destruct (custom_body m pm n i (images, fns, sent) e w) as [t1 w1 [s1 | x]] eqn:E;
      cbn [log after value] in F;
      destruct F as (Hb & Hf & Hw & He & Ha & Hed & _ & Hfr & pending & Hcat & Hok).
    + rewrite (bind_ok _ _ _ _ _ _ _ E).
      destruct (Hok s1 eq_refl) as (-> & Hp & Hw1 & Hg1).
      specialize (IH pending (fns ++ [file_of e (uuids w)])%list (sent + 1) e w1 Hp).
      cbn zeta in IH.
      destruct (for_ l _ _ e w1) as [t2 w2 v2]. cbn [log after value prepend] in *.
      destruct IH as (Hb2 & Hf2 & Hw2 & He2 & Ha2 & Hed2 & Hfr2 & (pending2 & Hcat2) & Hok2).
      autorewrite with logs. rewrite concat_app, !length_app.
      repeat split; try lia.
      * apply Forall_app. now split.
      * apply Forall_app. now split.
      * apply Forall_app. now split.
      * intros g Hg. rewrite Hfr2, Hfr; auto;
          intros Hin; apply Hg, in_or_app; auto.
      * exists pending2. rewrite <- app_assoc, Hcat2, app_assoc, Hcat.
        rewrite Hw1, Hg1. cbn [length plus seq map]. now rewrite <- app_assoc.
      * intros s Hs. rewrite (Hok2 s Hs). lia.
    + rewrite (bind_raise _ _ _ _ _ _ _ E). cbn [log after value].
      repeat split; auto; try lia; try discriminate.
      now exists pending.
Qed.

Lemma removal_loop_any c fns e w :
  let o := for_ fns (fun file _ => os_remove file) tt e w in
  Forall (fun ev => addressed c ev = true) (log o)
  /\ incl (removed (log o)) fns
  /\ (forall g, ~ In g fns -> lookup g (files (after o)) = lookup g (files w)).
Proof.
  revert w. induction fns as [| f fns IH]; intros w; cbn zeta.
  - cbn. repeat split; auto. apply incl_nil_l.
  - cbn [for_].
    destruct (exists_file f w) eqn:Ef.
    + erewrite bind_ok by (rewrite os_remove_out, Ef; reflexivity).
      specialize (IH (set_files (unlink f (files w)) w)). cbn zeta in IH.
      destruct (for_ fns _ tt e _) as [t w' v]. cbn [log after value prepend] in *.
      destruct IH as (Ha & Hr & Hfr). repeat split.
      * constructor; auto.
      * cbn. apply incl_cons; [now left | now apply incl_tl].
      * intros g Hg. rewrite Hfr by (intros Hin; apply Hg; now right).
        cbn [files set_files]. apply lookup_unlink_other.
        apply String.eqb_neq. intros ->. apply Hg. now left.
    + erewrite bind_raise by (rewrite os_remove_out, Ef; reflexivity).
      cbn. repeat split; auto.
      apply incl_cons; [now left | apply incl_nil_l].
Qed.

Lemma finish_any m pm fns e w :
  let o := finish m pm fns e w in
  Forall (fun ev => addressed (chat_id m) ev = true) (log o)
  /\ incl (removed (log o)) fns
  /\ (forall g, ~ In g fns -> lookup g (files (after o)) = lookup g (files w))
  /\ (exists before, log o = DeleteMessage (chat_id m) (message_id pm) :: before).
Proof.
  cbn zeta. unfold finish. erewrite bind_ok by apply try_delete.
  pose proof (removal_loop_any (chat_id m) fns e (tick delete_message_ w)) as R.
  cbn zeta in R.
  destruct (for_ fns (fun file _ => os_remove file) tt e (tick delete_message_ w))
    as [t w' [[] | x]] eqn:E; cbn [log after value] in R; destruct R as (Ha & Hr & Hfr).
  - erewrite bind_ok by exact E.
    destruct (raises e send_message_ (calls w' send_message_)) eqn:Es.
    + erewrite bind_raise by (rewrite send_message_out, Es; reflexivity).
      cbn [prepend log after value]. split; [| split; [| split]].
      * apply Forall_app. split; [repeat constructor; apply Z.eqb_refl |].
        apply Forall_app. split; [exact Ha | repeat constructor; apply Z.eqb_refl].
      * autorewrite with logs. cbn [removed flat_map app]. now rewrite app_nil_r.
      * exact Hfr.
      * now eexists.
    + erewrite bind_ok by (rewrite send_message_out, Es; reflexivity).
      cbn [prepend log after value ret]. split; [| split; [| split]].
      * apply Forall_app. split; [repeat constructor; apply Z.eqb_refl |].
        apply Forall_app. split; [exact Ha |].
        apply Forall_app. split; repeat constructor. apply Z.eqb_refl.
      * autorewrite with logs. cbn [removed flat_map app]. now rewrite !app_nil_r.
      * exact Hfr.
      * now eexists.
  - erewrite bind_raise by exact E.
    cbn [prepend log after value]. split; [| split; [| split]].
    + apply Forall_app. split; [repeat constructor; apply Z.eqb_refl | exact Ha].
    + exact Hr.
    + exact Hfr.
    + now eexists.
Qed.

(** A run of [generate_custom_images] in any environment. *)
Lemma custom_run_any m n e w :
  exists body,
    log (generate_custom_images m n e w) = first_call m (custom_first_text n) :: body
    /\ Forall (fun b => (1 <= length b <= 9)%nat) (batches body)
    /\ (fetch_calls body <= Z.to_nat n)%nat
    /\ (length (written body) <= fetch_calls body)%nat
    /\ (length (edits body) <= length (written body))%nat
    /\ Forall (fun ev => addressed (chat_id m) ev = true) body
    /\ Forall (fun ed => fst ed = (chat_id m, assigned_id e (calls w send_message_)))
         (edits body)
    /\ incl (removed body) (written body)
    /\ (forall g, ~ In g (written body) ->
                  lookup g (files (after (generate_custom_images m n e w)))
                  = lookup g (files w))
    /\ (exists pending,
           (concat (batches body) ++ pending)%list
           = map (payload e) (seq (gets w) (length (written body)))).
Proof.
  rewrite generate_custom_images_out. unfold run_out.
  destruct (raises e send_message_ (calls w send_message_)).
  { exists []. cbn. repeat split; auto; try lia.
    - apply incl_nil_l.
    - now exists []. }
  set (pm := created e w (chat_id m) (custom_first_text n)).
  pose proof (custom_loop_any m pm n (range 1 (n + 1)) [] [] 0 e
                (tick send_message_ w)) as L.
  pose proof (custom_loop_facts m pm n (range 1 (n + 1)) [] [] 0 e
                (tick send_message_ w)) as K.
  cbn zeta in L, K. specialize (L ltac:(cbn; lia)).
  assert (Hlen : length (range 1 (n + 1)) = Z.to_nat n).
  { unfold range. rewrite length_map, length_seq. f_equal. lia. }
  rewrite Hlen in L.
  destruct (for_ _ _ _ e _) as [t w1 [s | x]]; cbn [log after value] in L, K |- *;
    destruct L as (Hb & Hf & Hw & He & Ha & Hed & Hfr & Hcat & _);
    destruct K as (Hr & _ & _ & _ & _ & Hnames & _).
  - specialize (Hnames s eq_refl). cbn [app] in Hnames.
    pose proof (finish_any m pm (snd (fst s)) e w1) as F.
    pose proof (finish_facts m pm (snd (fst s)) e w1) as Q.
    cbn zeta in F, Q.
    destruct (finish m pm (snd (fst s)) e w1) as [tf wf vf].
    cbn [log after value prepend] in *.
    destruct F as (Ha2 & Hr2 & Hfr2 & _).
    destruct Q as ((Hq1 & Hq2 & Hq3 & _ & Hq5) & _).
    rewrite Hnames in Hr2, Hfr2.
    exists (t ++ tf)%list. split; [reflexivity |].
    autorewrite with logs. rewrite Hq1, Hq2, Hq3, Hq5, Hr, !app_nil_r, Nat.add_0_r.
    cbn [app].
    split; [exact Hb |]. split; [exact Hf |]. split; [exact Hw |].
    split; [exact He |]. split; [apply Forall_app; now split |].
    split; [exact Hed |]. split; [exact Hr2 |].
    split; [| exact Hcat].
    intros g Hg. rewrite Hfr2 by exact Hg. now apply Hfr.
  - exists t. split; [reflexivity |]. rewrite Hr.
    split; [exact Hb |]. split; [exact Hf |]. split; [exact Hw |].
    split; [exact He |]. split; [exact Ha |].
    split; [exact Hed |]. split; [apply incl_nil_l |].
    split; [exact Hfr | exact Hcat].
Qed.

(** X4. In every environment and whatever the outcome (normal return or an
    exception at any point), a run of either function makes at most [n]
    fetches; every grouped send it issues carries between one and
    GROUP_SIZE images; the images sent, put end to end, are the first
    payloads fetched, in the order fetched, none left out or repeated; and a
    progress edit follows a completed download only, always on the message
    created by the first notification. *)
Theorem relay_invariants_any_outcome (e : env) (w : world) (m : Message) (n : Z)
    (o : out unit) (first : string) :
  relay_run e w m n o first ->
  exists body,
    log o = first_call m first :: body
    /\ Forall (fun b => 1 <= Z.of_nat (length b) <= GROUP_SIZE) (batches body)
    /\ (fetch_calls body <= Z.to_nat n)%nat
    /\ (length (written body) <= fetch_calls body)%nat
    /\ (length (edits body) <= length (written body))%nat
    /\ Forall (fun ed => fst ed = (chat_id m, assigned_id e (calls w send_message_)))
         (edits body)
    /\ exists pending,
         (concat (batches body) ++ pending)%list
         = map (payload e) (seq (gets w) (length (written body))).
Proof.
  apply (both_runs
           (fun _ _ body =>
              Forall (fun b => 1 <= Z.of_nat (length b) <= GROUP_SIZE) (batches body)
              /\ (fetch_calls body <= Z.to_nat n)%nat
              /\ (length (written body) <= fetch_calls body)%nat
              /\ (length (edits body) <= length (written body))%nat
              /\ Forall (fun ed => fst ed
                                   = (chat_id m, assigned_id e (calls w send_message_)))
                   (edits body)
              /\ exists pending,
                   (concat (batches body) ++ pending)%list
                   = map (payload e) (seq (gets w) (length (written body))))
           e w m n).
  destruct (custom_run_any m n e w)
    as (body & Hlog & Hb & Hf & Hw & He & _ & Hed & _ & _ & Hcat).
  exists body. repeat split; auto.
  eapply Forall_impl; [| exact Hb]. cbn. intros b Hlen. unfold GROUP_SIZE. lia.
Qed.

Lemma relay_invariants_any_outcome_witness :
  exists body,
    log (send_multiple_images (msg "10") 10 (fetch_fails_at 2) start)
    = first_call (msg "10") (multiple_first_text 10) :: body
    /\ Forall (fun b => 1 <= Z.of_nat (length b) <= GROUP_SIZE) (batches body)
    /\ (fetch_calls body <= Z.to_nat 10)%nat
    /\ (length (written body) <= fetch_calls body)%nat
    /\ (length (edits body) <= length (written body))%nat
    /\ Forall (fun ed => fst ed
                         = (chat_id (msg "10"),
                            assigned_id (fetch_fails_at 2) (calls start send_message_)))
         (edits body)
    /\ exists pending,
         (concat (batches body) ++ pending)%list
         = map (payload (fetch_fails_at 2)) (seq (gets start) (length (written body))).
Proof.
  apply (relay_invariants_any_outcome (fetch_fails_at 2) start (msg "10") 10).
  right. split; reflexivity.
Defined.

(** X5. In every environment and whatever the outcome, a run of either
    function removes only files it wrote itself, and leaves every file of
    another name as it found it. *)
Theorem relay_touches_only_its_files (e : env) (w : world) (m : Message) (n : Z)
    (o : out unit) (first : string) :
  relay_run e w m n o first ->
  incl (removed (log o)) (written (log o))
  /\ forall g, ~ In g (written (log o)) ->
               lookup g (files (after o)) = lookup g (files w).
Proof.
  intros Hrun.
  destruct (both_runs
              (fun _ a body =>
                 incl (removed body) (written body)
                 /\ forall g, ~ In g (written body) ->
                              lookup g (files a) = lookup g (files w))
              e w m n) with (o := o) (first := first)
    as (body & Hlog & Hincl & Hframe); [| exact Hrun |].
  - destruct (custom_run_any m n e w)
      as (body & Hlog & _ & _ & _ & _ & _ & _ & Hincl & Hframe & _).
    now exists body.
  - rewrite Hlog. split; [exact Hincl | exact Hframe].
Qed.

Lemma relay_touches_only_its_files_witness :
  incl (removed (log (generate_custom_images (msg "3") 3 calm start)))
    (written (log (generate_custom_images (msg "3") 3 calm start)))
  /\ forall g, ~ In g (written (log (generate_custom_images (msg "3") 3 calm start))) ->
               lookup g (files (after (generate_custom_images (msg "3") 3 calm start)))
               = lookup g (files start).
Proof.
  apply (relay_touches_only_its_files calm start (msg "3") 3 _ (custom_first_text 3)).
  left. split; reflexivity.
Defined.

Lemma send_single_image_out m e w : send_single_image m e w = single_out e w m.
Proof.
  unfold send_single_image, single_out.
  destruct (response e (gets w)) as [b |] eqn:Hg.
  2:{ erewrite bind_raise by (apply download_image_raise; exact Hg). reflexivity. }
  erewrite bind_ok by (apply download_image_ok; exact Hg).
  erewrite bind_ok by apply read_downloaded.
  destruct (raises e send_photo_ (calls w send_photo_)) eqn:Hp.
  { erewrite bind_raise by (apply bot_unit_raise; exact Hp). reflexivity. }
  erewrite bind_ok by (apply bot_unit_ok; exact Hp).
  erewrite bind_ok.
  2:{ rewrite os_remove_out.
      change (exists_file (file_of e (uuids w)) (tick send_photo_ (downloaded e w b)))
        with (exists_file (file_of e (uuids w)) (downloaded e w b)).
      rewrite exists_file_downloaded by now right. reflexivity. }
  erewrite bind_ok by apply try_delete.
  destruct (raises e send_message_ (calls w send_message_)) eqn:Hs.
  - erewrite bind_raise by (rewrite send_message_out; cbn [calls tick api_eqb set_files downloaded tick_get tick_uuid];
                            rewrite Hs; reflexivity).
    reflexivity.
  - erewrite bind_ok by (rewrite send_message_out; cbn [calls tick api_eqb set_files downloaded tick_get tick_uuid];
                         rewrite Hs; reflexivity).
    reflexivity.
Qed.

(** X6. [send_single_image] path by path.  If the fetch raises, nothing is
    written or sent.  If [send_photo] raises, the exception leaves the
    handler with the downloaded file still on disk and no notice sent.
    Otherwise the fetched body is sent as one photo, the file is removed,
    the deletion of the user's message is attempted (a failure of it changes
    nothing) and the completion notice is sent; the handler returns normally
    unless that last call raises. *)
Theorem send_single_image_paths (e : env) (w : world) (m : Message) :
  let o := send_single_image m e w in
  let f := file_of e (uuids w) in
  (response e (gets w) = None ->
   value o = Raise RequestException /\ log o = [HttpGet IMAGE_URL]
   /\ files (after o) = files w)
  /\ (forall b, response e (gets w) = Some b ->
      raises e send_photo_ (calls w send_photo_) = true ->
      value o = Raise ApiTelegramException
      /\ photos (log o) = [b] /\ removed (log o) = [] /\ notifications (log o) = []
      /\ lookup f (files (after o)) = Some b)
  /\ (forall b, response e (gets w) = Some b ->
      raises e send_photo_ (calls w send_photo_) = false ->
      log o = [HttpGet IMAGE_URL; FileWrite f b; FileRead f; SendPhoto (chat_id m) b;
               FileRemove f; DeleteMessage (chat_id m) (message_id m);
               SendMessage (chat_id m) done_text (Some "html")
                 (Some create_main_markup)]
      /\ lookup f (files (after o)) = None
      /\ (forall g, g <> f -> lookup g (files (after o)) = lookup g (files w))
      /\ value o = (if raises e send_message_ (calls w send_message_)
                    then Raise ApiTelegramException else Ok tt)).
Proof.
  cbn zeta. rewrite send_single_image_out. unfold single_out.
  destruct (response e (gets w)) as [b |].
  2:{ cbn. repeat split; discriminate. }
  cbv zeta. split; [discriminate |].
  destruct (raises e send_photo_ (calls w send_photo_)); split;
    try discriminate; intros b' [= <-] _; cbn [log after value].
  - cbn [files tick downloaded set_files]. repeat split. apply lookup_head.
  - cbn [files tick set_files app]. repeat split.
    + apply lookup_unlink_same.
    + intros g Hg. rewrite lookup_unlink_other by now apply String.eqb_neq.
      now apply lookup_downloaded_other.
Qed.

Lemma send_single_image_paths_witness :
  value (send_single_image (msg "1") (api_fails_at send_photo_ 0) start)
  = Raise ApiTelegramException
  /\ photos (log (send_single_image (msg "1") (api_fails_at send_photo_ 0) start))
     = [[byte_of 0]]
  /\ removed (log (send_single_image (msg "1") (api_fails_at send_photo_ 0) start)) = []
  /\ notifications (log (send_single_image (msg "1") (api_fails_at send_photo_ 0) start))
     = []
  /\ lookup (file_of (api_fails_at send_photo_ 0) (uuids start))
       (files (after (send_single_image (msg "1") (api_fails_at send_photo_ 0) start)))
     = Some [byte_of 0].
Proof.
  refine (proj1 (proj2 (send_single_image_paths (api_fails_at send_photo_ 0) start
                          (msg "1"))) [byte_of 0] _ _); reflexivity.
Defined.

Lemma handle_text_out m e w :
  handle_text m e w =
  prepend
    (DeleteMessage (chat_id m) (message_id m - 1)
       :: if raises e delete_message_ (calls w delete_message_)
          then [Stdout "Ошибка при удалении сообщения: " ApiTelegramException]
          else [])
    (dispatch m (PyStr.lower (PyStr.strip (text m))) e (tick delete_message_ w)).
Proof.
  unfold handle_text.
  destruct (raises e delete_message_ (calls w delete_message_)) eqn:E.
  - erewrite bind_ok; [reflexivity |].
    unfold try_except, delete_message. now rewrite (bot_unit_raise _ _ _ _ E).
  - erewrite bind_ok; [reflexivity |].
    unfold try_except, delete_message. now rewrite (bot_unit_ok _ _ _ _ E).
Qed.

Lemma handle_custom_quantity_out m e w :
  handle_custom_quantity m e w =
  if String.eqb (PyStr.lower (text m)) "назад" then
    (send_message (chat_id m) "Вы вернулись на главную страницу" None
       (Some create_main_markup) ;; ret tt) e w
  else
    match PyStr.int (text m) with
    | Some q =>
        if (1 <=? q) && (q <=? MAX_IMAGES) then
          let r := generate_custom_images m q e w in
          match value r with
          | Raise RequestException =>
              if match gets (after r) with O => false | S n => value_error e n end
              then prepend (log r) (retry_prompt m e (after r))
              else r
          | _ => r
          end
        else retry_prompt m e w
    | None => retry_prompt m e w
    end.
Proof.
  unfold handle_custom_quantity.
  destruct (String.eqb _ _); [reflexivity |].
  assert (Hraise : try_except (raise ValueError) except_ValueError
                     (fun _ => retry_prompt m) e w = retry_prompt m e w).
  { unfold try_except, raise. cbn [value log after except_ValueError].
    apply prepend_nil. }
  destruct (PyStr.int (text m)) as [q |]; [| exact Hraise].
  destruct ((1 <=? q) && (q <=? MAX_IMAGES)); [| exact Hraise].
  cbv zeta.
  now rewrite try_except_ValueError_out
    by apply generate_custom_images_no_ValueError.
Qed.

(** X7. A menu choice is recognised whatever its letter case and the blanks
    around it, and the text of the message is used for nothing else: two
    text messages of the same chat and identifier whose texts agree after
    [strip] and [lower] are handled by [handle_text] in exactly the same
    way. *)
Theorem handle_text_reads_normalised_text (e : env) (w : world) (m m' : Message) :
  chat_id m = chat_id m' ->
  message_id m = message_id m' ->
  PyStr.lower (PyStr.strip (text m)) = PyStr.lower (PyStr.strip (text m')) ->
  handle_text m e w = handle_text m' e w.
Proof.
  destruct m as [c i t], m' as [c' i' t']. cbn [chat_id message_id text].
  intros <- <- Ht. rewrite !handle_text_out. cbn [chat_id message_id text].
  rewrite Ht. reflexivity.
Qed.

Lemma handle_text_reads_normalised_text_witness :
  handle_text (msg "  СВОЁ Количество ") calm start
  = handle_text (msg "своё количество") calm start.
Proof.
  refine (handle_text_reads_normalised_text calm start
            (msg "  СВОЁ Количество ") (msg "своё количество") eq_refl eq_refl _).
  vm_compute. reflexivity.
Defined.

(** X8. A text that, once [strip] and [lower] are applied, is neither of
    the captions of the two image buttons never leads to a fetch or to a
    change on disk: apart from the deletion attempt, the handler only sends
    one message, the quantity prompt (registering [handle_custom_quantity]
    for the next message when the send succeeds) for the custom-quantity
    button, the main menu for any other text. *)
Theorem handle_text_without_fetch (e : env) (w : world) (m : Message) :
  let txt := PyStr.lower (PyStr.strip (text m)) in
  let o := handle_text m e w in
  txt <> "получить изображение" ->
  txt <> "получить 9 изображений" ->
  fetch_calls (log o) = O
  /\ files (after o) = files w
  /\ (txt = "своё количество" ->
      notifications (log o) = ["Напишите, сколько лиц сгенерировать. Максимум 100"]
      /\ (raises e send_message_ (calls w send_message_) = false ->
          In (RegisterNextStepHandler (chat_id m)
                (assigned_id e (calls w send_message_)) HandleCustomQuantity) (log o)))
  /\ (txt <> "своё количество" -> notifications (log o) = ["Главная страница"]).
Proof.
  intros txt o H1 H2. subst o. rewrite handle_text_out. fold txt.
  unfold dispatch.
  apply String.eqb_neq in H1. apply String.eqb_neq in H2. rewrite H1, H2.
  destruct (String.eqb txt "своё количество") eqn:H3.
  - apply String.eqb_eq in H3. unfold ask_for_custom_quantity.
    destruct (raises e send_message_ (calls w send_message_)) eqn:Es.
    + erewrite bind_raise
        by (rewrite send_message_out; cbn [calls tick api_eqb]; rewrite Es; reflexivity).
      destruct (raises e delete_message_ _); cbn; repeat split; auto;
        try discriminate; congruence.
    + erewrite bind_ok
        by (rewrite send_message_out; cbn [calls tick api_eqb]; rewrite Es; reflexivity).
      destruct (raises e delete_message_ _); cbn; repeat split; auto; congruence.
  - apply String.eqb_neq in H3.
    destruct (raises e send_message_ (calls w send_message_)) eqn:Es.
    + erewrite bind_raise
        by (rewrite send_message_out; cbn [calls tick api_eqb]; rewrite Es; reflexivity).
      destruct (raises e delete_message_ _); cbn; repeat split; auto; congruence.
    + erewrite bind_ok
        by (rewrite send_message_out; cbn [calls tick api_eqb]; rewrite Es; reflexivity).
      destruct (raises e delete_message_ _); cbn; repeat split; auto; congruence.
Qed.

Lemma handle_text_without_fetch_witness :
  fetch_calls
    (log (handle_text (msg (no_break_space ++ "Своё Количество" ++ ideographic_space))
            calm start)) = O
  /\ notifications
       (log (handle_text (msg (no_break_space ++ "Своё Количество" ++ ideographic_space))
               calm start))
     = ["Напишите, сколько лиц сгенерировать. Максимум 100"]
  /\ notifications (log (handle_text (msg "привет") calm start))
     = ["Главная страница"].
Proof.
  destruct (handle_text_without_fetch calm start
              (msg (no_break_space ++ "Своё Количество" ++ ideographic_space)))
    as (H1 & _ & H3 & _); try (vm_compute; discriminate).
  destruct (handle_text_without_fetch calm start (msg "привет"))
    as (_ & _ & _ & H4); try (vm_compute; discriminate).
  split; [exact H1 |]. split.
  - apply H3. vm_compute. reflexivity.
  - apply H4. vm_compute. discriminate.
Defined.

(** X9. The "nine images" button: whatever the letter case and the blanks
    around the text, when no fetch and no Bot API call other than the first
    deletion fails, [handle_text] tries to delete the previous message, sends
    the progress notification, makes nine fetches with nine progress edits,
    and delivers the nine payloads in one grouped send, in the order
    fetched. *)
Theorem nine_images_button (e : env) (w : world) (m : Message) :
  PyStr.lower (PyStr.strip (text m)) = "получить 9 изображений" ->
  (forall a k, a <> delete_message_ -> raises e a k = false) ->
  fetches_ok e (gets w) 9 ->
  exists printed body,
    log (handle_text m e w)
    = (DeleteMessage (chat_id m) (message_id m - 1) :: printed
         ++ first_call m (multiple_first_text 9) :: body)%list
    /\ fetch_calls printed = O /\ batches printed = [] /\ notifications printed = []
    /\ fetch_calls body = 9%nat
    /\ length (edits body) = 9%nat
    /\ batches body = [map (payload e) (seq (gets w) 9)].
Proof.
  intros Htxt Ha Hf. rewrite handle_text_out, Htxt.
  change (dispatch m "получить 9 изображений") with (send_multiple_images m 9).
  set (w1 := tick delete_message_ w).
  destruct (runs_agree e w1 m 9) as (_ & _ & rest & Hl1 & Hl2).
  rewrite generate_custom_images_out in Hl2. unfold run_out in Hl2.
  rewrite Ha in Hl2 by discriminate.
  destruct (custom_loop_complete m (created e w1 (chat_id m) (custom_first_text 9))
              9 e (tick send_message_ w1))
    as (t & w' & full & final & Hrun & D); try lia.
  { exact Hf. }
  { intros j _. apply Ha. discriminate. }
  { intros j. apply Ha. discriminate. }
  rewrite Hrun in Hl2. cbn [value log after fst snd prepend] in Hl2.
  injection Hl2 as Hrest.
  cbn [prepend log]. rewrite Hl1.
  eexists _, rest. split; [reflexivity |].
  rewrite <- Hrest.
  match goal with
  | |- context [finish ?a ?b ?names e w'] =>
      pose proof (finish_facts a b names e w') as F
  end.
  cbn zeta in F. destruct F as ((Hq1 & Hq2 & Hq3 & _) & _).
  destruct D. autorewrite with logs.
  rewrite Hq1, Hq2, Hq3, done_batches0, done_fetches0, done_edits0, !app_nil_r.
  rewrite length_map, length_seq.
  change (Z.to_nat 9) with 9%nat in *. cbn [gets tick w1] in done_content0.
  assert (Hfull : full = []).
  { destruct full as [| g full]; [reflexivity |].
    apply (f_equal (@length _)) in done_content0.
    inversion done_full0 as [| ? ? Hg9 _]; subst.
    cbn [concat] in done_content0.
    rewrite !length_app, Hg9, length_map, length_seq in done_content0. lia. }
  subst full. cbn [concat app] in done_content0. subst final.
  destruct (raises e delete_message_ (calls w delete_message_)); cbn; repeat split.
Qed.

Lemma nine_images_button_witness :
  exists printed body,
    log (handle_text (msg " Получить 9 ИЗОБРАЖЕНИЙ") calm start)
    = (DeleteMessage (chat_id (msg " Получить 9 ИЗОБРАЖЕНИЙ"))
         (message_id (msg " Получить 9 ИЗОБРАЖЕНИЙ") - 1) :: printed
         ++ first_call (msg " Получить 9 ИЗОБРАЖЕНИЙ") (multiple_first_text 9) :: body)%list
    /\ fetch_calls printed = O /\ batches printed = [] /\ notifications printed = []
    /\ fetch_calls body = 9%nat
    /\ length (edits body) = 9%nat
    /\ batches body = [map (payload calm) (seq (gets start) 9)].
Proof.
  apply (nine_images_button calm start (msg " Получить 9 ИЗОБРАЖЕНИЙ")).
  - reflexivity.
  - intros a k _. reflexivity.
  - intros j _. discriminate.
Defined.

Lemma relay_addressed e w m n o first :
  relay_run e w m n o first ->
  Forall (fun ev => addressed (chat_id m) ev = true) (log o).
Proof.
  intros Hrun.
  destruct (both_runs
              (fun _ _ body => Forall (fun ev => addressed (chat_id m) ev = true) body)
              e w m n) with (o := o) (first := first) as (body & Hlog & Ha);
    [| exact Hrun |].
  - destruct (custom_run_any m n e w) as (body & Hlog & _ & _ & _ & _ & Ha & _).
    now exists body.
  - rewrite Hlog. constructor; [apply Z.eqb_refl | exact Ha].
Qed.

Lemma send_message_addressed c txt pmode mk (k : Message -> M unit) e w :
  (forall pm e' w', Forall (fun ev => addressed c ev = true) (log (k pm e' w'))) ->
  Forall (fun ev => addressed c ev = true)
    (log ((pm <- send_message c txt pmode mk ;; k pm) e w)).
Proof.
  intros Hk.
  destruct (raises e send_message_ (calls w send_message_)) eqn:Es.
  - erewrite bind_raise by (rewrite send_message_out, Es; reflexivity).
    cbn [log]. repeat constructor. apply Z.eqb_refl.
  - erewrite bind_ok by (rewrite send_message_out, Es; reflexivity).
    cbn [prepend log]. constructor; [apply Z.eqb_refl | apply Hk].
Qed.

Lemma single_addressed m e w :
  Forall (fun ev => addressed (chat_id m) ev = true) (log (send_single_image m e w)).
Proof.
  rewrite send_single_image_out. unfold single_out.
  destruct (response e (gets w)); [| repeat constructor].
  cbv zeta. destruct (raises e send_photo_ _); cbn [log app];
    repeat constructor; apply Z.eqb_refl.
Qed.

(** X10. Every handler talks to the chat the message came from and to no
    other: in every environment, every Bot API call issued by
    [handle_start], [handle_text] or [handle_custom_quantity] (the runs,
    prompts and notices they lead to included) names the chat of the
    incoming message. *)
Theorem handlers_answer_in_the_same_chat (e : env) (w : world) (m : Message) :
  Forall (fun ev => addressed (chat_id m) ev = true) (log (handle_start m e w))
  /\ Forall (fun ev => addressed (chat_id m) ev = true) (log (handle_text m e w))
  /\ Forall (fun ev => addressed (chat_id m) ev = true)
       (log (handle_custom_quantity m e w)).
Proof.
  assert (Hret : forall (pm : Message) e' w',
             Forall (fun ev => addressed (chat_id m) ev = true)
               (log (ret tt e' w'))) by (intros; constructor).
  assert (Hreg : forall (pm : Message) e' w',
             chat_id pm = chat_id m ->
             Forall (fun ev => addressed (chat_id m) ev = true)
               (log (register_next_step_handler pm HandleCustomQuantity e' w'))).
  { intros pm e' w' Hc. cbn. rewrite Hc. repeat constructor. apply Z.eqb_refl. }
  assert (Hprompt : forall txt e' w',
             Forall (fun ev => addressed (chat_id m) ev = true)
               (log ((pm <- send_message (chat_id m) txt (Some "html")
                             (Some create_quantity_markup) ;;
                      register_next_step_handler pm HandleCustomQuantity) e' w'))).
  { intros txt e' w'.
    destruct (raises e' send_message_ (calls w' send_message_)) eqn:Es.
    - erewrite bind_raise by (rewrite send_message_out, Es; reflexivity).
      cbn [log]. repeat constructor. apply Z.eqb_refl.
    - erewrite bind_ok by (rewrite send_message_out, Es; reflexivity).
      cbn [prepend log]. constructor; [apply Z.eqb_refl |].
      apply Hreg. reflexivity. }
  split; [| split].
  - unfold handle_start. now apply send_message_addressed.
  - rewrite handle_text_out. cbn [prepend log].
    apply Forall_app. split.
    { destruct (raises e delete_message_ _); repeat constructor; apply Z.eqb_refl. }
    unfold dispatch.
    destruct (String.eqb _ _); [apply single_addressed |].
    destruct (String.eqb _ _).
    { apply (relay_addressed e (tick delete_message_ w) m 9 _ (multiple_first_text 9)).
      right. now split. }
    destruct (String.eqb _ _); [apply Hprompt |].
    now apply send_message_addressed.
  - rewrite handle_custom_quantity_out.
    destruct (String.eqb _ _); [now apply send_message_addressed |].
    destruct (PyStr.int (text m)) as [q |]; [| apply Hprompt].
    destruct ((1 <=? q) && (q <=? MAX_IMAGES)); [| apply Hprompt].
    pose proof (relay_addressed e w m q _ (custom_first_text q)
                  (or_introl (conj eq_refl eq_refl))) as Hrun.
    cbv zeta.
    destruct (value (generate_custom_images m q e w)) as [a | []]; try exact Hrun.
    destruct (match gets _ with O => false | S n => value_error e n end);
      [| exact Hrun].
    cbn [prepend log]. apply Forall_app. split; [exact Hrun | apply Hprompt].
Qed.

Lemma iteration_out_agree {St} e e' w chat mid txt images last
    (mk mk' : list bytes -> St) :
  agree_but_delete e e' ->
  (forall g, mk g = mk' g) ->
  iteration_out e w chat mid txt images last mk
  = iteration_out e' w chat mid txt images last mk'.
Proof.
  intros (Hu & Hresp & Hr & _) Hmk.
  unfold iteration_out, iteration_log, downloaded, file_of.
  rewrite (Hresp (gets w)), (Hu (uuids w)).
  rewrite (Hr edit_message_text_) by discriminate.
  rewrite (Hr send_media_group_) by discriminate.
  destruct (response e' (gets w)); [| reflexivity]. cbv zeta.
  now rewrite !Hmk.
Qed.

Lemma custom_loop_agree m pm n e e' l :
  agree_but_delete e e' ->
  forall st w,
    for_ l (custom_body m pm n) st e w = for_ l (custom_body m pm n) st e' w.
Proof.
  intros Hag. induction l as [| i l IH]; intros [[images fns] sent] w; [reflexivity |].
  cbn [for_].
  assert (Hb : custom_body m pm n i (images, fns, sent) e w
               = custom_body m pm n i (images, fns, sent) e' w).
  { rewrite !custom_body_out. apply iteration_out_agree; [exact Hag |].
    intros g. unfold file_of. destruct Hag as (Hu & _). now rewrite Hu. }
  destruct (custom_body m pm n i (images, fns, sent) e w) as [t w1 [s1 | x]] eqn:E.
  - symmetry in Hb.
    rewrite (bind_ok _ _ _ _ _ _ _ E), (bind_ok _ _ _ _ _ _ _ Hb). now rewrite IH.
  - symmetry in Hb.
    now rewrite (bind_raise _ _ _ _ _ _ _ E), (bind_raise _ _ _ _ _ _ _ Hb).
Qed.

Lemma removal_loop_env fns e e' w :
  for_ fns (fun file _ => os_remove file) tt e w
  = for_ fns (fun file _ => os_remove file) tt e' w.
Proof.
  revert w. induction fns as [| f fns IH]; intros w; [reflexivity |].
  cbn [for_].
  destruct (os_remove f e w) as [t w1 [[] | x]] eqn:E.
  - rewrite (bind_ok _ _ _ _ _ _ _ E).
    change (os_remove f e w) with (os_remove f e' w) in E.
    rewrite (bind_ok _ _ _ _ _ _ _ E). now rewrite IH.
  - rewrite (bind_raise _ _ _ _ _ _ _ E).
    change (os_remove f e w) with (os_remove f e' w) in E.
    now rewrite (bind_raise _ _ _ _ _ _ _ E).
Qed.

Lemma finish_agree m pm names e e' w :
  agree_but_delete e e' -> finish m pm names e w = finish m pm names e' w.
Proof.
  intros (_ & _ & Hr & Hid). unfold finish.
  rewrite (bind_ok _ _ e w _ _ _ (try_delete _ _ e w)).
  rewrite (bind_ok _ _ e' w _ _ _ (try_delete _ _ e' w)).
  f_equal.
  destruct (for_ names (fun file _ => os_remove file) tt e (tick delete_message_ w))
    as [t w1 [[] | x]] eqn:E.
  - rewrite (bind_ok _ _ _ _ _ _ _ E).
    rewrite (removal_loop_env names e e') in E.
    rewrite (bind_ok _ _ _ _ _ _ _ E). f_equal.
    assert (Hs : send_message (chat_id m) done_text (Some "html")
                   (Some create_main_markup) e w1
                 = send_message (chat_id m) done_text (Some "html")
                     (Some create_main_markup) e' w1).
    { rewrite !send_message_out. unfold created.
      rewrite (Hr send_message_) by discriminate. now rewrite Hid. }
    destruct (send_message (chat_id m) done_text (Some "html") (Some create_main_markup)
                e w1) as [ts ws [pm' | x]] eqn:Es.
    + rewrite (bind_ok _ _ _ _ _ _ _ Es). symmetry in Hs.
      now rewrite (bind_ok _ _ _ _ _ _ _ Hs).
    + rewrite (bind_raise _ _ _ _ _ _ _ Es). symmetry in Hs.
      now rewrite (bind_raise _ _ _ _ _ _ _ Hs).
  - rewrite (bind_raise _ _ _ _ _ _ _ E).
    rewrite (removal_loop_env names e e') in E.
    now rewrite (bind_raise _ _ _ _ _ _ _ E).
Qed.

Lemma custom_run_agree m n e e' w :
  agree_but_delete e e' ->
  generate_custom_images m n e w = generate_custom_images m n e' w.
Proof.
  intros Hag. rewrite !generate_custom_images_out. unfold run_out, created.
  pose proof Hag as (_ & _ & Hr & Hid).
  rewrite (Hr send_message_) by discriminate. rewrite Hid.
  destruct (raises e' send_message_ (calls w send_message_)); [reflexivity |].
  rewrite (custom_loop_agree m _ n e e' _ Hag).
  destruct (for_ _ _ _ e' _) as [t w1 [s | x]]; cbn [value log after]; [| reflexivity].
  now rewrite (finish_agree m _ _ e e' w1 Hag).
Qed.

(** X11. Whether a [delete_message] call fails is of no consequence for the
    image handlers: in two environments that answer alike except on
    deletions, [generate_custom_images], [send_multiple_images] and
    [send_single_image] issue the same calls, leave the same state and end
    in the same way. *)
Theorem deletion_failures_are_harmless (e e' : env) (w : world) (m : Message) (n : Z) :
  agree_but_delete e e' ->
  generate_custom_images m n e w = generate_custom_images m n e' w
  /\ send_multiple_images m n e w = send_multiple_images m n e' w
  /\ send_single_image m e w = send_single_image m e' w.
Proof.
  intros Hag. pose proof (custom_run_agree m n e e' w Hag) as Hc.
  split; [exact Hc |]. split.
  - destruct (runs_agree e w m n) as (Hv & Ha & rest & Hl1 & Hl2).
    destruct (runs_agree e' w m n) as (Hv' & Ha' & rest' & Hl1' & Hl2').
    rewrite Hc, Hl2' in Hl2. injection Hl2 as <-.
    rewrite Hc in Hv, Ha. rewrite <- Hv' in Hv. rewrite <- Ha' in Ha.
    rewrite <- Hl1' in Hl1.
    destruct (send_multiple_images m n e w), (send_multiple_images m n e' w).
    cbn [log after value] in *. now subst.
  - rewrite !send_single_image_out. unfold single_out, downloaded, file_of.
    destruct Hag as (Hu & Hresp & Hr & _).
    rewrite (Hresp (gets w)), (Hu (uuids w)).
    rewrite (Hr send_photo_) by discriminate.
    now rewrite (Hr send_message_) by discriminate.
Qed.

Lemma deletion_failures_are_harmless_witness :
  generate_custom_images (msg "3") 3 calm start
  = generate_custom_images (msg "3") 3 (api_fails_at delete_message_ 0) start
  /\ send_multiple_images (msg "3") 3 calm start
     = send_multiple_images (msg "3") 3 (api_fails_at delete_message_ 0) start
  /\ send_single_image (msg "3") calm start
     = send_single_image (msg "3") (api_fails_at delete_message_ 0) start.
Proof.
  apply (deletion_failures_are_harmless calm (api_fails_at delete_message_ 0)).
  repeat split; try reflexivity.
  intros a k Ha. destruct a; try reflexivity. now elim Ha.
Defined.

Lemma div9_full k : (k mod 9 = 8 -> S k / 9 = S (k / 9))%nat.
Proof.
  intros H. symmetry. apply (Nat.div_unique (S k) 9 (S (k / 9)) 0); [lia |].
  pose proof (Nat.div_mod_eq k 9). lia.
Qed.

Lemma div9_pending k : (k mod 9 < 8 -> S k / 9 = k / 9)%nat.
Proof.
  intros H. symmetry. apply (Nat.div_unique (S k) 9 (k / 9) (S (k mod 9))); [lia |].
  pose proof (Nat.div_mod_eq k 9). lia.
Qed.

(** The first [k] iterations, when only the grouped sends they issue are
    known not to raise. *)
Lemma custom_loop_prefix_upto m pm n e w (k : nat) :
  Z.of_nat k < n ->
  fetches_ok e (gets w) k ->
  edits_ok e (calls w edit_message_text_) k ->
  groups_ok_upto e (calls w send_media_group_) (k / 9) ->
  exists t w' images,
    for_ (range 1 (Z.of_nat k + 1)) (custom_body m pm n) ([], [], 0) e w
    = Out t w' (Ok (images, map (file_of e) (seq (uuids w) k), Z.of_nat k))
    /\ loop_inv e w m pm n k t w' images
    /\ calls w' send_media_group_ = (calls w send_media_group_ + k / 9)%nat.
Proof.
  induction k as [| k IH]; intros Hn Hf He Hs.
  - exists [], w, []. split; [now rewrite range_nil |]. split.
    + constructor; cbn; auto; try lia.
    + cbn. lia.
  - assert (Hdiv : (k / 9 <= S k / 9)%nat) by (apply Nat.Div0.div_le_mono; lia).
    destruct IH as (t & w' & images & Hrun & I & Hgc).
    { lia. }
    { intros j Hj. apply Hf. lia. }
    { intros j Hj. apply He. lia. }
    { intros j Hj. apply Hs. lia. }
    replace (Z.of_nat (S k) + 1) with ((Z.of_nat k + 1) + 1) by lia.
    rewrite range_snoc by lia. rewrite for_app.
    rewrite (bind_ok _ _ _ _ _ _ _ Hrun), for_one.
    destruct I.
    assert (Hb : response e (gets w') = Some (payload e (gets w + k))).
    { rewrite inv_gets0. apply (response_payload e (gets w) (S k)); auto. }
    destruct (length_div_full (batches t) images k inv_full0 inv_pending0)
      as [Hq Hr].
    { now rewrite inv_content0, length_map, length_seq. }
    rewrite custom_body_out. unfold iteration_out.
    rewrite Hb, inv_edit_calls0, (He k) by lia. cbv zeta.
    set (b := payload e (gets w + k)).
    assert (Hi : (Z.of_nat k + 1 =? n) = false) by (apply Z.eqb_neq; lia).
    rewrite Hi, orb_false_r.
    replace (Z.of_nat k + 1) with (Z.of_nat (S k)) by lia.
    assert (Hfn : (map (file_of e) (seq (uuids w) k) ++ [file_of e (uuids w')])%list
                  = map (file_of e) (seq (uuids w) (S k))).
    { rewrite seq_S, map_app, inv_uuids0. reflexivity. }
    assert (Hpl : (map (payload e) (seq (gets w) k) ++ [b])%list
                  = map (payload e) (seq (gets w) (S k))).
    { rewrite seq_S, map_app. reflexivity. }
    assert (Hed : (map (fun j => (chat_id m, message_id pm, progress_text (Z.of_nat j) n))
                     (seq 1 k)
                   ++ [(chat_id m, message_id pm, progress_text (Z.of_nat (S k)) n)])%list
                  = map (fun j => (chat_id m, message_id pm, progress_text (Z.of_nat j) n))
                      (seq 1 (S k))).
    { rewrite (seq_S k 1), map_app. reflexivity. }
    rewrite Hfn.
    assert (Hlen : length (images ++ [b]) = S (length images)).
    { rewrite length_app. cbn. lia. }
    destruct (Z.of_nat (length (images ++ [b])) =? GROUP_SIZE) eqn:Hfull.
    + apply Z.eqb_eq in Hfull. unfold GROUP_SIZE in Hfull.
      assert (Hk8 : (k mod 9 = 8)%nat) by lia.
      rewrite Hgc, (Hs (k / 9)%nat) by (rewrite (div9_full k Hk8); lia).
      rewrite prepend_out.
      eexists _, _, []. split; [reflexivity |].
      unfold iteration_log. split.
      * constructor; autorewrite with logs;
          cbn [batches edits notifications written removed photos fetch_calls filter
               is_fetch flat_map app length].
        -- cbn. lia.
        -- cbn. lia.
        -- cbn. lia.
        -- cbn. lia.
        -- rewrite concat_app. cbn [concat]. rewrite !app_nil_r.
           rewrite <- Hpl, <- inv_content0. now rewrite app_assoc.
        -- apply Forall_app. split; auto. constructor; auto. lia.
        -- rewrite inv_edits0. exact Hed.
        -- lia.
        -- rewrite inv_written0, inv_uuids0. rewrite seq_S, map_app. reflexivity.
        -- now rewrite inv_removed0.
        -- now rewrite inv_notifications0.
        -- now rewrite inv_photos0.
        -- intros f Hin. change (exists_file f (downloaded e w' b) = true).
           apply exists_file_downloaded. apply in_app_or in Hin.
           destruct Hin as [Hin | [Hin | []]]; auto.
      * cbn [calls tick api_eqb downloaded set_files tick_get tick_uuid].
        rewrite Hgc, (div9_full k Hk8). lia.
    + apply Z.eqb_neq in Hfull. unfold GROUP_SIZE in Hfull.
      assert (Hk8 : (k mod 9 < 8)%nat) by lia.
      rewrite prepend_out.
      eexists _, _, _. split; [reflexivity |].
      unfold iteration_log. split.
      * constructor; autorewrite with logs;
          cbn [batches edits notifications written removed photos fetch_calls filter
               is_fetch flat_map app length].
        -- cbn. lia.
        -- cbn. lia.
        -- cbn. lia.
        -- lia.
        -- rewrite app_nil_r, <- Hpl, <- inv_content0. now rewrite app_assoc.
        -- now rewrite app_nil_r.
        -- rewrite inv_edits0. exact Hed.
        -- lia.
        -- rewrite inv_written0, inv_uuids0. rewrite seq_S, map_app. reflexivity.
        -- now rewrite inv_removed0.
        -- now rewrite inv_notifications0.
        -- now rewrite inv_photos0.
        -- intros f Hin. change (exists_file f (downloaded e w' b) = true).
           apply exists_file_downloaded. apply in_app_or in Hin.
           destruct Hin as [Hin | [Hin | []]]; auto.
      * cbn [calls tick api_eqb downloaded set_files tick_get tick_uuid].
        rewrite Hgc, (div9_pending k Hk8). lia.
Qed.

Lemma custom_run_aborts_upto m n e w (k : nat) :
  Z.of_nat k < n ->
  raises e send_message_ (calls w send_message_) = false ->
  fetches_ok e (gets w) k ->
  edits_ok e (calls w edit_message_text_) k ->
  groups_ok_upto e (calls w send_media_group_) (k / 9) ->
  let pm := created e w (chat_id m) (custom_first_text n) in
  exists t w' images,
    loop_inv e (tick send_message_ w) m pm n k t w' images
    /\ calls w' send_media_group_ = (calls w send_media_group_ + k / 9)%nat
    /\ forall ti wi x,
         custom_body m pm n (Z.of_nat k + 1)
           (images, map (file_of e) (seq (uuids w) k), Z.of_nat k) e w'
         = Out ti wi (Raise x) ->
         generate_custom_images m n e w
         = Out (first_call m (custom_first_text n) :: t ++ ti) wi (Raise x).
Proof.
  intros Hk Hsend Hf He Hs pm.
  destruct (custom_loop_prefix_upto m pm n e (tick send_message_ w) k)
    as (t & w' & images & Hrun & I & Hgc); auto.
  exists t, w', images. split; [exact I |]. split; [exact Hgc |].
  intros ti wi x Hbody.
  rewrite generate_custom_images_out. unfold run_out. rewrite Hsend. fold pm.
  rewrite (range_split 1 (Z.of_nat k + 1) (n + 1)) by lia.
  rewrite for_app, (bind_ok _ _ _ _ _ _ _ Hrun).
  rewrite (range_cons (Z.of_nat k + 1)) by lia. cbn [for_].
  cbn [uuids tick] in Hbody |- *.
  rewrite (bind_raise _ _ _ _ _ _ _ Hbody). reflexivity.
Qed.

(** X12. A failure of a grouped send is not handled either.  When image
    [k+1] ends a group (the ninth of its group, or the last image) and the
    grouped send raises, after [k] iterations without failure, the run of
    either function raises the exception of the send, and that send is its
    last call: no later fetch, no retry, no notice to the user, and no file
    removed, so the [k+1] files written so far stay on disk. *)
Theorem delivery_failure_aborts (e : env) (w : world) (m : Message) (n : Z) (k : nat)
    (o : out unit) (first : string) :
  relay_run e w m n o first ->
  Z.of_nat k < n ->
  raises e send_message_ (calls w send_message_) = false ->
  fetches_ok e (gets w) (S k) ->
  edits_ok e (calls w edit_message_text_) (S k) ->
  groups_ok_upto e (calls w send_media_group_) (k / 9) ->
  (k mod 9 = 8)%nat \/ Z.of_nat k + 1 = n ->
  raises e send_media_group_ (calls w send_media_group_ + k / 9) = true ->
  exists body group,
    log o = first_call m first :: body
    /\ value o = Raise ApiTelegramException
    /\ (exists before, body = (before ++ [SendMediaGroup (chat_id m) group])%list)
    /\ length group = S (k mod 9)
    /\ fetch_calls body = S k
    /\ removed body = []
    /\ notifications body = []
    /\ written body = map (file_of e) (seq (uuids w) (S k))
    /\ forall f, In f (written body) -> exists_file f (after o) = true.
Proof.
  intros Hrun Hk Hsend Hf He Hs Hends Hfail.
  destruct (both_runs
              (fun v a body =>
                 exists group,
                   v = Raise ApiTelegramException
                   /\ (exists before,
                          body = (before ++ [SendMediaGroup (chat_id m) group])%list)
                   /\ length group = S (k mod 9)
                   /\ fetch_calls body = S k
                   /\ removed body = []
                   /\ notifications body = []
                   /\ written body = map (file_of e) (seq (uuids w) (S k))
                   /\ forall f, In f (written body) -> exists_file f a = true)
              e w m n) with (o := o) (first := first)
    as (body & Hlog & group & H); [| exact Hrun | now exists body, group].
  destruct (custom_run_aborts_upto m n e w k) as (t & w' & images & I & Hgc & Habort);
    auto.
  { intros j Hj. apply Hf. lia. }
  { intros j Hj. apply He. lia. }
  destruct I. cbn [gets uuids calls tick api_eqb] in *.
  assert (Hb : response e (gets w') = Some (payload e (gets w + k))).
  { rewrite inv_gets0. apply (response_payload e (gets w) (S k)); auto. }
  destruct (length_div_full (batches t) images k inv_full0 inv_pending0) as [Hq Hr].
  { now rewrite inv_content0, length_map, length_seq. }
  set (b := payload e (gets w + k)) in *.
  assert (Hlen : length (images ++ [b]) = S (k mod 9)).
  { rewrite length_app, Hr. cbn. lia. }
  assert (Hflush : (Z.of_nat (length (images ++ [b])) =? GROUP_SIZE)
                   || (Z.of_nat k + 1 =? n) = true).
  { apply orb_true_iff. destruct Hends as [H8 | Hlast].
    - left. apply Z.eqb_eq. unfold GROUP_SIZE. lia.
    - right. now apply Z.eqb_eq. }
  erewrite Habort.
  2:{ rewrite custom_body_out. unfold iteration_out.
      rewrite Hb, inv_edit_calls0, (He k) by lia. cbv zeta.
      fold b. rewrite Hflush, Hgc, Hfail. reflexivity. }
  eexists. split; [reflexivity |]. exists (images ++ [b])%list.
  cbn [value after]. unfold iteration_log. autorewrite with logs.
  cbn [batches edits notifications written removed photos fetch_calls filter
       is_fetch flat_map app length].
  rewrite !app_nil_r, inv_notifications0, inv_removed0, inv_fetches0, inv_written0.
  split; [reflexivity |]. split.
  { eexists (t ++ [_; _; _; _])%list. rewrite <- app_assoc. reflexivity. }
  split; [exact Hlen |]. split; [lia |]. split; [reflexivity |].
  split; [reflexivity |]. split.
  { rewrite seq_S, map_app, inv_uuids0. reflexivity. }
  intros f Hin. change (exists_file f (downloaded e w' b) = true).
  apply exists_file_downloaded. apply in_app_or in Hin.
  destruct Hin as [Hin | [Hin | []]]; auto.
  left. apply inv_files0. now rewrite inv_written0.
Qed.

Lemma delivery_failure_aborts_witness :
  exists body group,
    log (send_multiple_images (msg "20") 20 (api_fails_at send_media_group_ 1) start)
    = first_call (msg "20") (multiple_first_text 20) :: body
    /\ value (send_multiple_images (msg "20") 20 (api_fails_at send_media_group_ 1) start)
       = Raise ApiTelegramException
    /\ (exists before,
           body = (before ++ [SendMediaGroup (chat_id (msg "20")) group])%list)
    /\ length group = S (17 mod 9)
    /\ fetch_calls body = 18%nat
    /\ removed body = []
    /\ notifications body = []
    /\ written body
       = map (file_of (api_fails_at send_media_group_ 1)) (seq (uuids start) 18)
    /\ forall f, In f (written body) ->
                 exists_file f
                   (after (send_multiple_images (msg "20") 20
                             (api_fails_at send_media_group_ 1) start)) = true.
Proof.
  apply (delivery_failure_aborts (api_fails_at send_media_group_ 1) start (msg "20")
           20 17).
  - right. split; reflexivity.
  - lia.
  - reflexivity.
  - intros j _. discriminate.
  - intros j _. reflexivity.
  - intros j Hj. change (17 / 9)%nat with 1%nat in Hj.
    replace j with O by lia. reflexivity.
  - left. reflexivity.
  - reflexivity.
Defined.
